(** * Notary management backend: case / appointment workflow

    A shallow embedding of [backend/main.py] and [schemas.py]: the request
    handlers are functions in a small reader/state/exception monad over an
    explicit model of the document store.

    Modelling conventions.
    - Strings are [string]: a Python [str] is held as the bytes of its
      UTF-8 encoding.  The [Literal] types of the schemas are lists of
      admissible strings, checked when a request body is validated.
    - A Python [datetime] is the record of its calendar fields, naive and
      in UTC.  Datetimes are compared through [timestamp_us], the number
      of microseconds elapsed since 0001-01-01T00:00, which on valid
      datetimes is Python's field-by-field comparison ([dt_ltb_lex]).  The
      store is taken to keep datetimes as they are given to it.
    - An [HTTPException] raised by a handler aborts it; what was written to
      the store before the exception stays written.
    - The store never fails: the storage and audit errors of a backend that
      is down are outside the model, and so are concurrent requests. *)

From Stdlib Require Import ZArith List String Ascii Bool Lia.
From Stdlib Require Import Permutation Sorted.
Import ListNotations.

Open Scope string_scope.
Open Scope list_scope.
Open Scope Z_scope.

(* ------------------------------------------------------------------ *)
(** ** Python datetimes *)

Record datetime : Type := mkDatetime {
  year : Z; month : Z; day : Z;
  hour : Z; minute : Z; second : Z; microsecond : Z
}.

Definition MINYEAR : Z := 1.
Definition MAXYEAR : Z := 9999.

Definition is_leap (y : Z) : bool :=
  (y mod 4 =? 0) && (negb (y mod 100 =? 0) || (y mod 400 =? 0)).

Definition days_before_year (y : Z) : Z :=
  let p := y - 1 in p * 365 + p / 4 - p / 100 + p / 400.

Definition days_in_month (y m : Z) : Z :=
  if (m =? 2) && is_leap y then 29
  else nth (Z.to_nat m) [-1; 31; 28; 31; 30; 31; 30; 31; 31; 30; 31; 30; 31] (-1).

Definition days_before_month (y m : Z) : Z :=
  nth (Z.to_nat m) [-1; 0; 31; 59; 90; 120; 151; 181; 212; 243; 273; 304; 334] (-1)
  + (if (2 <? m) && is_leap y then 1 else 0).

(** Proleptic Gregorian ordinal of a date; 0001-01-01 is day 1. *)
Definition ymd2ord (y m d : Z) : Z :=
  days_before_year y + days_before_month y m + d.

Definition valid_date (y m d : Z) : bool :=
  (MINYEAR <=? y) && (y <=? MAXYEAR) &&
  (1 <=? m) && (m <=? 12) &&
  (1 <=? d) && (d <=? days_in_month y m).

Definition valid_time (h mi s us : Z) : bool :=
  (0 <=? h) && (h <? 24) && (0 <=? mi) && (mi <? 60) &&
  (0 <=? s) && (s <? 60) && (0 <=? us) && (us <? 1000000).

Definition valid_datetime (t : datetime) : bool :=
  valid_date (year t) (month t) (day t) &&
  valid_time (hour t) (minute t) (second t) (microsecond t).

Definition timestamp_us (t : datetime) : Z :=
  ((((ymd2ord (year t) (month t) (day t) - 1) * 24 + hour t) * 60
      + minute t) * 60 + second t) * 1000000 + microsecond t.

Definition dt_ltb (a b : datetime) : bool := timestamp_us a <? timestamp_us b.
Definition dt_leb (a b : datetime) : bool := timestamp_us a <=? timestamp_us b.

Declare Scope datetime_scope.
Delimit Scope datetime_scope with dt.
Infix "<?" := dt_ltb : datetime_scope.
Infix "<=?" := dt_leb : datetime_scope.

(** Python compares two datetimes as it compares the tuples of their
    fields, from the year down to the microsecond. *)
Fixpoint lex_ltb (a b : list Z) : bool :=
  match a, b with
  | x :: a', y :: b' => (x <? y) || ((x =? y) && lex_ltb a' b')
  | _, _ => false
  end.

Definition timetuple (t : datetime) : list Z :=
  [year t; month t; day t; hour t; minute t; second t; microsecond t].

(** [datetime(y, m, d)]: midnight of the day, [None] for the [ValueError]
    Python raises on an impossible date. *)
Definition datetime_ymd (y m d : Z) : option datetime :=
  if valid_date y m d then Some (mkDatetime y m d 0 0 0 0) else None.

(** [t + timedelta(days=1)]: the same time of day on the next calendar day,
    [None] for the [OverflowError] raised past 9999-12-31. *)
Definition plus_one_day (t : datetime) : option datetime :=
  let '(mkDatetime y m d h mi s us) := t in
  if d <? days_in_month y m then Some (mkDatetime y m (d + 1) h mi s us)
  else if m <? 12 then Some (mkDatetime y (m + 1) 1 h mi s us)
  else if y <? MAXYEAR then Some (mkDatetime (y + 1) 1 1 h mi s us)
  else None.

(** *** [strftime] and [strptime] for the format [%Y-%m-%d] *)

Definition digit_char (n : Z) : ascii := ascii_of_nat (Z.to_nat (48 + n)).

Definition digit_val (c : ascii) : option Z :=
  let n := Z.of_nat (nat_of_ascii c) in
  if (48 <=? n) && (n <=? 57) then Some (n - 48) else None.

Definition pad2 (n : Z) : string :=
  String (digit_char (n / 10 mod 10)) (String (digit_char (n mod 10)) "").

Definition pad4 (n : Z) : string :=
  String (digit_char (n / 1000 mod 10))
    (String (digit_char (n / 100 mod 10)) (pad2 n)).

Definition strftime_Ymd (t : datetime) : string :=
  (pad4 (year t) ++ "-" ++ pad2 (month t) ++ "-" ++ pad2 (day t))%string.

Definition byte_val (c : ascii) : Z := Z.of_nat (nat_of_ascii c).

(** The payload of a UTF-8 continuation byte, [10xxxxxx]. *)
Definition continuation (c : ascii) : option Z :=
  let n := byte_val c in
  if (128 <=? n) && (n <? 192) then Some (n - 128) else None.

(** The first code point of a string and what follows it; [None] at the
    end of the string and on bytes that encode no code point. *)
Definition code_point (s : string) : option (Z * string) :=
  match s with
  | EmptyString => None
  | String a r =>
      let n := byte_val a in
      if n <? 128 then Some (n, r)
      else if (194 <=? n) && (n <? 224) then
        match r with
        | String b r1 =>
            match continuation b with
            | Some x => Some ((n - 192) * 64 + x, r1)
            | None => None
            end
        | _ => None
        end
      else if (224 <=? n) && (n <? 240) then
        match r with
        | String b (String c r2) =>
            match continuation b, continuation c with
            | Some x, Some y =>
                let cp := ((n - 224) * 64 + x) * 64 + y in
                if (cp <? 0x800) || ((0xd800 <=? cp) && (cp <? 0xe000))
                then None else Some (cp, r2)
            | _, _ => None
            end
        | _ => None
        end
      else if (240 <=? n) && (n <? 245) then
        match r with
        | String b (String c (String d r3)) =>
            match continuation b, continuation c, continuation d with
            | Some x, Some y, Some z =>
                let cp := (((n - 240) * 64 + x) * 64 + y) * 64 + z in
                if (cp <? 0x10000) || (0x10ffff <? cp)
                then None else Some (cp, r3)
            | _, _, _ => None
            end
        | _ => None
        end
      else None
  end.

(** The digit zero of every script of the Unicode category Nd, as of
    Unicode 14.0, the character database of Python 3.11.  The nine code
    points after each are the digits one to nine of the script. *)
Definition decimal_zeros : list Z :=
  [0x30; 0x660; 0x6f0; 0x7c0; 0x966; 0x9e6; 0xa66; 0xae6; 0xb66; 0xbe6;
   0xc66; 0xce6; 0xd66; 0xde6; 0xe50; 0xed0; 0xf20; 0x1040; 0x1090; 0x17e0;
   0x1810; 0x1946; 0x19d0; 0x1a80; 0x1a90; 0x1b50; 0x1bb0; 0x1c40; 0x1c50;
   0xa620; 0xa8d0; 0xa900; 0xa9d0; 0xa9f0; 0xaa50; 0xabf0; 0xff10; 0x104a0;
   0x10d30; 0x11066; 0x110f0; 0x11136; 0x111d0; 0x112f0; 0x11450; 0x114d0;
   0x11650; 0x116c0; 0x11730; 0x118e0; 0x11950; 0x11c50; 0x11d50; 0x11da0;
   0x16a60; 0x16ac0; 0x16b50; 0x1d7ce; 0x1d7d8; 0x1d7e2; 0x1d7ec; 0x1d7f6;
   0x1e140; 0x1e2f0; 0x1e950; 0x1fbf0].

(** The value of a decimal digit of any script.  The [\d] of a pattern
    over [str] matches the code points that have one, and [int] reads
    them by it. *)
Definition decimal (cp : Z) : option Z :=
  match find (fun z => (z <=? cp) && (cp <? z + 10)) decimal_zeros with
  | Some z => Some (cp - z)
  | None => None
  end.

(** One [\d] at the head of a string. *)
Definition read_digit (s : string) : option (Z * string) :=
  match code_point s with
  | Some (cp, r) =>
      match decimal cp with
      | Some v => Some (v, r)
      | None => None
      end
  | None => None
  end.

(** [%Y] is [\d\d\d\d]: four decimal digits, of any script. *)
Definition parse_Y (s : string) : option (Z * string) :=
  match read_digit s with
  | Some (x3, s3) =>
      match read_digit s3 with
      | Some (x2, s2) =>
          match read_digit s2 with
          | Some (x1, s1) =>
              match read_digit s1 with
              | Some (x0, r) =>
                  Some (x3 * 1000 + x2 * 100 + x1 * 10 + x0, r)
              | None => None
              end
          | None => None
          end
      | None => None
      end
  | None => None
  end.

(** [%m] is [1[0-2]|0[1-9]|[1-9]], in ASCII digits. *)
Definition parse_m (s : string) : option Z :=
  match s with
  | String a EmptyString =>
      match digit_val a with
      | Some x => if 1 <=? x then Some x else None
      | None => None
      end
  | String a (String b EmptyString) =>
      match digit_val a, digit_val b with
      | Some 1, Some x => if x <=? 2 then Some (10 + x) else None
      | Some 0, Some x => if 1 <=? x then Some x else None
      | _, _ => None
      end
  | _ => None
  end.

(** A string that is one character of [[1-9]]. *)
Definition parse_nonzero (s : string) : option Z :=
  match s with
  | String a EmptyString =>
      match digit_val a with
      | Some x => if 1 <=? x then Some x else None
      | None => None
      end
  | _ => None
  end.

(** [%d] is [3[0-1]|[1-2]\d|0[1-9]|[1-9]| [1-9]]: the digit after a
    leading 1 or 2 is a [\d], of any script, the others are ASCII. *)
Definition parse_d (s : string) : option Z :=
  match s with
  | EmptyString => None
  | String a EmptyString => parse_nonzero s
  | String a r =>
      if Ascii.eqb a " " then parse_nonzero r
      else match digit_val a with
           | Some 3 =>
               match r with
               | String b EmptyString =>
                   match digit_val b with
                   | Some x => if x <=? 1 then Some (30 + x) else None
                   | None => None
                   end
               | _ => None
               end
           | Some 2 =>
               match read_digit r with
               | Some (x, EmptyString) => Some (20 + x)
               | _ => None
               end
           | Some 1 =>
               match read_digit r with
               | Some (x, EmptyString) => Some (10 + x)
               | _ => None
               end
           | Some 0 => parse_nonzero r
           | _ => None
           end
  end.

(** Splits a string at its first ["-"]. *)
Fixpoint split_dash (s : string) : option (string * string) :=
  match s with
  | EmptyString => None
  | String c r =>
      if Ascii.eqb c "-" then Some (EmptyString, r)
      else match split_dash r with
           | Some (h, t) => Some (String c h, t)
           | None => None
           end
  end.

(** [datetime.strptime(s, "%Y-%m-%d")]: the whole string has to match the
    pattern of the format, and the numbers read have to name a date;
    [None] stands for the [ValueError] raised otherwise. *)
Definition strptime_Ymd (s : string) : option datetime :=
  match parse_Y s with
  | Some (y, String dash r) =>
      if Ascii.eqb dash "-" then
        match split_dash r with
        | Some (ms, ds) =>
            match parse_m ms, parse_d ds with
            | Some m, Some dd => datetime_ymd y m dd
            | _, _ => None
            end
        | None => None
        end
      else None
  | _ => None
  end.

(* ------------------------------------------------------------------ *)
(** ** Object identifiers *)

(** A BSON ObjectId holds 12 bytes and is written as their 24 hexadecimal
    digits; it is given here by the number the 12 bytes spell, most
    significant byte first.  bson also builds an identifier out of fewer
    bytes (see [ObjectId_of_str]); such a one is given a negative number,
    which no identifier of a stored document is. *)
Definition ObjectId : Type := Z.

Definition hex_val (c : ascii) : option Z :=
  let n := Z.of_nat (nat_of_ascii c) in
  if (48 <=? n) && (n <=? 57) then Some (n - 48)
  else if (97 <=? n) && (n <=? 102) then Some (n - 87)
  else if (65 <=? n) && (n <=? 70) then Some (n - 55)
  else None.

(** ASCII white space: tab, line feed, vertical tab, form feed, carriage
    return and space. *)
Definition is_space (c : ascii) : bool :=
  let n := Z.of_nat (nat_of_ascii c) in
  ((9 <=? n) && (n <=? 13)) || (n =? 32).

(** [bytes.fromhex]: every byte is two adjacent hexadecimal digits, of
    either case; white space before a byte and after the last one is
    skipped.  [None] stands for the [ValueError] raised on anything else. *)
Fixpoint fromhex (s : string) : option (list Z) :=
  match s with
  | EmptyString => Some []
  | String c r =>
      if is_space c then fromhex r
      else match r with
           | String c' r' =>
               match hex_val c, hex_val c' with
               | Some hi, Some lo =>
                   match fromhex r' with
                   | Some bs => Some (hi * 16 + lo :: bs)
                   | None => None
                   end
               | _, _ => None
               end
           | EmptyString => None
           end
  end.

(** The number a string of bytes spells, most significant byte first. *)
Definition be_value (bs : list Z) : Z :=
  fold_left (fun acc b => acc * 256 + b) bs 0.

(** The identifier that holds the bytes [bs]: 12 bytes give their number,
    fewer bytes a negative number of their own. *)
Definition ObjectId_of_bytes (bs : list Z) : ObjectId :=
  if (List.length bs =? 12)%nat then be_value bs
  else - (1 + 256 ^ Z.of_nat (List.length bs) + be_value bs).

(** [ObjectId(id_str)]: bson takes a string of 24 characters that
    [bytes.fromhex] reads, and holds the bytes read: 12 of them when the
    string is 24 hexadecimal digits, fewer when it has white space in it.
    [None] stands for bson's [InvalidId].  bson counts the characters of
    the string and [String.length] its bytes: the two differ only on a
    string with a character outside ASCII, which [bytes.fromhex] refuses
    in any case. *)
Definition ObjectId_of_str (id_str : string) : option ObjectId :=
  if (String.length id_str =? 24)%nat then
    match fromhex id_str with
    | Some bs => Some (ObjectId_of_bytes bs)
    | None => None
    end
  else None.

Definition hex_char (v : Z) : ascii :=
  if v <? 10 then ascii_of_nat (Z.to_nat (48 + v))
  else ascii_of_nat (Z.to_nat (87 + v)).

Fixpoint hex_digits (n : nat) (v : Z) (acc : string) : string :=
  match n with
  | O => acc
  | S k => hex_digits k (v / 16) (String (hex_char (v mod 16)) acc)
  end.

(** [str(object_id)] for an identifier of 12 bytes: 24 lower-case
    hexadecimal digits. *)
Definition ObjectId_str (o : ObjectId) : string := hex_digits 24 o "".

(* ------------------------------------------------------------------ *)
(** ** Schemas ([schemas.py]) *)

Definition in_literal (s : string) (lit : list string) : bool :=
  existsb (String.eqb s) lit.

Module Client.
Record t : Type := mk {
  first_name : string;
  last_name : string;
  email : string;
  phone : option string;
  address : option string;
  city : option string;
  country : option string;
  notes : option string
}.
End Client.

Definition CaseStatus : list string :=
  ["New"; "Draft"; "Waiting Signature"; "Completed"; "Archived"].

Module Case.
Record t : Type := mk {
  client_id : string;
  title : string;
  type_ : string;
  status : string;
  description : option string;
  assigned_to : option string;
  due_date : option datetime
}.

(** A request body before validation: [None] is an absent key. *)
Record body : Type := mkBody {
  b_client_id : option string;
  b_title : option string;
  b_type : option string;
  b_status : option string;
  b_description : option string;
  b_assigned_to : option string;
  b_due_date : option datetime
}.

(** Pydantic validation: the three [Field(...)] are required, [status]
    defaults to ["New"] and must belong to [CaseStatus]. *)
Definition validate (b : body) : option t :=
  match b_client_id b, b_title b, b_type b with
  | Some c, Some ti, Some ty =>
      let st := match b_status b with Some s => s | None => "New" end in
      if in_literal st CaseStatus
      then Some (mk c ti ty st (b_description b) (b_assigned_to b) (b_due_date b))
      else None
  | _, _, _ => None
  end.

Definition set_status (s : string) (c : t) : t :=
  mk (client_id c) (title c) (type_ c) s
     (description c) (assigned_to c) (due_date c).
End Case.

Definition AppointmentStatus : list string :=
  ["Scheduled"; "Completed"; "Cancelled"].

Module Appointment.
Record t : Type := mk {
  client_id : option string;
  service : string;
  start_time : datetime;
  end_time : datetime;
  location : option string;
  notes : option string;
  status : string;
  case_id : option string
}.

Record body : Type := mkBody {
  b_client_id : option string;
  b_service : option string;
  b_start_time : option datetime;
  b_end_time : option datetime;
  b_location : option string;
  b_notes : option string;
  b_status : option string;
  b_case_id : option string
}.

(** Pydantic validation: [service], [start_time] and [end_time] are
    required, [status] defaults to ["Scheduled"] and must belong to
    [AppointmentStatus]. *)
Definition validate (b : body) : option t :=
  match b_service b, b_start_time b, b_end_time b with
  | Some sv, Some st, Some en =>
      let s := match b_status b with Some s => s | None => "Scheduled" end in
      if valid_datetime st && valid_datetime en && in_literal s AppointmentStatus
      then Some (mk (b_client_id b) sv st en (b_location b) (b_notes b) s
                    (b_case_id b))
      else None
  | _, _, _ => None
  end.
End Appointment.

Module AuditLog.
Record t : Type := mk {
  actor_role : string;
  actor_id : option string;
  action : string;
  entity : string;
  entity_id : option string;
  details : option (list (string * string))
}.

(** [AuditLog(actor_role=..., action=..., entity=..., entity_id=...)]. *)
Definition make (role act ent : string) (eid : string) : t :=
  mk role None act ent (Some eid) None.
End AuditLog.

(* ------------------------------------------------------------------ *)
(** ** The document store *)

(** A stored document: the dumped model together with the identifier and
    the two timestamps the store layer adds.  [I] is [ObjectId] in the
    store and [string] once a handler has rewritten ["_id"] for output. *)
Record Document (I A : Type) : Type := mkDocument {
  _id : I;
  fields : A;
  created_at : datetime;
  updated_at : datetime
}.
Arguments mkDocument {I A}.
Arguments _id {I A}.
Arguments fields {I A}.
Arguments created_at {I A}.
Arguments updated_at {I A}.

Definition Stored (A : Type) : Type := Document ObjectId A.

(** [it["_id"] = str(it["_id"])]. *)
Definition stringify_id {A} (d : Stored A) : Document string A :=
  mkDocument (ObjectId_str (_id d)) (fields d) (created_at d) (updated_at d).

(** Modelled from the spec: the Entity Store behind [database.db], whose
    module is imported by [main.py] but is not among the sources.  It owns
    the persisted records, keyed by opaque identifiers; here, the four
    collections the workflow touches, each in insertion order, and the
    next identifier the store will hand out. *)
Record Store : Type := mkStore {
  client : list (Stored Client.t);
  case : list (Stored Case.t);
  appointment : list (Stored Appointment.t);
  auditlog : list (Stored AuditLog.t);
  next_oid : ObjectId
}.

Definition empty_store : Store := mkStore [] [] [] [] 0.

(** [db[name]] for a collection holding documents of type [A]. *)
Record Collection (A : Type) : Type := mkCollection {
  coll_get : Store -> list (Stored A);
  coll_set : list (Stored A) -> Store -> Store
}.
Arguments mkCollection {A}.
Arguments coll_get {A}.
Arguments coll_set {A}.

Definition client_ : Collection Client.t :=
  mkCollection client
    (fun l s => mkStore l (case s) (appointment s) (auditlog s) (next_oid s)).
Definition case_ : Collection Case.t :=
  mkCollection case
    (fun l s => mkStore (client s) l (appointment s) (auditlog s) (next_oid s)).
Definition appointment_ : Collection Appointment.t :=
  mkCollection appointment
    (fun l s => mkStore (client s) (case s) l (auditlog s) (next_oid s)).
Definition auditlog_ : Collection AuditLog.t :=
  mkCollection auditlog
    (fun l s => mkStore (client s) (case s) (appointment s) l (next_oid s)).

(* ------------------------------------------------------------------ *)
(** ** Handlers as computations *)

Record HTTPException : Type := mkHTTPException {
  status_code : Z;
  detail : string
}.

Definition result (A : Type) : Type := (HTTPException + A)%type.

(** A computation reads the clock, threads the store and either returns or
    raises; the store reached at the point of the exception is kept. *)
Definition M (A : Type) : Type := datetime -> Store -> result A * Store.

Definition ret {A} (a : A) : M A := fun _ db => (inr a, db).
Definition raise {A} (e : HTTPException) : M A := fun _ db => (inl e, db).
Definition bind {A B} (m : M A) (k : A -> M B) : M B :=
  fun now db =>
    match m now db with
    | (inr a, db') => k a now db'
    | (inl e, db') => (inl e, db')
    end.

Notation "x <- m ;; k" := (bind m (fun x => k))
  (at level 61, m at next level, right associativity).
Notation "m ;;; k" := (bind m (fun _ => k))
  (at level 61, right associativity).

Definition utcnow : M datetime := fun now db => (inr now, db).
Definition get_db : M Store := fun _ db => (inr db, db).
Definition put_db (db : Store) : M unit := fun _ _ => (inr tt, db).

Definition succeeds {A} (r : result A * Store) : Prop :=
  exists a, fst r = inr a.
Definition fails_with {A} (code : Z) (r : result A * Store) : Prop :=
  exists e, fst r = inl e /\ status_code e = code.

(** The error kinds of the specification are the HTTP status classes. *)
Definition InvalidArgumentError {A} := @fails_with A 400.
Definition ForbiddenError {A} := @fails_with A 403.
Definition NotFoundError {A} := @fails_with A 404.
Definition ConflictError {A} := @fails_with A 409.

(** Modelled from the spec: [database.create_document], imported by
    [main.py] but not among the sources.  Following the Entity Store
    contract [create(recordType, record) -> id] and the creation and update
    timestamps of the data model, it stores the record as given under a
    fresh identifier, stamps both times with the current instant, and
    returns the identifier as a string. *)
Definition create_document {A} (c : Collection A) (data : A) : M string :=
  now <- utcnow ;;
  db <- get_db ;;
  let new := next_oid db in
  let doc := mkDocument new data now now in
  let db1 := coll_set c (coll_get c db ++ [doc]) db in
  put_db (mkStore (client db1) (case db1) (appointment db1) (auditlog db1)
                  (new + 1)) ;;;
  ret (ObjectId_str new).

(** [collection.find_one(filter)], the [find] of the Entity Store limited
    to one record: the first matching document. *)
Definition find_one {A} (c : Collection A) (p : Stored A -> bool)
  : M (option (Stored A)) :=
  db <- get_db ;; ret (List.find p (coll_get c db)).

(** [collection.count_documents(filter)]. *)
Definition count_documents {A} (c : Collection A) (p : Stored A -> bool)
  : M Z :=
  db <- get_db ;; ret (Z.of_nat (List.length (List.filter p (coll_get c db)))).

(** Applies [f] to the first element satisfying [p]; the number returned is
    the count of matched documents (0 or 1). *)
Fixpoint update_first {X} (p : X -> bool) (f : X -> X) (l : list X)
  : Z * list X :=
  match l with
  | [] => (0, [])
  | x :: r =>
      if p x then (1, f x :: r)
      else let '(n, r') := update_first p f r in (n, x :: r')
  end.

(** [collection.update_one(filter, {"$set": ...})], returning
    [matched_count]. *)
Definition update_one {A} (c : Collection A) (p : Stored A -> bool)
    (f : Stored A -> Stored A) : M Z :=
  db <- get_db ;;
  let '(n, l) := update_first p f (coll_get c db) in
  put_db (coll_set c l db) ;;;
  ret n.

(** [collection.find(filter)] as a list, in insertion order. *)
Definition find_all {A} (c : Collection A) (p : Stored A -> bool)
  : M (list (Stored A)) :=
  db <- get_db ;; ret (List.filter p (coll_get c db)).

(** Stable insertion sort; [leb a b] says that [a] may precede [b]. *)
Fixpoint insert_by {X} (leb : X -> X -> bool) (x : X) (l : list X) : list X :=
  match l with
  | [] => [x]
  | y :: r => if leb x y then x :: y :: r else y :: insert_by leb x r
  end.

Fixpoint sort_by {X} (leb : X -> X -> bool) (l : list X) : list X :=
  match l with
  | [] => []
  | x :: r => insert_by leb x (sort_by leb r)
  end.

(* ------------------------------------------------------------------ *)
(** ** Request handlers ([backend/main.py]) *)

(** Truth value of a Python string: only the empty string is false. *)
Definition truthy (s : string) : bool := negb (String.eqb s "").

(** [x_role or "client"]. *)
Definition get_role (x_role : option string) : string :=
  match x_role with
  | Some r => if truthy r then r else "client"
  | None => "client"
  end.

Definition require_role (allowed : list string) (role : string) : M string :=
  if negb (in_literal role allowed)
  then raise (mkHTTPException 403 "Forbidden for role")
  else ret role.

(** The [bson] package is taken to be installed, so that the only failure
    is that of the conversion. *)
Definition oid (id_str : string) : M ObjectId :=
  match ObjectId_of_str id_str with
  | Some o => ret o
  | None => raise (mkHTTPException 400 "Invalid id or bson not available")
  end.

Definition has_id {A} (o : ObjectId) (d : Stored A) : bool := _id d =? o.

Definition create_client (payload : Client.t) : M string :=
  new_id <- create_document client_ payload ;;
  create_document auditlog_
    (AuditLog.make "assistant" "create" "client" new_id) ;;;
  ret new_id.

Definition create_case (payload : Case.t) : M string :=
  (if truthy (Case.client_id payload) then
     o <- oid (Case.client_id payload) ;;
     found <- find_one client_ (has_id o) ;;
     match found with
     | None => raise (mkHTTPException 404 "Client not found")
     | Some _ => ret tt
     end
   else ret tt) ;;;
  new_id <- create_document case_ payload ;;
  create_document auditlog_
    (AuditLog.make "assistant" "create" "case" new_id) ;;;
  ret new_id.

Definition update_case_status (case_id status : string) : M bool :=
  let allowed := ["New"; "Draft"; "Waiting Signature"; "Completed"; "Archived"] in
  if negb (in_literal status allowed)
  then raise (mkHTTPException 400 "Invalid status")
  else
    o <- oid case_id ;;
    now <- utcnow ;;
    matched_count <- update_one case_ (has_id o)
      (fun d => mkDocument (_id d) (Case.set_status status (fields d))
                           (created_at d) now) ;;
    if matched_count =? 0
    then raise (mkHTTPException 404 "Case not found")
    else
      create_document auditlog_
        (AuditLog.mk "assistant" None "update_status" "case" (Some case_id)
                     (Some [("status", status)])) ;;;
      ret true.

(** The filter of the conflict query:
    [start_time < payload.end_time] and [end_time > payload.start_time]. *)
Definition conflicts_with (payload : Appointment.t) (d : Stored Appointment.t)
  : bool :=
  (Appointment.start_time (fields d) <? Appointment.end_time payload)%dt
  && (Appointment.start_time payload <? Appointment.end_time (fields d))%dt.

Definition public_create_appointment (payload : Appointment.t) : M string :=
  if (Appointment.end_time payload <=? Appointment.start_time payload)%dt
  then raise (mkHTTPException 400 "Invalid time range")
  else
    conflict <- find_one appointment_ (conflicts_with payload) ;;
    match conflict with
    | Some _ => raise (mkHTTPException 409 "Time slot not available")
    | None =>
        new_id <- create_document appointment_ payload ;;
        create_document auditlog_
          (AuditLog.make "client" "book" "appointment" new_id) ;;;
        ret new_id
    end.

(** [{"start_time": {"$gte": start, "$lt": end}}]. *)
Definition starts_within (start end_ : datetime) (d : Stored Appointment.t)
  : bool :=
  (start <=? Appointment.start_time (fields d))%dt
  && (Appointment.start_time (fields d) <? end_)%dt.

(** The three statements computing the bounds of a day from its
    [YYYY-MM-DD] form; [None] when one of them raises.  (The handler's
    parameter [day] is written [day_arg] here, [day] being a field of
    [datetime].) *)
Definition day_bounds (day_arg : string) : option (datetime * datetime) :=
  match strptime_Ymd day_arg with
  | None => None
  | Some d =>
      match datetime_ymd (year d) (month d) (day d) with
      | None => None
      | Some start =>
          match plus_one_day start with
          | None => None
          | Some end_ => Some (start, end_)
          end
      end
  end.

Definition by_start_time (a b : Stored Appointment.t) : bool :=
  (Appointment.start_time (fields a) <=? Appointment.start_time (fields b))%dt.

Definition list_appointments (day_arg : option string) (role : string)
  : M (list (Document string Appointment.t)) :=
  filt <- match day_arg with
          | Some s =>
              if truthy s then
                match day_bounds s with
                | Some (start, end_) => ret (starts_within start end_)
                | None => raise (mkHTTPException 400 "Invalid day format")
                end
              else ret (fun _ => true)
          | None => ret (fun _ => true)
          end ;;
  found <- find_all appointment_ filt ;;
  let items := sort_by by_start_time found in
  ret (map stringify_id items).

Record Kpis : Type := mkKpis {
  appointments_today : Z;
  open_cases : Z;
  completed_cases : Z
}.

Record Dashboard : Type := mkDashboard {
  kpis : Kpis;
  recent_activity : list (Document string AuditLog.t)
}.

(** An exception no handler catches surfaces as a server error. *)
Definition uncaught {A} : M A :=
  raise (mkHTTPException 500 "Internal Server Error").

Definition is_open (d : Stored Case.t) : bool :=
  in_literal (Case.status (fields d)) ["New"; "Draft"; "Waiting Signature"].

Definition is_completed (d : Stored Case.t) : bool :=
  String.eqb (Case.status (fields d)) "Completed".

(** Most recent first. *)
Definition by_created_at_desc (a b : Stored AuditLog.t) : bool :=
  (created_at b <=? created_at a)%dt.

Definition dashboard (role : string) : M Dashboard :=
  now <- utcnow ;;
  let today := strftime_Ymd now in
  match day_bounds today with
  | None => uncaught
  | Some (start, end_) =>
      appts_today <- count_documents appointment_ (starts_within start end_) ;;
      open_cases <- count_documents case_ is_open ;;
      completed_month <- count_documents case_ is_completed ;;
      every <- find_all auditlog_ (fun _ => true) ;;
      let recent_activity := firstn 10 (sort_by by_created_at_desc every) in
      ret (mkDashboard (mkKpis appts_today open_cases completed_month)
                       (map stringify_id recent_activity))
  end.

(** *** Routes: the role check and body validation in front of a handler *)

Definition staff : list string := ["notary"; "assistant"].

Definition unprocessable {A} : M A :=
  raise (mkHTTPException 422 "Unprocessable Entity").

Definition post_clients (x_role : option string) (payload : Client.t)
  : M string :=
  require_role staff (get_role x_role) ;;; create_client payload.

Definition post_cases (x_role : option string) (b : Case.body) : M string :=
  require_role staff (get_role x_role) ;;;
  match Case.validate b with
  | Some payload => create_case payload
  | None => unprocessable
  end.

Definition patch_case_status (x_role : option string) (case_id status : string)
  : M bool :=
  require_role staff (get_role x_role) ;;; update_case_status case_id status.

Definition post_appointments_public (b : Appointment.body) : M string :=
  match Appointment.validate b with
  | Some payload => public_create_appointment payload
  | None => unprocessable
  end.

Definition get_appointments (x_role : option string) (day_arg : option string)
  : M (list (Document string Appointment.t)) :=
  role <- require_role staff (get_role x_role) ;;
  list_appointments day_arg role.

Definition get_dashboard (x_role : option string) : M Dashboard :=
  role <- require_role staff (get_role x_role) ;;
  dashboard role.

(** ** Chronological order and outcomes as propositions *)

Definition dt_lt (a b : datetime) : Prop := timestamp_us a < timestamp_us b.
Definition dt_le (a b : datetime) : Prop := timestamp_us a <= timestamp_us b.
Definition dt_same (a b : datetime) : Prop := timestamp_us a = timestamp_us b.

(** [a.start < b.end] and [a.end > b.start]. *)
Definition overlaps (a b : Appointment.t) : Prop :=
  dt_lt (Appointment.start_time a) (Appointment.end_time b) /\
  dt_lt (Appointment.start_time b) (Appointment.end_time a).

Definition starts_no_later (a b : Stored Appointment.t) : Prop :=
  dt_le (Appointment.start_time (fields a)) (Appointment.start_time (fields b)).

Definition created_no_earlier {I A} (a b : Document I A) : Prop :=
  dt_le (created_at b) (created_at a).

(** No stored client has the identifier written [cid]. *)
Definition no_client_named (cid : string) (db : Store) : Prop :=
  forall d, In d (client db) -> ObjectId_of_str cid <> Some (_id d).

Definition no_case_named (case_id : string) (db : Store) : Prop :=
  forall d, In d (case db) -> ObjectId_of_str case_id <> Some (_id d).

(** ** The store after a successful creation *)

(** The store after a case was created from [payload]: the case and,
    after it, its audit record. *)
Definition with_case (payload : Case.t) (now : datetime) (db : Store) : Store :=
  mkStore (client db)
    (case db ++ [mkDocument (next_oid db) payload now now])
    (appointment db)
    (auditlog db ++
       [mkDocument (next_oid db + 1)
          (AuditLog.make "assistant" "create" "case"
             (ObjectId_str (next_oid db))) now now])
    (next_oid db + 1 + 1).

Definition with_appointment (payload : Appointment.t) (now : datetime)
    (db : Store) : Store :=
  mkStore (client db) (case db)
    (appointment db ++ [mkDocument (next_oid db) payload now now])
    (auditlog db ++
       [mkDocument (next_oid db + 1)
          (AuditLog.make "client" "book" "appointment"
             (ObjectId_str (next_oid db))) now now])
    (next_oid db + 1 + 1).

(** The [n] integers from [lo] on. *)
Definition Zrange (lo : Z) (n : nat) : list Z :=
  map (fun i => lo + Z.of_nat i) (seq 0 n).

(** ** Sample data *)

Module Sample.
(** A time of day on 2024-05-17. *)
Definition at_ (h mi : Z) : datetime := mkDatetime 2024 5 17 h mi 0 0.
Definition clock : datetime := at_ 8 15.

Definition slot (s e : datetime) (st : string) : Appointment.t :=
  Appointment.mk None "Signature" s e None None st None.

Definition ada : Client.t :=
  Client.mk "Ada" "Byron" "ada@example.com" None None None None None.

(** One client, whose identifier is 24 zeros. *)
Definition one_client : Store := snd (create_client ada clock empty_store).
Definition ada_id : string := "000000000000000000000000".

Definition deed (cid status : string) : Case.t :=
  Case.mk cid "Deed of sale" "Deed" status None None None.

Definition deed_body (cid : string) (status : option string) : Case.body :=
  Case.mkBody (Some cid) (Some "Deed of sale") (Some "Deed") status
              None None None.

Definition slot_body (s e : datetime) (status : option string)
  : Appointment.body :=
  Appointment.mkBody None (Some "Signature") (Some s) (Some e) None None
                     status None.

(** One appointment 09:00-10:00, booked as already cancelled. *)
Definition one_cancelled : Store :=
  snd (public_create_appointment (slot (at_ 9 0) (at_ 10 0) "Cancelled")
         clock empty_store).

(** Four appointments on three days, booked out of order:
    05-17 14:00, 05-16 23:00, 05-18 00:00 and 05-17 09:00. *)
Definition three_days : Store :=
  let book p db := snd (public_create_appointment p clock db) in
  book (slot (at_ 9 0) (at_ 10 0) "Scheduled")
    (book (slot (mkDatetime 2024 5 18 0 0 0 0)
                (mkDatetime 2024 5 18 0 30 0 0) "Scheduled")
      (book (slot (mkDatetime 2024 5 16 23 0 0 0)
                  (mkDatetime 2024 5 16 23 30 0 0) "Scheduled")
        (book (slot (at_ 14 0) (at_ 15 0) "Scheduled") empty_store))).

(** One client and three cases: New, Completed and Archived. *)
Definition office : Store :=
  let file p db := snd (create_case p clock db) in
  file (deed ada_id "Archived")
    (file (deed ada_id "Completed")
      (file (deed ada_id "New") one_client)).
End Sample.

(* ------------------------------------------------------------------ *)
(** ** Listing cases *)

(** [cursor.limit(n)]: a limit of 0 is no limit, and a negative limit
    counts like its absolute value. *)
Definition limit_ {X} (n : Z) (l : list X) : list X :=
  if n =? 0 then l else firstn (Z.to_nat (Z.abs n)) l.

(** [{"status": status} if status else {}]. *)
Definition status_filter (status : option string) (d : Stored Case.t) : bool :=
  match status with
  | Some s => if truthy s then String.eqb (Case.status (fields d)) s else true
  | None => true
  end.

Definition list_cases (status : option string) (limit : Z) (role : string)
  : M (list (Document string Case.t)) :=
  found <- find_all case_ (status_filter status) ;;
  let items := limit_ limit found in
  ret (map stringify_id items).

(** [limit: int = 100]. *)
Definition get_cases (x_role : option string) (status : option string)
    (limit : option Z) : M (list (Document string Case.t)) :=
  role <- require_role staff (get_role x_role) ;;
  list_cases status (match limit with Some n => n | None => 100 end) role.

(* ------------------------------------------------------------------ *)
(** ** Documents and templates *)

Module DocumentRecord.
(** The [Document] model of [schemas.py]. *)
Record t : Type := mk {
  case_id : string;
  name : string;
  template_key : option string;
  content : option string;
  file_url : option string;
  ocr_text : option string;
  tags : option (list string)
}.
End DocumentRecord.

(** Modelled from the spec: the Entity Store with, beside the collections
    of [Store], the ["document"] collection. *)
Record Archive : Type := mkArchive {
  base : Store;
  document : list (Stored DocumentRecord.t)
}.

Definition empty_archive : Archive := mkArchive empty_store [].

Definition MA (A : Type) : Type := datetime -> Archive -> result A * Archive.

Definition retA {A} (a : A) : MA A := fun _ ar => (inr a, ar).
Definition raiseA {A} (e : HTTPException) : MA A := fun _ ar => (inl e, ar).
Definition bindA {A B} (m : MA A) (k : A -> MA B) : MA B :=
  fun now ar =>
    match m now ar with
    | (inr a, ar') => k a now ar'
    | (inl e, ar') => (inl e, ar')
    end.

Notation "x <~ m ;; k" := (bindA m (fun x => k))
  (at level 61, m at next level, right associativity).

(** A computation on the collections of [Store], run inside the archive. *)
Definition on_base {A} (m : M A) : MA A :=
  fun now ar =>
    let '(r, s) := m now (base ar) in (r, mkArchive s (document ar)).

(** Modelled from the spec: [database.create_document] on the ["document"]
    collection; as [create_document], with the record stored as given
    under the next identifier of the store. *)
Definition create_document_document (data : DocumentRecord.t) : MA string :=
  fun now ar =>
    let s := base ar in
    let new := next_oid s in
    (inr (ObjectId_str new),
     mkArchive
       (mkStore (client s) (case s) (appointment s) (auditlog s) (new + 1))
       (document ar ++ [mkDocument new data now now])).

Definition create_document_record (payload : DocumentRecord.t) : MA string :=
  new_id <~ create_document_document payload ;;
  _ <~ on_base (create_document auditlog_
                  (AuditLog.make "assistant" "create" "document" new_id)) ;;
  retA new_id.

Definition nl : string := String (ascii_of_nat 10) "".

Record Template : Type := mkTemplate {
  tpl_name : string;
  tpl_content : string
}.

(** The template dictionary, in the order of its keys; the contents are
    the stripped literals. *)
Definition DEFAULT_TEMPLATES : list (string * Template) :=
  [ ("power_of_attorney",
     mkTemplate "Power of Attorney"
       ("POWER OF ATTORNEY" ++ nl ++ nl ++
        "        Principal: {{client_first_name}} {{client_last_name}}" ++ nl ++
        "        Address: {{client_address}}" ++ nl ++
        "        Date: {{date}}" ++ nl ++
        "        Case: {{case_title}}" ++ nl ++ nl ++
        "        I hereby appoint ... (sample content)")%string);
    ("affidavit",
     mkTemplate "Affidavit"
       ("AFFIDAVIT" ++ nl ++ nl ++
        "        Affiant: {{client_first_name}} {{client_last_name}}" ++ nl ++
        "        Statement: ... (sample content)" ++ nl ++
        "        Date: {{date}}")%string) ].

(** [DEFAULT_TEMPLATES.get(key)]. *)
Fixpoint templates_get (key : string) (l : list (string * Template))
  : option Template :=
  match l with
  | [] => None
  | (k, v) :: r => if String.eqb k key then Some v else templates_get key r
  end.

(** [[{"key": k, **v} for k, v in DEFAULT_TEMPLATES.items()]]. *)
Definition list_templates : list (string * string * string) :=
  map (fun '(k, v) => (k, tpl_name v, tpl_content v)) DEFAULT_TEMPLATES.

(** [s.replace(old, new)] for a non-empty [old]: the occurrences of [old]
    are replaced from left to right, an occurrence starting only after
    the end of the one before it.  [skip] counts the characters of a
    replaced occurrence still to pass over. *)
Fixpoint replace_skip (skip : nat) (old new s : string) : string :=
  match s with
  | EmptyString => EmptyString
  | String c r =>
      match skip with
      | S k => replace_skip k old new r
      | O =>
          if String.prefix old s
          then (new ++ replace_skip (String.length old - 1) old new r)%string
          else String c (replace_skip 0 old new r)
      end
  end.

Definition str_replace (old new s : string) : string :=
  replace_skip 0 old new s.

(** [str(v or "")] for a value that is a string or [None]. *)
Definition str_or_empty (v : option string) : string :=
  match v with Some s => s | None => "" end.

(** The local function [subst] of [render_template]: the variables are
    substituted one after the other, in the order of the dictionary. *)
Fixpoint subst (text : string) (vars : list (string * option string))
  : string :=
  match vars with
  | [] => text
  | (k, v) :: rest =>
      subst (str_replace ("{{" ++ k ++ "}}") (str_or_empty v) text) rest
  end.

(** The dictionary [vars] of [render_template]. *)
Definition template_vars (client_doc : option (Stored Client.t))
    (case_doc : Stored Case.t) (now : datetime)
  : list (string * option string) :=
  [ ("client_first_name",
     match client_doc with
     | Some c => Some (Client.first_name (fields c))
     | None => Some ""
     end);
    ("client_last_name",
     match client_doc with
     | Some c => Some (Client.last_name (fields c))
     | None => Some ""
     end);
    ("client_address",
     match client_doc with
     | Some c => Client.address (fields c)
     | None => Some ""
     end);
    ("case_title", Some (Case.title (fields case_doc)));
    ("date", Some (strftime_Ymd now)) ].

Record Rendered : Type := mkRendered {
  document_id : string;
  rendered_content : string
}.

Definition render_template (template_key case_id : string) : MA Rendered :=
  match templates_get template_key DEFAULT_TEMPLATES with
  | None => raiseA (mkHTTPException 404 "Template not found")
  | Some tpl =>
      o <~ on_base (oid case_id) ;;
      found <~ on_base (find_one case_ (has_id o)) ;;
      match found with
      | None => raiseA (mkHTTPException 404 "Case not found")
      | Some case_doc =>
          client_doc <~
            (if truthy (Case.client_id (fields case_doc)) then
               o' <~ on_base (oid (Case.client_id (fields case_doc))) ;;
               on_base (find_one client_ (has_id o'))
             else retA None) ;;
          now <~ on_base utcnow ;;
          let content :=
            subst (tpl_content tpl) (template_vars client_doc case_doc now) in
          doc_id <~ create_document_document
                      (DocumentRecord.mk case_id (tpl_name tpl)
                         (Some template_key) (Some content) None None
                         (Some [])) ;;
          retA (mkRendered doc_id content)
      end
  end.

(** Routes of the documents and templates. *)
Definition post_documents (x_role : option string)
    (payload : DocumentRecord.t) : MA string :=
  _ <~ on_base (require_role staff (get_role x_role)) ;;
  create_document_record payload.

Definition post_templates_render (x_role : option string)
    (template_key case_id : string) : MA Rendered :=
  _ <~ on_base (require_role staff (get_role x_role)) ;;
  render_template template_key case_id.

(* ------------------------------------------------------------------ *)
(** ** The application: requests served one after the other *)

(** The requests that read or write the client, case, appointment, audit
    and document collections. *)
Inductive request : Type :=
| POST_clients (x_role : option string) (payload : Client.t)
| POST_cases (x_role : option string) (b : Case.body)
| GET_cases (x_role : option string) (status : option string)
    (limit : option Z)
| PATCH_cases_status (x_role : option string) (case_id status : string)
| POST_appointments_public (b : Appointment.body)
| GET_appointments (x_role : option string) (day_arg : option string)
| POST_documents (x_role : option string) (payload : DocumentRecord.t)
| POST_templates_render (x_role : option string)
    (template_key case_id : string)
| GET_dashboard (x_role : option string).

(** The outcome of a computation, its answer forgotten. *)
Definition outcome {A} (r : result A * Archive) : result unit * Archive :=
  match r with
  | (inr _, ar) => (inr tt, ar)
  | (inl e, ar) => (inl e, ar)
  end.

Definition serve (r : request) (now : datetime) (ar : Archive)
  : result unit * Archive :=
  match r with
  | POST_clients x p => outcome (on_base (post_clients x p) now ar)
  | POST_cases x b => outcome (on_base (post_cases x b) now ar)
  | GET_cases x s l => outcome (on_base (get_cases x s l) now ar)
  | PATCH_cases_status x i s =>
      outcome (on_base (patch_case_status x i s) now ar)
  | POST_appointments_public b =>
      outcome (on_base (post_appointments_public b) now ar)
  | GET_appointments x d => outcome (on_base (get_appointments x d) now ar)
  | POST_documents x p => outcome (post_documents x p now ar)
  | POST_templates_render x k i =>
      outcome (post_templates_render x k i now ar)
  | GET_dashboard x => outcome (on_base (get_dashboard x) now ar)
  end.

(** Serving a list of requests, each at its own instant. *)
Fixpoint run (rs : list (request * datetime)) (ar : Archive) : Archive :=
  match rs with
  | [] => ar
  | (r, now) :: rest => run rest (snd (serve r now ar))
  end.

(* ------------------------------------------------------------------ *)
(** ** Invariants of the archive *)

(** The [X-Role] header of a request to a staff route; the public booking
    route takes none. *)
Definition staff_header (r : request) : option (option string) :=
  match r with
  | POST_clients x _ | POST_cases x _ | GET_cases x _ _
  | PATCH_cases_status x _ _ | GET_appointments x _ | POST_documents x _
  | POST_templates_render x _ _ | GET_dashboard x => Some x
  | POST_appointments_public _ => None
  end.

(** Every stored case and appointment carries a status of its enum. *)
Definition statuses_ok (s : Store) : Prop :=
  (forall d, In d (case s) -> In (Case.status (fields d)) CaseStatus) /\
  (forall d, In d (appointment s) ->
             In (Appointment.status (fields d)) AppointmentStatus).

(** No appointment of the list overlaps a later one. *)
Fixpoint pairwise_free (l : list (Stored Appointment.t)) : Prop :=
  match l with
  | [] => True
  | d :: r =>
      (forall e, In e r -> ~ overlaps (fields d) (fields e)) /\ pairwise_free r
  end.

(** Every stored appointment ends after it starts, and no two overlap. *)
Definition calendar_ok (s : Store) : Prop :=
  (forall d, In d (appointment s) ->
             dt_lt (Appointment.start_time (fields d))
                   (Appointment.end_time (fields d))) /\
  pairwise_free (appointment s).

(** Every case that names a client names a stored one. *)
Definition clients_exist (s : Store) : Prop :=
  forall d, In d (case s) -> Case.client_id (fields d) <> "" ->
  exists c, In c (client s) /\
            ObjectId_of_str (Case.client_id (fields d)) = Some (_id c).

(** The identifiers in use are those handed out so far. *)
Definition ids_ok (ar : Archive) : Prop :=
  0 <= next_oid (base ar) /\
  (forall d, In d (client (base ar)) -> 0 <= _id d < next_oid (base ar)) /\
  (forall d, In d (case (base ar)) -> 0 <= _id d < next_oid (base ar)) /\
  (forall d, In d (appointment (base ar)) -> 0 <= _id d < next_oid (base ar)) /\
  (forall d, In d (auditlog (base ar)) -> 0 <= _id d < next_oid (base ar)) /\
  (forall d, In d (document ar) -> 0 <= _id d < next_oid (base ar)).

(** The store after a client was created from [payload]. *)
Definition with_client (payload : Client.t) (now : datetime) (db : Store)
  : Store :=
  mkStore (client db ++ [mkDocument (next_oid db) payload now now])
    (case db) (appointment db)
    (auditlog db ++
       [mkDocument (next_oid db + 1)
          (AuditLog.make "assistant" "create" "client"
             (ObjectId_str (next_oid db))) now now])
    (next_oid db + 1 + 1).

(** What [update_case_status] writes on the case it matches. *)
Definition restatus (status : string) (now : datetime) (d : Stored Case.t)
  : Stored Case.t :=
  mkDocument (_id d) (Case.set_status status (fields d)) (created_at d) now.

(** The audit record of a status update. *)
Definition status_audit (case_id status : string) : AuditLog.t :=
  AuditLog.mk "assistant" None "update_status" "case" (Some case_id)
              (Some [("status", status)]).

(** The changes a served request can make to the archive. *)
Inductive step (ar : Archive) : Archive -> Prop :=
| step_none : step ar ar
| step_client payload now :
    step ar (mkArchive (with_client payload now (base ar)) (document ar))
| step_case payload now :
    In (Case.status payload) CaseStatus ->
    (Case.client_id payload <> "" ->
     exists c, In c (client (base ar)) /\
               ObjectId_of_str (Case.client_id payload) = Some (_id c)) ->
    step ar (mkArchive (with_case payload now (base ar)) (document ar))
| step_status o case_id status now :
    In status CaseStatus ->
    fst (update_first (has_id o) (restatus status now) (case (base ar))) <> 0 ->
    step ar
      (mkArchive
         (mkStore (client (base ar))
            (snd (update_first (has_id o) (restatus status now)
                    (case (base ar))))
            (appointment (base ar))
            (auditlog (base ar) ++
               [mkDocument (next_oid (base ar))
                  (status_audit case_id status) now now])
            (next_oid (base ar) + 1))
         (document ar))
| step_appointment payload now :
    In (Appointment.status payload) AppointmentStatus ->
    dt_lt (Appointment.start_time payload) (Appointment.end_time payload) ->
    (forall d, In d (appointment (base ar)) ->
               ~ overlaps (fields d) payload) ->
    step ar (mkArchive (with_appointment payload now (base ar)) (document ar))
| step_document data now :
    step ar
      (mkArchive
         (mkStore (client (base ar)) (case (base ar)) (appointment (base ar))
            (auditlog (base ar) ++
               [mkDocument (next_oid (base ar) + 1)
                  (AuditLog.make "assistant" "create" "document"
                     (ObjectId_str (next_oid (base ar)))) now now])
            (next_oid (base ar) + 1 + 1))
         (document ar ++ [mkDocument (next_oid (base ar)) data now now]))
| step_render data now :
    step ar
      (mkArchive
         (mkStore (client (base ar)) (case (base ar)) (appointment (base ar))
            (auditlog (base ar)) (next_oid (base ar) + 1))
         (document ar ++ [mkDocument (next_oid (base ar)) data now now])).

(** Status updates of one case, one after the other, each at its own
    instant. *)
Fixpoint update_all (case_id : string) (us : list (string * datetime))
    (db : Store) : Store :=
  match us with
  | [] => db
  | (status, now) :: rest =>
      update_all case_id rest (snd (update_case_status case_id status now db))
  end.

(** The statuses of [us] that belong to the enum. *)
Definition accepted (us : list (string * datetime)) : list string :=
  List.filter (fun s => in_literal s CaseStatus) (map fst us).

Definition is_archived (d : Stored Case.t) : bool :=
  String.eqb (Case.status (fields d)) "Archived".

(** The routes that write an audit record when they succeed: every
    writing route but the rendering of a template. *)
Definition audited (r : request) : bool :=
  match r with
  | POST_clients _ _ | POST_cases _ _ | PATCH_cases_status _ _ _
  | POST_appointments_public _ | POST_documents _ _ => true
  | GET_cases _ _ _ | GET_appointments _ _ | POST_templates_render _ _ _
  | GET_dashboard _ => false
  end.

(** Whether a result is an answer rather than an exception. *)
Definition ok {A} (r : result A) : bool :=
  match r with inr _ => true | inl _ => false end.

(** The number of audited requests of [rs] that are answered when [rs] is
    served from [ar]. *)
Fixpoint audited_answers (rs : list (request * datetime)) (ar : Archive)
  : nat :=
  match rs with
  | [] => 0
  | (r, now) :: rest =>
      ((if audited r && ok (fst (serve r now ar)) then 1 else 0)
       + audited_answers rest (snd (serve r now ar)))%nat
  end.

Module Sample2.
(** The archive after a client and a case of that client were created. *)
Definition client_and_case : Archive :=
  run [ (POST_clients (Some "assistant") Sample.ada, Sample.clock);
        (POST_cases (Some "notary") (Sample.deed_body Sample.ada_id None),
         Sample.clock) ] empty_archive.

Definition deed_id : string := "000000000000000000000002".

Definition later : datetime := Sample.at_ 16 45.

Definition scan : DocumentRecord.t :=
  DocumentRecord.mk "no-such-case" "Scan" None None None None (Some []).

(** A morning of requests, some of them refused. *)
Definition morning : list (request * datetime) :=
  [ (POST_clients (Some "assistant") Sample.ada, Sample.at_ 8 0);
    (POST_cases (Some "notary") (Sample.deed_body Sample.ada_id None),
     Sample.at_ 8 5);
    (POST_cases None (Sample.deed_body Sample.ada_id None), Sample.at_ 8 6);
    (POST_appointments_public
       (Sample.slot_body (Sample.at_ 9 0) (Sample.at_ 10 0) None),
     Sample.at_ 8 10);
    (POST_appointments_public
       (Sample.slot_body (Sample.at_ 9 30) (Sample.at_ 10 30) None),
     Sample.at_ 8 11);
    (PATCH_cases_status (Some "assistant") deed_id "Archived", Sample.at_ 8 20);
    (POST_templates_render (Some "notary") "affidavit" deed_id,
     Sample.at_ 8 30);
    (POST_documents (Some "notary") scan, Sample.at_ 8 40);
    (GET_dashboard (Some "notary"), Sample.at_ 8 50) ].
End Sample2.

(* ------------------------------------------------------------------ *)
(** * Properties *)

(** ** Chronological order *)

Lemma dt_ltb_lt a b : dt_ltb a b = true <-> dt_lt a b.
Proof. unfold dt_ltb, dt_lt. apply Z.ltb_lt. Qed.

Lemma dt_leb_le a b : dt_leb a b = true <-> dt_le a b.
Proof. unfold dt_leb, dt_le. apply Z.leb_le. Qed.

Lemma dt_leb_false a b : dt_leb a b = false <-> dt_lt b a.
Proof. unfold dt_leb, dt_lt. rewrite Z.leb_gt. reflexivity. Qed.

(** ** Outcomes *)

Lemma succeeds_inr {A} (a : A) db : succeeds (inr a, db).
Proof. exists a. reflexivity. Qed.

Lemma fails_with_inl {A} code msg db :
  @fails_with A code (inl (mkHTTPException code msg), db).
Proof. eexists. split; reflexivity. Qed.

Lemma fails_not_succeeds {A} code (r : result A * Store) :
  fails_with code r -> ~ succeeds r.
Proof. intros [e [He _]] [a Ha]. congruence. Qed.

Lemma fails_with_code {A} c1 c2 (r : result A * Store) :
  fails_with c1 r -> fails_with c2 r -> c1 = c2.
Proof. intros [e [He Hc]] [e' [He' Hc']]. congruence. Qed.

Create HintDb outcome.
#[local] Hint Resolve succeeds_inr fails_with_inl : outcome.

(** ** Searching and updating a collection *)

Lemma truthy_true s : truthy s = true <-> s <> "".
Proof.
  unfold truthy. destruct (String.eqb_spec s ""); simpl.
  - split; [discriminate|]. intros H. destruct (H e).
  - split; [intros _; exact n|reflexivity].
Qed.

Lemma in_literal_In s lit : in_literal s lit = true <-> In s lit.
Proof.
  unfold in_literal. rewrite existsb_exists. split.
  - intros [x [Hx Hs]]. apply String.eqb_eq in Hs. subst. exact Hx.
  - intros H. exists s. split; [exact H|apply String.eqb_refl].
Qed.


Lemma find_none_iff {X} (p : X -> bool) l :
  List.find p l = None <-> forall x, In x l -> p x = false.
Proof.
  split.
  - apply find_none.
  - induction l as [|y r IH]; simpl; intros H; [reflexivity|].
    rewrite (H y (or_introl eq_refl)). apply IH.
    intros x Hx. apply H. right. exact Hx.
Qed.

Lemma update_first_none {X} (p : X -> bool) f l :
  (forall x, In x l -> p x = false) -> update_first p f l = (0, l).
Proof.
  induction l as [|y r IH]; simpl; intros H; [reflexivity|].
  rewrite (H y (or_introl eq_refl)).
  rewrite IH; [reflexivity|]. intros x Hx. apply H. right. exact Hx.
Qed.

Lemma update_first_zero {X} (p : X -> bool) f l :
  fst (update_first p f l) = 0 -> update_first p f l = (0, l).
Proof.
  induction l as [|y r IH]; simpl; [reflexivity|].
  destruct (p y); simpl; [discriminate|].
  destruct (update_first p f r) as [n r']. simpl in *.
  intros ->. specialize (IH eq_refl). congruence.
Qed.

(** ** What each handler does to the store *)

Lemma create_case_eq payload now db :
  create_case payload now db =
  if truthy (Case.client_id payload) then
    match ObjectId_of_str (Case.client_id payload) with
    | None =>
        (inl (mkHTTPException 400 "Invalid id or bson not available"), db)
    | Some o =>
        match List.find (has_id o) (client db) with
        | None => (inl (mkHTTPException 404 "Client not found"), db)
        | Some _ => (inr (ObjectId_str (next_oid db)), with_case payload now db)
        end
    end
  else (inr (ObjectId_str (next_oid db)), with_case payload now db).
Proof.
  unfold create_case, oid, bind.
  destruct (truthy (Case.client_id payload)); [|reflexivity].
  destruct (ObjectId_of_str (Case.client_id payload)) as [o|]; [|reflexivity].
  unfold find_one, bind, get_db, ret; simpl.
  destruct (List.find (has_id o) (client db)); reflexivity.
Qed.

Lemma public_create_appointment_eq payload now db :
  public_create_appointment payload now db =
  if dt_leb (Appointment.end_time payload) (Appointment.start_time payload)
  then (inl (mkHTTPException 400 "Invalid time range"), db)
  else match List.find (conflicts_with payload) (appointment db) with
       | Some _ => (inl (mkHTTPException 409 "Time slot not available"), db)
       | None => (inr (ObjectId_str (next_oid db)),
                  with_appointment payload now db)
       end.
Proof.
  unfold public_create_appointment.
  destruct (dt_leb _ _); [reflexivity|].
  unfold find_one, bind, get_db, ret; simpl.
  destruct (List.find (conflicts_with payload) (appointment db)); reflexivity.
Qed.

Lemma update_case_status_eq case_id status now db :
  update_case_status case_id status now db =
  if negb (in_literal status CaseStatus)
  then (inl (mkHTTPException 400 "Invalid status"), db)
  else match ObjectId_of_str case_id with
       | None =>
           (inl (mkHTTPException 400 "Invalid id or bson not available"), db)
       | Some o =>
           let '(n, l) :=
             update_first (has_id o)
               (fun d => mkDocument (_id d) (Case.set_status status (fields d))
                                    (created_at d) now) (case db) in
           if n =? 0
           then (inl (mkHTTPException 404 "Case not found"),
                 coll_set case_ l db)
           else (inr true,
                 mkStore (client db) l (appointment db)
                   (auditlog db ++
                      [mkDocument (next_oid db)
                         (AuditLog.mk "assistant" None "update_status" "case"
                            (Some case_id) (Some [("status", status)]))
                         now now])
                   (next_oid db + 1))
       end.
Proof.
  unfold update_case_status, CaseStatus.
  destruct (negb _); [reflexivity|].
  unfold oid, bind.
  destruct (ObjectId_of_str case_id) as [o|]; [|reflexivity].
  unfold update_one, utcnow, bind, get_db, ret; simpl.
  destruct (update_first _ _ (case db)) as [n l]; simpl.
  destruct (n =? 0); reflexivity.
Qed.

Lemma create_case_success payload now db new_id db' :
  create_case payload now db = (inr new_id, db') ->
  new_id = ObjectId_str (next_oid db) /\ db' = with_case payload now db.
Proof.
  rewrite create_case_eq.
  destruct (truthy _).
  - destruct (ObjectId_of_str _) as [o|]; [|discriminate].
    destruct (List.find _ _); [|discriminate].
    intros E. inversion E. split; reflexivity.
  - intros E. inversion E. split; reflexivity.
Qed.

Lemma require_role_inv allowed role now db :
  require_role allowed role now db =
  if in_literal role allowed then (inr role, db)
  else (inl (mkHTTPException 403 "Forbidden for role"), db).
Proof. unfold require_role. destruct (in_literal role allowed); reflexivity. Qed.

Lemma post_cases_inv x_role b now db new_id db' :
  post_cases x_role b now db = (inr new_id, db') ->
  in_literal (get_role x_role) staff = true /\
  exists payload,
    Case.validate b = Some payload /\
    create_case payload now db = (inr new_id, db').
Proof.
  unfold post_cases, bind. rewrite require_role_inv.
  destruct (in_literal (get_role x_role) staff); [|discriminate].
  destruct (Case.validate b) as [payload|]; [|discriminate].
  intros E. split; [reflexivity|]. exists payload. split; [reflexivity|exact E].
Qed.

Lemma Case_validate_status b payload :
  Case.validate b = Some payload ->
  Case.status payload =
    match Case.b_status b with Some s => s | None => "New" end
  /\ In (Case.status payload) CaseStatus.
Proof.
  unfold Case.validate.
  destruct (Case.b_client_id b); [|discriminate].
  destruct (Case.b_title b); [|discriminate].
  destruct (Case.b_type b); [|discriminate].
  destruct (in_literal _ CaseStatus) eqn:E; [|discriminate].
  intros H. inversion H; subst; simpl. split; [reflexivity|].
  unfold in_literal in E. apply existsb_exists in E.
  destruct E as [x [Hx Hs]]. apply String.eqb_eq in Hs. subst. exact Hx.
Qed.

Lemma post_appointments_public_inv b now db new_id db' :
  post_appointments_public b now db = (inr new_id, db') ->
  exists payload,
    Appointment.validate b = Some payload /\
    public_create_appointment payload now db = (inr new_id, db').
Proof.
  unfold post_appointments_public.
  destruct (Appointment.validate b) as [payload|]; [|discriminate].
  intros E. exists payload. split; [reflexivity|exact E].
Qed.

Lemma Appointment_validate_status b payload :
  Appointment.validate b = Some payload ->
  Appointment.status payload =
    match Appointment.b_status b with Some s => s | None => "Scheduled" end
  /\ In (Appointment.status payload) AppointmentStatus.
Proof.
  unfold Appointment.validate.
  destruct (Appointment.b_service b); [|discriminate].
  destruct (Appointment.b_start_time b); [|discriminate].
  destruct (Appointment.b_end_time b); [|discriminate].
  destruct (valid_datetime _ && valid_datetime _ && in_literal _ _) eqn:E;
    [|discriminate].
  intros H. inversion H; subst; simpl. split; [reflexivity|].
  apply andb_prop in E. destruct E as [_ E].
  unfold in_literal in E. apply existsb_exists in E.
  destruct E as [x [Hx Hs]]. apply String.eqb_eq in Hs. subst. exact Hx.
Qed.

(** ** Booking and overlap *)

Lemma conflicts_with_overlaps payload d :
  conflicts_with payload d = true <-> overlaps (fields d) payload.
Proof.
  unfold conflicts_with, overlaps.
  rewrite andb_true_iff, !dt_ltb_lt. reflexivity.
Qed.

Lemma conflicts_with_false payload d :
  conflicts_with payload d = false <-> ~ overlaps (fields d) payload.
Proof.
  rewrite <- conflicts_with_overlaps. destruct (conflicts_with payload d).
  - split; [discriminate|]. intros H. exfalso. apply H. reflexivity.
  - split; [discriminate|reflexivity].
Qed.

Lemma overlaps_sym a b : overlaps a b <-> overlaps b a.
Proof. unfold overlaps. tauto. Qed.

Lemma book_conflict payload now db :
  dt_lt (Appointment.start_time payload) (Appointment.end_time payload) ->
  (exists d, In d (appointment db) /\ overlaps (fields d) payload) ->
  public_create_appointment payload now db =
    (inl (mkHTTPException 409 "Time slot not available"), db).
Proof.
  intros Hv [d [Hin Hov]]. rewrite public_create_appointment_eq.
  apply dt_leb_false in Hv. rewrite Hv.
  destruct (List.find _ _) eqn:E; [reflexivity|].
  apply conflicts_with_overlaps in Hov.
  rewrite (find_none _ _ E d Hin) in Hov. discriminate.
Qed.

Lemma book_free payload now db :
  dt_lt (Appointment.start_time payload) (Appointment.end_time payload) ->
  (forall d, In d (appointment db) -> ~ overlaps (fields d) payload) ->
  public_create_appointment payload now db =
    (inr (ObjectId_str (next_oid db)), with_appointment payload now db).
Proof.
  intros Hv Hfree. rewrite public_create_appointment_eq.
  apply dt_leb_false in Hv. rewrite Hv.
  destruct (List.find _ _) eqn:E; [|reflexivity].
  apply find_some in E. destruct E as [Hin Hc].
  apply conflicts_with_overlaps in Hc. destruct (Hfree _ Hin Hc).
Qed.

Lemma book_success payload now db new_id db' :
  public_create_appointment payload now db = (inr new_id, db') ->
  new_id = ObjectId_str (next_oid db) /\
  db' = with_appointment payload now db.
Proof.
  rewrite public_create_appointment_eq.
  destruct (dt_leb _ _); [discriminate|].
  destruct (List.find _ _); [discriminate|].
  intros E. inversion E. split; reflexivity.
Qed.

(** Booking [q] right after [p] was booked in a store free for both. *)
Lemma book_after p q now1 now2 db :
  dt_lt (Appointment.start_time q) (Appointment.end_time q) ->
  (forall d, In d (appointment db) -> ~ overlaps (fields d) q) ->
  (overlaps p q ->
     ConflictError
       (public_create_appointment q now2 (with_appointment p now1 db)))
  /\ (~ overlaps p q ->
     succeeds (public_create_appointment q now2 (with_appointment p now1 db))).
Proof.
  intros Hq Hfree. split; intros H.
  - rewrite book_conflict; auto with outcome.
    + apply fails_with_inl.
    + exists (mkDocument (next_oid db) p now1 now1). split; [|exact H].
      simpl. apply in_or_app. right. left. reflexivity.
  - rewrite book_free; auto with outcome.
    simpl. intros d Hd. apply in_app_or in Hd. destruct Hd as [Hd|[<-|[]]].
    + apply Hfree, Hd.
    + exact H.
Qed.


(* ------------------------------------------------------------------ *)
(** * The claims *)

(** C1, as stated, fails: a request overlapping nothing but a cancelled
    appointment is refused with a conflict. *)
Lemma cancelled_appointment_blocks_example :
  let req := Sample.slot (Sample.at_ 9 30) (Sample.at_ 10 30) "Scheduled" in
  let r := public_create_appointment req Sample.clock Sample.one_cancelled in
  dt_lt (Appointment.start_time req) (Appointment.end_time req) /\
  (forall d, In d (appointment Sample.one_cancelled) ->
             overlaps (fields d) req ->
             Appointment.status (fields d) = "Cancelled") /\
  ConflictError r /\ ~ succeeds r.
Proof.
  cbv zeta. split; [reflexivity|]. split.
  - intros d [<-|[]] _. reflexivity.
  - assert (E : public_create_appointment
                  (Sample.slot (Sample.at_ 9 30) (Sample.at_ 10 30) "Scheduled")
                  Sample.clock Sample.one_cancelled
                = (inl (mkHTTPException 409 "Time slot not available"),
                   Sample.one_cancelled)) by (vm_compute; reflexivity).
    rewrite E. split.
    + apply fails_with_inl.
    + apply (fails_not_succeeds 409). apply fails_with_inl.
Qed.

(** C1 (amended): the conflict scan does not look at the status.  A valid
    booking request whose interval overlaps an existing appointment in
    Cancelled state fails with ConflictError and leaves the store as it
    was. *)
Theorem conflict_scan_includes_cancelled :
  forall (payload : Appointment.t) (now : datetime) (db : Store)
         (d : Stored Appointment.t),
    dt_lt (Appointment.start_time payload) (Appointment.end_time payload) ->
    In d (appointment db) ->
    Appointment.status (fields d) = "Cancelled" ->
    overlaps (fields d) payload ->
    ConflictError (public_create_appointment payload now db) /\
    snd (public_create_appointment payload now db) = db.
Proof.
  intros payload now db d Hv Hin _ Hov.
  rewrite (book_conflict payload now db Hv).
  - split; [apply fails_with_inl|reflexivity].
  - exists d. split; assumption.
Qed.

Lemma conflict_scan_includes_cancelled_witness :
  let req := Sample.slot (Sample.at_ 9 30) (Sample.at_ 10 30) "Scheduled" in
  ConflictError
    (public_create_appointment req Sample.clock Sample.one_cancelled) /\
  snd (public_create_appointment req Sample.clock Sample.one_cancelled)
  = Sample.one_cancelled.
Proof.
  cbv zeta.
  apply (conflict_scan_includes_cancelled _ Sample.clock Sample.one_cancelled
           (mkDocument 0 (Sample.slot (Sample.at_ 9 0) (Sample.at_ 10 0)
                            "Cancelled") Sample.clock Sample.clock)).
  - reflexivity.
  - left. reflexivity.
  - reflexivity.
  - split; reflexivity.
Defined.

(** C2: a request with [end_time > start_time] fails with ConflictError
    exactly when some stored appointment overlaps it
    ([existing.start < new.end] and [existing.end > new.start]), and
    succeeds otherwise.  Hence, in a store where neither of two valid
    requests meets an existing appointment: if one ends when the other
    starts, booking one after the other succeeds twice, in either order;
    if they overlap, the first booking succeeds and the second fails with
    ConflictError, in either order. *)
Theorem booking_conflict_iff_overlap :
  forall (db : Store) (a b : Appointment.t) (now1 now2 : datetime),
    dt_lt (Appointment.start_time a) (Appointment.end_time a) ->
    dt_lt (Appointment.start_time b) (Appointment.end_time b) ->
    (ConflictError (public_create_appointment a now1 db) <->
     exists d, In d (appointment db) /\ overlaps (fields d) a)
    /\ (~ ConflictError (public_create_appointment a now1 db) ->
        succeeds (public_create_appointment a now1 db))
    /\ ((forall d, In d (appointment db) ->
                   ~ overlaps (fields d) a /\ ~ overlaps (fields d) b) ->
        (dt_same (Appointment.end_time a) (Appointment.start_time b) ->
           succeeds (public_create_appointment a now1 db) /\
           succeeds (public_create_appointment b now2
                       (snd (public_create_appointment a now1 db))) /\
           succeeds (public_create_appointment b now1 db) /\
           succeeds (public_create_appointment a now2
                       (snd (public_create_appointment b now1 db))))
        /\
        (overlaps a b ->
           succeeds (public_create_appointment a now1 db) /\
           ConflictError (public_create_appointment b now2
                            (snd (public_create_appointment a now1 db))) /\
           succeeds (public_create_appointment b now1 db) /\
           ConflictError (public_create_appointment a now2
                            (snd (public_create_appointment b now1 db))))).
Proof.
  intros db a b now1 now2 Ha Hb.
  assert (Hdec : (exists d, In d (appointment db) /\ overlaps (fields d) a)
                 \/ forall d, In d (appointment db) -> ~ overlaps (fields d) a).
  { destruct (List.find (conflicts_with a) (appointment db)) as [d|] eqn:E.
    - left. exists d. apply find_some in E. destruct E as [Hin Hc].
      split; [exact Hin|]. apply conflicts_with_overlaps, Hc.
    - right. intros d Hin. apply conflicts_with_false.
      apply (find_none _ _ E d Hin). }
  split; [|split].
  - split.
    + intros Hc. destruct Hdec as [Hex|Hfree]; [exact Hex|].
      rewrite (book_free a now1 db Ha Hfree) in Hc.
      destruct Hc as [e [He _]]. discriminate.
    + intros Hex. rewrite (book_conflict a now1 db Ha Hex).
      apply fails_with_inl.
  - intros Hn. destruct Hdec as [Hex|Hfree].
    + exfalso. apply Hn. rewrite (book_conflict a now1 db Ha Hex).
      apply fails_with_inl.
    + rewrite (book_free a now1 db Ha Hfree). apply succeeds_inr.
  - intros Hfree.
    assert (Fa : forall d, In d (appointment db) -> ~ overlaps (fields d) a)
      by (intros d Hd; apply (Hfree d Hd)).
    assert (Fb : forall d, In d (appointment db) -> ~ overlaps (fields d) b)
      by (intros d Hd; apply (Hfree d Hd)).
    rewrite (book_free a now1 db Ha Fa), (book_free b now1 db Hb Fb). simpl.
    split.
    + intros Htouch.
      assert (Hab : ~ overlaps a b).
      { unfold overlaps, dt_lt, dt_same in *. lia. }
      assert (Hba : ~ overlaps b a) by (rewrite overlaps_sym; exact Hab).
      split; [apply succeeds_inr|]. split.
      * apply (book_after a b now1 now2 db Hb Fb), Hab.
      * split; [apply succeeds_inr|].
        apply (book_after b a now1 now2 db Ha Fa), Hba.
    + intros Hab.
      assert (Hba : overlaps b a) by (rewrite overlaps_sym; exact Hab).
      split; [apply succeeds_inr|]. split.
      * apply (book_after a b now1 now2 db Hb Fb), Hab.
      * split; [apply succeeds_inr|].
        apply (book_after b a now1 now2 db Ha Fa), Hba.
Qed.

(** 09:00-10:00 then 10:00-11:00 on an empty calendar both succeed;
    09:00-10:00 and 09:30-10:30 give one success and one conflict. *)
Lemma booking_conflict_iff_overlap_witness :
  (succeeds (public_create_appointment
               (Sample.slot (Sample.at_ 9 0) (Sample.at_ 10 0) "Scheduled")
               Sample.clock empty_store) /\
   succeeds (public_create_appointment
               (Sample.slot (Sample.at_ 10 0) (Sample.at_ 11 0) "Scheduled")
               Sample.clock
               (snd (public_create_appointment
                       (Sample.slot (Sample.at_ 9 0) (Sample.at_ 10 0)
                          "Scheduled") Sample.clock empty_store))))
  /\
  (succeeds (public_create_appointment
               (Sample.slot (Sample.at_ 9 0) (Sample.at_ 10 0) "Scheduled")
               Sample.clock empty_store) /\
   ConflictError (public_create_appointment
               (Sample.slot (Sample.at_ 9 30) (Sample.at_ 10 30) "Scheduled")
               Sample.clock
               (snd (public_create_appointment
                       (Sample.slot (Sample.at_ 9 0) (Sample.at_ 10 0)
                          "Scheduled") Sample.clock empty_store)))).
Proof.
  split.
  - destruct (booking_conflict_iff_overlap empty_store
                (Sample.slot (Sample.at_ 9 0) (Sample.at_ 10 0) "Scheduled")
                (Sample.slot (Sample.at_ 10 0) (Sample.at_ 11 0) "Scheduled")
                Sample.clock Sample.clock)
      as [_ [_ H]]; [reflexivity|reflexivity|].
    destruct H as [H _]; [intros d []|].
    destruct H as [H1 [H2 _]]; [reflexivity|].
    split; assumption.
  - destruct (booking_conflict_iff_overlap empty_store
                (Sample.slot (Sample.at_ 9 0) (Sample.at_ 10 0) "Scheduled")
                (Sample.slot (Sample.at_ 9 30) (Sample.at_ 10 30) "Scheduled")
                Sample.clock Sample.clock)
      as [_ [_ H]]; [reflexivity|reflexivity|].
    destruct H as [_ H]; [intros d []|].
    destruct H as [H1 [H2 _]]; [split; reflexivity|].
    split; assumption.
Defined.

(** C3, as stated, fails: a request carrying ["status": "Completed"] is
    accepted and the case is persisted as Completed. *)
Lemma created_case_not_new_example :
  exists new_id db' doc,
    post_cases (Some "assistant")
      (Sample.deed_body Sample.ada_id (Some "Completed"))
      Sample.clock Sample.one_client = (inr new_id, db') /\
    case db' = [doc] /\
    ObjectId_str (_id doc) = new_id /\
    Case.status (fields doc) = "Completed" /\
    Case.status (fields doc) <> "New".
Proof.
  eexists; eexists; eexists.
  split; [vm_compute; reflexivity|].
  split; [reflexivity|]. split; [vm_compute; reflexivity|].
  split; [reflexivity|]. simpl. discriminate.
Qed.

(** C3 (amended): for every successful createCase call, the persisted Case
    record carries the status of the request payload, one of the five case
    statuses; it is New when the request gives no status. *)
Theorem created_case_status :
  forall (x_role : option string) (b : Case.body) (now : datetime)
         (db db' : Store) (new_id : string),
    post_cases x_role b now db = (inr new_id, db') ->
    exists doc,
      case db' = case db ++ [doc] /\
      ObjectId_str (_id doc) = new_id /\
      Case.status (fields doc) =
        match Case.b_status b with Some s => s | None => "New" end /\
      In (Case.status (fields doc)) CaseStatus.
Proof.
  intros x_role b now db db' new_id H.
  apply post_cases_inv in H. destruct H as [_ [payload [Hv Hc]]].
  apply create_case_success in Hc. destruct Hc as [-> ->].
  apply Case_validate_status in Hv. destruct Hv as [Hs Hin].
  exists (mkDocument (next_oid db) payload now now). simpl.
  repeat split; assumption.
Qed.

Lemma created_case_status_witness :
  exists doc,
    case (snd (post_cases (Some "notary") (Sample.deed_body Sample.ada_id None)
                 Sample.clock Sample.one_client)) = [doc] /\
    Case.status (fields doc) = "New".
Proof.
  destruct (created_case_status (Some "notary")
              (Sample.deed_body Sample.ada_id None) Sample.clock
              Sample.one_client
              (snd (post_cases (Some "notary")
                      (Sample.deed_body Sample.ada_id None)
                      Sample.clock Sample.one_client))
              "000000000000000000000002")
    as [doc [H1 [_ [H3 _]]]]; [vm_compute; reflexivity|].
  exists doc. split; [exact H1|exact H3].
Defined.

(** C4, as stated, fails: a booking request carrying
    ["status": "Cancelled"] is accepted and persisted as Cancelled. *)
Lemma booked_appointment_not_scheduled_example :
  exists new_id db' doc,
    post_appointments_public
      (Sample.slot_body (Sample.at_ 9 0) (Sample.at_ 10 0) (Some "Cancelled"))
      Sample.clock empty_store = (inr new_id, db') /\
    appointment db' = [doc] /\
    ObjectId_str (_id doc) = new_id /\
    Appointment.status (fields doc) = "Cancelled" /\
    Appointment.status (fields doc) <> "Scheduled".
Proof.
  eexists; eexists; eexists.
  split; [vm_compute; reflexivity|].
  split; [reflexivity|]. split; [vm_compute; reflexivity|].
  split; [reflexivity|]. simpl. discriminate.
Qed.

(** C4 (amended): for every successful bookAppointment call, the persisted
    Appointment record carries the status of the request payload, one of
    Scheduled, Completed and Cancelled; it is Scheduled when the request
    gives no status. *)
Theorem booked_appointment_status :
  forall (b : Appointment.body) (now : datetime) (db db' : Store)
         (new_id : string),
    post_appointments_public b now db = (inr new_id, db') ->
    exists doc,
      appointment db' = appointment db ++ [doc] /\
      ObjectId_str (_id doc) = new_id /\
      Appointment.status (fields doc) =
        match Appointment.b_status b with
        | Some s => s
        | None => "Scheduled"
        end /\
      In (Appointment.status (fields doc)) AppointmentStatus.
Proof.
  intros b now db db' new_id H.
  apply post_appointments_public_inv in H. destruct H as [payload [Hv Hc]].
  apply book_success in Hc. destruct Hc as [-> ->].
  apply Appointment_validate_status in Hv. destruct Hv as [Hs Hin].
  exists (mkDocument (next_oid db) payload now now). simpl.
  repeat split; assumption.
Qed.

Lemma booked_appointment_status_witness :
  exists doc,
    appointment
      (snd (post_appointments_public
              (Sample.slot_body (Sample.at_ 9 0) (Sample.at_ 10 0) None)
              Sample.clock empty_store)) = [doc] /\
    Appointment.status (fields doc) = "Scheduled".
Proof.
  destruct (booked_appointment_status
              (Sample.slot_body (Sample.at_ 9 0) (Sample.at_ 10 0) None)
              Sample.clock empty_store
              (snd (post_appointments_public
                      (Sample.slot_body (Sample.at_ 9 0) (Sample.at_ 10 0) None)
                      Sample.clock empty_store))
              "000000000000000000000000")
    as [doc [H1 [_ [H3 _]]]]; [vm_compute; reflexivity|].
  exists doc. split; [exact H1|exact H3].
Defined.

(** C5, as stated, fails: a notary creates a case and the audit record
    names the assistant role. *)
Lemma audit_role_not_caller_example :
  exists new_id db' a,
    post_cases (Some "notary") (Sample.deed_body Sample.ada_id None)
      Sample.clock Sample.one_client = (inr new_id, db') /\
    auditlog db' = auditlog Sample.one_client ++ [a] /\
    AuditLog.entity_id (fields a) = Some new_id /\
    get_role (Some "notary") = "notary" /\
    AuditLog.actor_role (fields a) = "assistant" /\
    AuditLog.actor_role (fields a) <> get_role (Some "notary").
Proof.
  eexists; eexists; eexists.
  split; [vm_compute; reflexivity|].
  split; [reflexivity|]. split; [reflexivity|].
  split; [reflexivity|]. split; [reflexivity|]. simpl. discriminate.
Qed.

(** C5 (amended): for every successful createCase call, exactly one audit
    record is appended; it has action create, entity case, the new case
    identifier, and its actor_role is the constant assistant, whether the
    caller is a notary or an assistant. *)
Theorem created_case_audit_role :
  forall (x_role : option string) (b : Case.body) (now : datetime)
         (db db' : Store) (new_id : string),
    post_cases x_role b now db = (inr new_id, db') ->
    In (get_role x_role) staff /\
    exists a,
      auditlog db' = auditlog db ++ [a] /\
      AuditLog.actor_role (fields a) = "assistant" /\
      AuditLog.action (fields a) = "create" /\
      AuditLog.entity (fields a) = "case" /\
      AuditLog.entity_id (fields a) = Some new_id.
Proof.
  intros x_role b now db db' new_id H.
  apply post_cases_inv in H. destruct H as [Hr [payload [_ Hc]]].
  apply create_case_success in Hc. destruct Hc as [-> ->].
  split.
  - unfold in_literal in Hr. apply existsb_exists in Hr.
    destruct Hr as [x [Hx Hs]]. apply String.eqb_eq in Hs. subst. exact Hx.
  - eexists. simpl. split; [reflexivity|]. repeat split.
Qed.

Lemma created_case_audit_role_witness :
  exists a,
    auditlog (snd (post_cases (Some "notary")
                     (Sample.deed_body Sample.ada_id None)
                     Sample.clock Sample.one_client))
    = auditlog Sample.one_client ++ [a] /\
    AuditLog.actor_role (fields a) = "assistant".
Proof.
  destruct (created_case_audit_role (Some "notary")
              (Sample.deed_body Sample.ada_id None) Sample.clock
              Sample.one_client
              (snd (post_cases (Some "notary")
                      (Sample.deed_body Sample.ada_id None)
                      Sample.clock Sample.one_client))
              "000000000000000000000002")
    as [_ [a [H1 [H2 _]]]]; [vm_compute; reflexivity|].
  exists a. split; [exact H1|exact H2].
Defined.

(** ** Missing clients and cases *)

Lemma has_id_true {A} o (d : Stored A) : has_id o d = true <-> _id d = o.
Proof. unfold has_id. apply Z.eqb_eq. Qed.

Lemma no_client_find cid o db :
  ObjectId_of_str cid = Some o -> no_client_named cid db ->
  List.find (has_id o) (client db) = None.
Proof.
  intros Ho Hno. apply find_none_iff. intros d Hd.
  destruct (has_id o d) eqn:E; [|reflexivity].
  apply has_id_true in E. exfalso. apply (Hno d Hd). congruence.
Qed.

Lemma create_case_missing_client payload now db :
  truthy (Case.client_id payload) = true ->
  no_client_named (Case.client_id payload) db ->
  create_case payload now db =
    match ObjectId_of_str (Case.client_id payload) with
    | None => (inl (mkHTTPException 400 "Invalid id or bson not available"), db)
    | Some _ => (inl (mkHTTPException 404 "Client not found"), db)
    end.
Proof.
  intros Ht Hno. rewrite create_case_eq, Ht.
  destruct (ObjectId_of_str _) as [o|] eqn:Ho; [|reflexivity].
  rewrite (no_client_find _ _ _ Ho Hno). reflexivity.
Qed.

(** C6, as stated, fails: a client_id that bson does not read as an
    identifier names no client, and the call is refused as an invalid
    argument (400), not as NotFoundError. *)
Lemma malformed_client_id_example :
  let r := create_case (Sample.deed "no-such-client" "New")
                       Sample.clock empty_store in
  no_client_named "no-such-client" empty_store /\
  InvalidArgumentError r /\ ~ NotFoundError r.
Proof.
  cbv zeta. split; [intros d []|].
  assert (F : InvalidArgumentError
                (create_case (Sample.deed "no-such-client" "New")
                             Sample.clock empty_store))
    by (vm_compute; eexists; split; reflexivity).
  split; [exact F|]. intros N.
  pose proof (fails_with_code _ _ _ F N) as E. discriminate E.
Qed.

(** C6 (amended): for every createCase call whose client_id is non-empty
    and names no existing Client, nothing is persisted (neither a Case nor
    an audit record); the call fails with NotFoundError when bson reads
    client_id as an identifier, and with InvalidArgumentError when it does
    not.  bson reads the strings of 24 characters that [bytes.fromhex]
    reads: pairs of hexadecimal digits, with white space allowed around
    the pairs. *)
Theorem create_case_missing_client_fails :
  forall (payload : Case.t) (now : datetime) (db : Store),
    Case.client_id payload <> "" ->
    no_client_named (Case.client_id payload) db ->
    snd (create_case payload now db) = db /\
    (ObjectId_of_str (Case.client_id payload) <> None ->
       NotFoundError (create_case payload now db)) /\
    (ObjectId_of_str (Case.client_id payload) = None ->
       InvalidArgumentError (create_case payload now db)).
Proof.
  intros payload now db Ht Hno. apply truthy_true in Ht.
  rewrite (create_case_missing_client payload now db Ht Hno).
  destruct (ObjectId_of_str (Case.client_id payload)) as [o|].
  - split; [reflexivity|]. split; [intros _; apply fails_with_inl|].
    discriminate.
  - split; [reflexivity|]. split; [intros H; destruct (H eq_refl)|].
    intros _. apply fails_with_inl.
Qed.

(** An identifier that no client bears: NotFoundError, and the store of
    one client is left as it was.  So it is with 22 hexadecimal digits and
    two spaces, which bson reads as an identifier of 11 bytes. *)
Lemma create_case_missing_client_fails_witness :
  snd (create_case (Sample.deed "0000000000000000000000ff" "New")
         Sample.clock Sample.one_client) = Sample.one_client /\
  NotFoundError (create_case (Sample.deed "0000000000000000000000ff" "New")
                   Sample.clock Sample.one_client) /\
  NotFoundError (create_case (Sample.deed "0123456789abcdef012345  " "New")
                   Sample.clock Sample.one_client).
Proof.
  destruct (create_case_missing_client_fails
              (Sample.deed "0000000000000000000000ff" "New")
              Sample.clock Sample.one_client) as [H1 [H2 _]].
  - discriminate.
  - intros d [<-|[]]. vm_compute. discriminate.
  - destruct (create_case_missing_client_fails
                (Sample.deed "0123456789abcdef012345  " "New")
                Sample.clock Sample.one_client) as [_ [H3 _]].
    + discriminate.
    + intros d [<-|[]]. vm_compute. discriminate.
    + split; [exact H1|].
      split; [apply H2|apply H3]; vm_compute; discriminate.
Defined.

(** C10: createCase called with an empty client_id makes no client lookup
    and persists the Case, although no Client bears the empty identifier;
    with a non-empty client_id that names no Client the call does not
    succeed. *)
Theorem create_case_empty_client_id :
  forall (payload : Case.t) (now : datetime) (db : Store),
    Case.client_id payload = "" ->
    no_client_named "" db /\
    fst (create_case payload now db) = inr (ObjectId_str (next_oid db)) /\
    case (snd (create_case payload now db)) =
      case db ++ [mkDocument (next_oid db) payload now now] /\
    (forall other : Case.t,
       Case.client_id other <> "" ->
       no_client_named (Case.client_id other) db ->
       ~ succeeds (create_case other now db)).
Proof.
  intros payload now db He. split; [|split; [|split]].
  - intros d _. vm_compute. discriminate.
  - rewrite create_case_eq, He. reflexivity.
  - rewrite create_case_eq, He. reflexivity.
  - intros other Hne Hno.
    assert (Ht : truthy (Case.client_id other) = true)
      by (apply truthy_true; exact Hne).
    rewrite (create_case_missing_client other now db Ht Hno).
    destruct (ObjectId_of_str _); intros [a Ha]; discriminate.
Qed.

Lemma create_case_empty_client_id_witness :
  client empty_store = [] /\
  fst (create_case (Sample.deed "" "New") Sample.clock empty_store)
  = inr "000000000000000000000000" /\
  case (snd (create_case (Sample.deed "" "New") Sample.clock empty_store))
  = [mkDocument 0 (Sample.deed "" "New") Sample.clock Sample.clock].
Proof.
  destruct (create_case_empty_client_id (Sample.deed "" "New") Sample.clock
              empty_store) as [_ [H1 [H2 _]]]; [reflexivity|].
  split; [reflexivity|]. split; [exact H1|exact H2].
Defined.

(** ** Status updates *)

Lemma no_case_update case_id o f db :
  ObjectId_of_str case_id = Some o -> no_case_named case_id db ->
  update_first (has_id o) f (case db) = (0, case db).
Proof.
  intros Ho Hno. apply update_first_none. intros d Hd.
  destruct (has_id o d) eqn:E; [|reflexivity].
  apply has_id_true in E. exfalso. apply (Hno d Hd). congruence.
Qed.

Lemma update_case_status_failure case_id status now db e :
  fst (update_case_status case_id status now db) = inl e ->
  snd (update_case_status case_id status now db) = db.
Proof.
  rewrite update_case_status_eq.
  destruct (negb _); [reflexivity|].
  destruct (ObjectId_of_str case_id) as [o|]; [|reflexivity].
  destruct (update_first _ _ (case db)) as [n l] eqn:E.
  destruct (n =? 0) eqn:En; [|discriminate].
  intros _. apply Z.eqb_eq in En. subst n.
  pose proof (update_first_zero (has_id o)
    (fun d => mkDocument (_id d) (Case.set_status status (fields d))
                         (created_at d) now) (case db)) as Hz.
  rewrite E in Hz. specialize (Hz eq_refl). inversion Hz; subst l.
  simpl. destruct db; reflexivity.
Qed.

(** C7, as stated, fails: a string that bson does not read as an
    identifier names no case, and the call is refused as an invalid
    argument (400), not as NotFoundError. *)
Lemma malformed_case_id_example :
  let r := update_case_status "no-such-case" "Draft"
             Sample.clock Sample.one_client in
  In "Draft" CaseStatus /\
  no_case_named "no-such-case" Sample.one_client /\
  InvalidArgumentError r /\ ~ NotFoundError r.
Proof.
  cbv zeta. split; [simpl; tauto|]. split; [intros d []|].
  assert (F : InvalidArgumentError
                (update_case_status "no-such-case" "Draft"
                   Sample.clock Sample.one_client))
    by (vm_compute; eexists; split; reflexivity).
  split; [exact F|]. intros N.
  pose proof (fails_with_code _ _ _ F N) as E. discriminate E.
Qed.

(** C7 (amended): updateStatus fails with InvalidArgumentError whenever
    newStatus is outside the enum New, Draft, Waiting Signature, Completed,
    Archived, and also when newStatus is in the enum but bson does not
    read the case identifier; it fails with NotFoundError whenever
    newStatus is in the enum and bson reads the identifier, which names no
    existing case.  bson reads the strings of 24 characters that
    [bytes.fromhex] reads: pairs of hexadecimal digits, with white space
    allowed around the pairs.  Whenever updateStatus fails, the store is
    unchanged: no case is altered and no audit record is appended. *)
Theorem update_status_failures :
  forall (case_id status : string) (now : datetime) (db : Store),
    (~ In status CaseStatus ->
       InvalidArgumentError (update_case_status case_id status now db)) /\
    (In status CaseStatus -> ObjectId_of_str case_id = None ->
       InvalidArgumentError (update_case_status case_id status now db)) /\
    (In status CaseStatus -> ObjectId_of_str case_id <> None ->
       no_case_named case_id db ->
       NotFoundError (update_case_status case_id status now db)) /\
    (~ succeeds (update_case_status case_id status now db) ->
       snd (update_case_status case_id status now db) = db).
Proof.
  intros case_id status now db.
  split; [|split; [|split]].
  - intros Hn. rewrite update_case_status_eq.
    destruct (in_literal status CaseStatus) eqn:E.
    + apply in_literal_In in E. destruct (Hn E).
    + apply fails_with_inl.
  - intros Hin Ho. apply in_literal_In in Hin.
    rewrite update_case_status_eq, Hin. simpl. rewrite Ho.
    apply fails_with_inl.
  - intros Hin Ho Hno. apply in_literal_In in Hin.
    rewrite update_case_status_eq, Hin. simpl.
    destruct (ObjectId_of_str case_id) as [o|] eqn:Eo;
      [|destruct (Ho eq_refl)].
    rewrite (no_case_update case_id o _ db Eo Hno). simpl.
    apply fails_with_inl.
  - intros Hn.
    destruct (fst (update_case_status case_id status now db)) as [e|a] eqn:E.
    + apply (update_case_status_failure _ _ _ _ e E).
    + exfalso. apply Hn. exists a. exact E.
Qed.

(** "Bogus" is refused with the store untouched; an identifier of no case
    gives NotFoundError, and so do 22 hexadecimal digits with two spaces,
    which bson reads as an identifier of 11 bytes. *)
Lemma update_status_failures_witness :
  InvalidArgumentError
    (update_case_status Sample.ada_id "Bogus" Sample.clock Sample.one_client)
  /\ InvalidArgumentError
    (update_case_status "xyz" "Draft" Sample.clock Sample.one_client)
  /\ NotFoundError
    (update_case_status Sample.ada_id "Draft" Sample.clock Sample.one_client)
  /\ snd (update_case_status Sample.ada_id "Draft" Sample.clock
            Sample.one_client) = Sample.one_client
  /\ NotFoundError
    (update_case_status "0123456789abcdef012345  " "Draft" Sample.clock
       Sample.one_client).
Proof.
  destruct (update_status_failures "0123456789abcdef012345  " "Draft"
              Sample.clock Sample.one_client) as [_ [_ [H5 _]]].
  destruct (update_status_failures Sample.ada_id "Bogus" Sample.clock
              Sample.one_client) as [H1 _].
  destruct (update_status_failures "xyz" "Draft" Sample.clock
              Sample.one_client) as [_ [H2 _]].
  destruct (update_status_failures Sample.ada_id "Draft" Sample.clock
              Sample.one_client) as [_ [_ [H3 H4]]].
  assert (D : In "Draft" CaseStatus) by (simpl; tauto).
  assert (N : NotFoundError
                (update_case_status Sample.ada_id "Draft" Sample.clock
                   Sample.one_client)).
  { apply H3; [exact D|vm_compute; discriminate|intros d []]. }
  split; [|split; [|split; [|split]]].
  - apply H1. simpl. intros [H|[H|[H|[H|[H|[]]]]]]; discriminate H.
  - apply H2; [exact D|reflexivity].
  - exact N.
  - apply H4. apply (fails_not_succeeds 404). exact N.
  - apply H5; [exact D|vm_compute; discriminate|intros d []].
Defined.

(** ** Sorting *)

Section Sorting.
Context {X : Type}.
Variable leb : X -> X -> bool.
Hypothesis leb_total : forall a b, leb a b = true \/ leb b a = true.
Hypothesis leb_trans :
  forall a b c, leb a b = true -> leb b c = true -> leb a c = true.

Lemma insert_by_perm x l : Permutation (insert_by leb x l) (x :: l).
Proof.
  induction l as [|y r IH]; simpl; [apply Permutation_refl|].
  destruct (leb x y); [apply Permutation_refl|].
  apply perm_trans with (y :: x :: r); [|apply perm_swap].
  apply perm_skip, IH.
Qed.

Lemma sort_by_perm l : Permutation (sort_by leb l) l.
Proof.
  induction l as [|x r IH]; simpl; [apply perm_nil|].
  apply perm_trans with (x :: sort_by leb r); [apply insert_by_perm|].
  apply perm_skip, IH.
Qed.

Lemma insert_by_sorted x l :
  StronglySorted (fun a b => leb a b = true) l ->
  StronglySorted (fun a b => leb a b = true) (insert_by leb x l).
Proof.
  induction l as [|y r IH]; simpl; intros Hs.
  - constructor; [constructor|constructor].
  - inversion Hs as [|? ? Hr Hy]; subst.
    destruct (leb x y) eqn:E.
    + constructor; [exact Hs|]. constructor; [exact E|].
      eapply Forall_impl; [|exact Hy]. intros z Hz.
      apply (leb_trans x y z E Hz).
    + constructor; [apply IH, Hr|].
      apply (Permutation_Forall (Permutation_sym (insert_by_perm x r))).
      constructor; [|exact Hy].
      destruct (leb_total x y) as [H|H]; [congruence|exact H].
Qed.

Lemma sort_by_sorted l :
  StronglySorted (fun a b => leb a b = true) (sort_by leb l).
Proof.
  induction l as [|x r IH]; simpl; [constructor|].
  apply insert_by_sorted, IH.
Qed.
End Sorting.

Lemma StronglySorted_firstn {X} (R : X -> X -> Prop) n l :
  StronglySorted R l -> StronglySorted R (firstn n l).
Proof.
  revert l. induction n as [|n IH]; intros l Hs; simpl; [constructor|].
  destruct l as [|x r]; [constructor|].
  inversion Hs as [|? ? Hr Hx]; subst. constructor; [apply IH, Hr|].
  rewrite Forall_forall in *. intros y Hy. apply Hx.
  rewrite <- (firstn_skipn n r). apply in_or_app. left. exact Hy.
Qed.

(** In a sorted list, what [firstn] keeps precedes what it drops. *)
Lemma StronglySorted_firstn_skipn {X} (R : X -> X -> Prop) n l :
  StronglySorted R l ->
  forall x y, In x (firstn n l) -> In y (skipn n l) -> R x y.
Proof.
  revert l. induction n as [|n IH]; intros l Hs x y Hx Hy; simpl in *.
  - destruct Hx.
  - destruct l as [|z r]; [destruct Hx|].
    inversion Hs as [|? ? Hr Hz]; subst. simpl in Hx, Hy.
    destruct Hx as [<-|Hx].
    + rewrite Forall_forall in Hz. apply Hz.
      rewrite <- (firstn_skipn n r). apply in_or_app. right. exact Hy.
    + apply (IH r Hr x y Hx Hy).
Qed.

Lemma StronglySorted_map {X Y} (f : X -> Y) (R : Y -> Y -> Prop) l :
  StronglySorted (fun a b => R (f a) (f b)) l ->
  StronglySorted R (map f l).
Proof.
  induction 1 as [|x r Hr IH Hx]; simpl; constructor; [exact IH|].
  rewrite Forall_forall in *. intros y Hy. apply in_map_iff in Hy.
  destruct Hy as [z [<- Hz]]. apply Hx, Hz.
Qed.

Lemma StronglySorted_impl {X} (R R' : X -> X -> Prop) l :
  (forall a b, R a b -> R' a b) ->
  StronglySorted R l -> StronglySorted R' l.
Proof.
  intros H. induction 1 as [|x r Hr IH Hx]; constructor; [exact IH|].
  eapply Forall_impl; [|exact Hx]. intros y. apply H.
Qed.

Lemma sort_by_start_time_sorted l :
  StronglySorted starts_no_later (sort_by by_start_time l).
Proof.
  apply StronglySorted_impl with (R := fun a b => by_start_time a b = true).
  { intros a b. unfold by_start_time, starts_no_later. apply dt_leb_le. }
  apply (sort_by_sorted by_start_time).
  - intros a b. unfold by_start_time. rewrite !dt_leb_le.
    unfold dt_le. lia.
  - intros a b c. unfold by_start_time. rewrite !dt_leb_le.
    unfold dt_le. lia.
Qed.

Lemma sort_by_created_at_sorted l :
  StronglySorted created_no_earlier (sort_by by_created_at_desc l).
Proof.
  apply StronglySorted_impl
    with (R := fun a b => by_created_at_desc a b = true).
  { intros a b. unfold by_created_at_desc, created_no_earlier.
    apply dt_leb_le. }
  apply (sort_by_sorted by_created_at_desc).
  - intros a b. unfold by_created_at_desc. rewrite !dt_leb_le.
    unfold dt_le. lia.
  - intros a b c. unfold by_created_at_desc. rewrite !dt_leb_le.
    unfold dt_le. lia.
Qed.

Lemma starts_within_spec start end_ d :
  starts_within start end_ d = true <->
  dt_le start (Appointment.start_time (fields d)) /\
  dt_lt (Appointment.start_time (fields d)) end_.
Proof.
  unfold starts_within. rewrite andb_true_iff, dt_leb_le, dt_ltb_lt.
  reflexivity.
Qed.

(** ** The calendar *)

Lemma days_before_next_year y :
  days_before_year (y + 1) =
  days_before_year y + 365 + (if is_leap y then 1 else 0).
Proof.
  unfold days_before_year, is_leap. cbv zeta.
  replace (y + 1 - 1) with y by lia.
  destruct (y mod 4 =? 0) eqn:E4; destruct (y mod 100 =? 0) eqn:E100;
    destruct (y mod 400 =? 0) eqn:E400; simpl;
    rewrite ?Z.eqb_eq, ?Z.eqb_neq in *;
    Z.div_mod_to_equations; lia.
Qed.

Lemma days_before_next_month y m :
  1 <= m < 12 ->
  days_before_month y (m + 1) = days_before_month y m + days_in_month y m.
Proof.
  intros Hm.
  assert (H : m = 1 \/ m = 2 \/ m = 3 \/ m = 4 \/ m = 5 \/ m = 6 \/ m = 7 \/
              m = 8 \/ m = 9 \/ m = 10 \/ m = 11) by lia.
  unfold days_before_month, days_in_month.
  repeat (destruct H as [->|H]); try subst m;
    destruct (is_leap y); reflexivity.
Qed.

Lemma plus_one_day_timestamp t t' :
  valid_datetime t = true ->
  plus_one_day t = Some t' ->
  timestamp_us t' = timestamp_us t + 86400000000.
Proof.
  destruct t as [y m d h mi s us]. unfold valid_datetime, valid_date. simpl.
  rewrite !andb_true_iff, !Z.leb_le. intros [[[[[[Hy1 Hy2] Hm1] Hm2] Hd1] Hd2] _].
  destruct (d <? days_in_month y m) eqn:Ed.
  - intros E. inversion E. unfold timestamp_us, ymd2ord. simpl. lia.
  - apply Z.ltb_ge in Ed. assert (d = days_in_month y m) by lia. subst d.
    destruct (m <? 12) eqn:Em.
    + apply Z.ltb_lt in Em. intros E. inversion E.
      unfold timestamp_us, ymd2ord. simpl.
      rewrite days_before_next_month by lia. lia.
    + apply Z.ltb_ge in Em. assert (m = 12) by lia. subst m.
      destruct (y <? MAXYEAR); [|discriminate].
      intros E. inversion E. unfold timestamp_us, ymd2ord. simpl.
      rewrite days_before_next_year.
      unfold days_before_month, days_in_month. simpl.
      destruct (is_leap y); simpl; lia.
Qed.

(** *** Formatting a date and reading it back *)

Lemma Zrange_In lo n k : lo <= k < lo + Z.of_nat n -> In k (Zrange lo n).
Proof.
  intros H. unfold Zrange. apply in_map_iff.
  exists (Z.to_nat (k - lo)). split; [lia|]. apply in_seq. lia.
Qed.

Lemma forall_Zrange (f : Z -> bool) lo n :
  forallb f (Zrange lo n) = true ->
  forall k, lo <= k < lo + Z.of_nat n -> f k = true.
Proof.
  intros H k Hk. rewrite forallb_forall in H. apply H, Zrange_In, Hk.
Qed.

Lemma digit_val_char k :
  0 <= k <= 9 ->
  digit_val (digit_char k) = Some k /\ Ascii.eqb (digit_char k) "-" = false.
Proof.
  intros Hk.
  pose proof (forall_Zrange
    (fun k => match digit_val (digit_char k) with
              | Some v => (v =? k) && negb (Ascii.eqb (digit_char k) "-")
              | None => false
              end) 0 10 eq_refl k ltac:(lia)) as H.
  cbv beta in H. destruct (digit_val (digit_char k)) as [v|]; [|discriminate].
  apply andb_prop in H. destruct H as [H1 H2].
  apply Z.eqb_eq in H1. subst v. split; [reflexivity|].
  destruct (Ascii.eqb _ _); [discriminate|reflexivity].
Qed.

Lemma parse_m_pad2 m : 1 <= m <= 12 -> parse_m (pad2 m) = Some m.
Proof.
  intros Hm.
  pose proof (forall_Zrange
    (fun k => match parse_m (pad2 k) with
              | Some v => v =? k
              | None => false
              end) 1 12 eq_refl m ltac:(lia)) as H.
  cbv beta in H. destruct (parse_m (pad2 m)) as [v|]; [|discriminate].
  apply Z.eqb_eq in H. congruence.
Qed.

Lemma parse_d_pad2 d : 1 <= d <= 31 -> parse_d (pad2 d) = Some d.
Proof.
  intros Hd.
  pose proof (forall_Zrange
    (fun k => match parse_d (pad2 k) with
              | Some v => v =? k
              | None => false
              end) 1 31 eq_refl d ltac:(lia)) as H.
  cbv beta in H. destruct (parse_d (pad2 d)) as [v|]; [|discriminate].
  apply Z.eqb_eq in H. congruence.
Qed.

Lemma days_in_month_le y m : 1 <= m <= 12 -> days_in_month y m <= 31.
Proof.
  intros Hm.
  assert (H : m = 1 \/ m = 2 \/ m = 3 \/ m = 4 \/ m = 5 \/ m = 6 \/ m = 7 \/
              m = 8 \/ m = 9 \/ m = 10 \/ m = 11 \/ m = 12) by lia.
  unfold days_in_month.
  repeat (destruct H as [->|H]); try subst m;
    destruct (is_leap y); simpl; lia.
Qed.

Lemma read_digit_char k r :
  0 <= k <= 9 -> read_digit (String (digit_char k) r) = Some (k, r).
Proof.
  intros Hk.
  assert (H : k = 0 \/ k = 1 \/ k = 2 \/ k = 3 \/ k = 4 \/ k = 5 \/ k = 6 \/
              k = 7 \/ k = 8 \/ k = 9) by lia.
  repeat (destruct H as [->|H]); try subst k; reflexivity.
Qed.

Lemma parse_Y_pad4 y rest :
  0 <= y <= 9999 ->
  parse_Y (String (digit_char (y / 1000 mod 10))
            (String (digit_char (y / 100 mod 10))
              (String (digit_char (y / 10 mod 10))
                (String (digit_char (y mod 10)) rest)))) = Some (y, rest).
Proof.
  intros Hy. unfold parse_Y.
  rewrite !read_digit_char by (Z.div_mod_to_equations; lia).
  do 2 f_equal. Z.div_mod_to_equations. lia.
Qed.

Lemma split_dash_pad2 m rest :
  0 <= m <= 99 ->
  split_dash (pad2 m ++ String "-" rest) = Some (pad2 m, rest).
Proof.
  intros Hm. unfold pad2. cbn [append split_dash].
  destruct (digit_val_char (m / 10 mod 10)) as [_ ->];
    [Z.div_mod_to_equations; lia|].
  destruct (digit_val_char (m mod 10)) as [_ ->];
    [Z.div_mod_to_equations; lia|].
  rewrite Ascii.eqb_refl. reflexivity.
Qed.

Lemma strptime_Ymd_parts s r y ms ds m dd :
  parse_Y s = Some (y, String "-" r) ->
  split_dash r = Some (ms, ds) ->
  parse_m ms = Some m ->
  parse_d ds = Some dd ->
  strptime_Ymd s = datetime_ymd y m dd.
Proof.
  intros HY Hs Hm Hd. unfold strptime_Ymd.
  rewrite HY, Ascii.eqb_refl, Hs, Hm, Hd. reflexivity.
Qed.

Lemma strptime_strftime y m d :
  valid_date y m d = true ->
  strptime_Ymd (pad4 y ++ "-" ++ pad2 m ++ "-" ++ pad2 d)%string
  = Some (mkDatetime y m d 0 0 0 0).
Proof.
  intros Hv. pose proof Hv as Hv'. unfold valid_date, MINYEAR, MAXYEAR in Hv'.
  rewrite !andb_true_iff, !Z.leb_le in Hv'.
  destruct Hv' as [[[[[Hy1 Hy2] Hm1] Hm2] Hd1] Hd2].
  pose proof (days_in_month_le y m ltac:(lia)) as Hdim.
  change (pad4 y ++ "-" ++ pad2 m ++ "-" ++ pad2 d)%string
    with (String (digit_char (y / 1000 mod 10))
           (String (digit_char (y / 100 mod 10))
             (String (digit_char (y / 10 mod 10))
               (String (digit_char (y mod 10))
                 (String "-" (pad2 m ++ String "-" (pad2 d))))))).
  rewrite (strptime_Ymd_parts _ (pad2 m ++ String "-" (pad2 d))
             y (pad2 m) (pad2 d) m d).
  - unfold datetime_ymd. rewrite Hv. reflexivity.
  - apply parse_Y_pad4. lia.
  - apply split_dash_pad2. lia.
  - apply parse_m_pad2. lia.
  - apply parse_d_pad2. lia.
Qed.

Lemma day_bounds_today now :
  valid_datetime now = true ->
  day_bounds (strftime_Ymd now) =
  match plus_one_day (mkDatetime (year now) (month now) (day now) 0 0 0 0) with
  | Some end_ =>
      Some (mkDatetime (year now) (month now) (day now) 0 0 0 0, end_)
  | None => None
  end.
Proof.
  intros Hv. unfold valid_datetime in Hv. apply andb_prop in Hv.
  destruct Hv as [Hd _].
  unfold day_bounds, strftime_Ymd. rewrite (strptime_strftime _ _ _ Hd).
  cbn [year month day]. unfold datetime_ymd. rewrite Hd. reflexivity.
Qed.

Lemma strptime_Ymd_midnight s t :
  strptime_Ymd s = Some t ->
  datetime_ymd (year t) (month t) (day t) = Some t /\
  valid_datetime t = true.
Proof.
  unfold strptime_Ymd.
  destruct (parse_Y s) as [[y [|dash r]]|]; try discriminate.
  destruct (Ascii.eqb dash "-"); [|discriminate].
  destruct (split_dash r) as [[ms ds]|]; [|discriminate].
  destruct (parse_m ms) as [m|]; [|discriminate].
  destruct (parse_d ds) as [dd|]; [|discriminate].
  unfold datetime_ymd. destruct (valid_date y m dd) eqn:E; [|discriminate].
  intros H. inversion H; subst; cbn [year month day].
  rewrite E. split; [reflexivity|].
  unfold valid_datetime. cbn. rewrite E. reflexivity.
Qed.

Lemma day_bounds_Some s start end_ :
  day_bounds s = Some (start, end_) ->
  strptime_Ymd s = Some start /\
  plus_one_day start = Some end_ /\
  timestamp_us end_ = timestamp_us start + 86400000000.
Proof.
  unfold day_bounds. destruct (strptime_Ymd s) as [t|] eqn:E; [|discriminate].
  destruct (strptime_Ymd_midnight s t E) as [Hm Hv]. rewrite Hm.
  destruct (plus_one_day t) as [e|] eqn:Ep; [|discriminate].
  intros H. inversion H; subst. split; [reflexivity|]. split; [exact Ep|].
  apply (plus_one_day_timestamp _ _ Hv Ep).
Qed.

Lemma day_bounds_None s :
  strptime_Ymd s = None -> day_bounds s = None.
Proof. unfold day_bounds. intros ->. reflexivity. Qed.

(** *** The order of datetimes *)

Lemma days_before_year_steps n y :
  days_before_year y + 365 * Z.of_nat n <= days_before_year (y + Z.of_nat n).
Proof.
  induction n as [|n IH].
  - replace (y + Z.of_nat 0) with y by lia. lia.
  - rewrite Nat2Z.inj_succ.
    replace (y + Z.succ (Z.of_nat n)) with (y + Z.of_nat n + 1) by lia.
    rewrite days_before_next_year.
    destruct (is_leap (y + Z.of_nat n)); lia.
Qed.

Lemma days_before_year_mono y y' :
  y <= y' -> days_before_year y + 365 * (y' - y) <= days_before_year y'.
Proof.
  intros H. pose proof (days_before_year_steps (Z.to_nat (y' - y)) y) as S.
  rewrite Z2Nat.id in S by lia.
  replace (y + (y' - y)) with y' in S by lia. exact S.
Qed.

Lemma month_table y m :
  1 <= m <= 12 ->
  0 <= days_before_month y m /\
  28 <= days_in_month y m <= 31 /\
  days_before_month y m + days_in_month y m
  <= 365 + (if is_leap y then 1 else 0).
Proof.
  intros Hm.
  assert (H : m = 1 \/ m = 2 \/ m = 3 \/ m = 4 \/ m = 5 \/ m = 6 \/ m = 7 \/
              m = 8 \/ m = 9 \/ m = 10 \/ m = 11 \/ m = 12) by lia.
  unfold days_before_month, days_in_month.
  repeat (destruct H as [->|H]); try subst m;
    destruct (is_leap y); simpl; lia.
Qed.

Lemma day_of_year_bounds y m d :
  valid_date y m d = true ->
  1 <= days_before_month y m + d <= 365 + (if is_leap y then 1 else 0).
Proof.
  unfold valid_date. rewrite !andb_true_iff, !Z.leb_le.
  intros [[[[[_ _] Hm1] Hm2] Hd1] Hd2].
  pose proof (month_table y m ltac:(lia)). lia.
Qed.

Lemma days_before_month_mono y n k :
  1 <= k -> k + Z.of_nat n <= 12 ->
  days_before_month y k <= days_before_month y (k + Z.of_nat n).
Proof.
  intros Hk1. induction n as [|n IH]; intros Hk2.
  - replace (k + Z.of_nat 0) with k by lia. lia.
  - rewrite Nat2Z.inj_succ.
    replace (k + Z.succ (Z.of_nat n)) with (k + Z.of_nat n + 1) by lia.
    rewrite days_before_next_month by lia.
    pose proof (month_table y (k + Z.of_nat n) ltac:(lia)). lia.
Qed.

Lemma day_of_year_lt y m d m' d' :
  valid_date y m d = true -> valid_date y m' d' = true ->
  m < m' ->
  days_before_month y m + d < days_before_month y m' + d'.
Proof.
  unfold valid_date. rewrite !andb_true_iff, !Z.leb_le.
  intros [[[[[_ _] Hm1] Hm2] Hd1] Hd2] [[[[[_ _] Hm1'] Hm2'] Hd1'] Hd2'] Hlt.
  pose proof (days_before_month_mono y (Z.to_nat (m' - (m + 1))) (m + 1)
                ltac:(lia) ltac:(lia)) as Hmono.
  replace (m + 1 + Z.of_nat (Z.to_nat (m' - (m + 1)))) with m' in Hmono by lia.
  rewrite days_before_next_month in Hmono by lia. lia.
Qed.

Lemma ymd2ord_lt y m d y' m' d' :
  valid_date y m d = true -> valid_date y' m' d' = true ->
  lex_ltb [y; m; d] [y'; m'; d'] = true ->
  ymd2ord y m d < ymd2ord y' m' d'.
Proof.
  intros Hv Hv' Hlex. unfold ymd2ord. cbn [lex_ltb] in Hlex.
  rewrite andb_false_r, orb_false_r in Hlex.
  pose proof (day_of_year_bounds y m d Hv) as Hb.
  pose proof (day_of_year_bounds y' m' d' Hv') as Hb'.
  apply orb_prop in Hlex. destruct Hlex as [Hy|Hlex].
  - apply Z.ltb_lt in Hy.
    pose proof (days_before_year_mono (y + 1) y' ltac:(lia)) as Hm.
    rewrite days_before_next_year in Hm. lia.
  - apply andb_prop in Hlex. destruct Hlex as [Hy Hlex].
    apply Z.eqb_eq in Hy. subst y'.
    apply orb_prop in Hlex. destruct Hlex as [Hm|Hlex].
    + apply Z.ltb_lt in Hm.
      pose proof (day_of_year_lt y m d m' d' Hv Hv' Hm). lia.
    + apply andb_prop in Hlex. destruct Hlex as [Hm Hd].
      apply Z.eqb_eq in Hm. subst m'. apply Z.ltb_lt in Hd. lia.
Qed.

Lemma timestamp_us_lt a b :
  valid_datetime a = true -> valid_datetime b = true ->
  lex_ltb (timetuple a) (timetuple b) = true -> dt_lt a b.
Proof.
  destruct a as [y m d h mi s us], b as [y' m' d' h' mi' s' us'].
  unfold valid_datetime, valid_time, timetuple, dt_lt, timestamp_us.
  cbn [year month day hour minute second microsecond].
  rewrite !andb_true_iff, !Z.leb_le, !Z.ltb_lt.
  intros [Hd Ht] [Hd' Ht'] Hlex.
  assert (Hord : lex_ltb [y; m; d] [y'; m'; d'] = true ->
                 ymd2ord y m d < ymd2ord y' m' d')
    by (apply ymd2ord_lt; assumption).
  cbn [lex_ltb] in Hlex, Hord.
  destruct (y <? y') eqn:Ey; [specialize (Hord eq_refl); lia|].
  destruct (y =? y') eqn:Ey'; [|discriminate Hlex].
  destruct (m <? m') eqn:Em; [specialize (Hord eq_refl); lia|].
  destruct (m =? m') eqn:Em'; [|discriminate Hlex].
  destruct (d <? d') eqn:Ed; [specialize (Hord eq_refl); lia|].
  destruct (d =? d') eqn:Ed'; [|discriminate Hlex].
  clear Hord. apply Z.eqb_eq in Ey', Em', Ed'. subst y' m' d'.
  cbn [orb andb] in Hlex.
  rewrite !orb_true_iff, !andb_true_iff, !Z.ltb_lt, !Z.eqb_eq in Hlex.
  lia.
Qed.

Lemma lex_ltb_total a b :
  lex_ltb (timetuple a) (timetuple b) = true \/
  timetuple a = timetuple b \/
  lex_ltb (timetuple b) (timetuple a) = true.
Proof.
  destruct a as [y m d h mi s us], b as [y' m' d' h' mi' s' us'].
  unfold timetuple. cbn [year month day hour minute second microsecond lex_ltb].
  rewrite !orb_true_iff, !andb_true_iff, !Z.ltb_lt, !Z.eqb_eq.
  destruct (Z.lt_total y y') as [?|[?|?]]; [lia| |lia].
  destruct (Z.lt_total m m') as [?|[?|?]]; [lia| |lia].
  destruct (Z.lt_total d d') as [?|[?|?]]; [lia| |lia].
  destruct (Z.lt_total h h') as [?|[?|?]]; [lia| |lia].
  destruct (Z.lt_total mi mi') as [?|[?|?]]; [lia| |lia].
  destruct (Z.lt_total s s') as [?|[?|?]]; [lia| |lia].
  destruct (Z.lt_total us us') as [?|[?|?]]; [lia| |lia].
  right. left. congruence.
Qed.

(** On valid datetimes, comparing the microsecond counts is comparing the
    fields from the year down, which is how Python orders datetimes. *)
Lemma dt_ltb_lex a b :
  valid_datetime a = true -> valid_datetime b = true ->
  dt_ltb a b = lex_ltb (timetuple a) (timetuple b).
Proof.
  intros Ha Hb.
  destruct (lex_ltb (timetuple a) (timetuple b)) eqn:E.
  - apply dt_ltb_lt, timestamp_us_lt; assumption.
  - apply Z.ltb_ge.
    destruct (lex_ltb_total a b) as [H|[H|H]]; [congruence| |].
    + assert (a = b) by (destruct a, b; unfold timetuple in H; simpl in H;
                         congruence).
      subst b. lia.
    + pose proof (timestamp_us_lt b a Hb Ha H) as L. unfold dt_lt in L. lia.
Qed.

(** ** Identifiers and their written form *)

Lemma hex_val_char v :
  0 <= v < 16 -> hex_val (hex_char v) = Some v.
Proof.
  intros Hv.
  pose proof (forall_Zrange
    (fun k => match hex_val (hex_char k) with
              | Some w => w =? k
              | None => false
              end) 0 16 eq_refl v ltac:(lia)) as H.
  cbv beta in H. destruct (hex_val (hex_char v)) as [w|]; [|discriminate].
  apply Z.eqb_eq in H. congruence.
Qed.

Lemma hex_digits_length n v acc :
  String.length (hex_digits n v acc) = (n + String.length acc)%nat.
Proof.
  revert v acc. induction n as [|n IH]; intros v acc; simpl; [reflexivity|].
  rewrite IH. simpl. lia.
Qed.

Lemma is_space_hex_char v :
  0 <= v < 16 -> is_space (hex_char v) = false.
Proof.
  intros Hv.
  pose proof (forall_Zrange
    (fun k => negb (is_space (hex_char k))) 0 16 eq_refl v ltac:(lia)) as H.
  cbv beta in H. destruct (is_space (hex_char v)); [discriminate|reflexivity].
Qed.

(** The digits of [v] are read two by two, into the bytes that spell [v]. *)
Lemma fromhex_hex_digits k : forall v rest bs,
  0 <= v ->
  fromhex rest = Some bs ->
  exists hs,
    fromhex (hex_digits (2 * k) v rest) = Some (hs ++ bs) /\
    List.length hs = k /\
    forall a, fold_left (fun acc b => acc * 256 + b) hs a
              = a * 256 ^ Z.of_nat k + v mod 256 ^ Z.of_nat k.
Proof.
  induction k as [|k IH]; intros v rest bs Hv Hr.
  - exists []. cbn [Nat.mul hex_digits app List.length fold_left].
    split; [exact Hr|]. split; [reflexivity|].
    intros a. cbn [Z.of_nat]. rewrite Z.pow_0_r, Z.mod_1_r. lia.
  - replace (2 * S k)%nat with (S (S (2 * k))) by lia. cbn [hex_digits].
    assert (H16 : 0 <= v / 16) by (apply Z.div_pos; lia).
    assert (Hlo : 0 <= v mod 16 < 16) by (apply Z.mod_pos_bound; lia).
    assert (Hhi : 0 <= (v / 16) mod 16 < 16) by (apply Z.mod_pos_bound; lia).
    destruct (IH (v / 16 / 16)
                 (String (hex_char ((v / 16) mod 16))
                    (String (hex_char (v mod 16)) rest))
                 (((v / 16) mod 16) * 16 + v mod 16 :: bs))
      as [hs [Hf [Hl Hfold]]].
    + apply Z.div_pos; lia.
    + cbn [fromhex].
      rewrite (is_space_hex_char _ Hhi), (hex_val_char _ Hhi),
              (hex_val_char _ Hlo), Hr.
      reflexivity.
    + exists (hs ++ [((v / 16) mod 16) * 16 + v mod 16]).
      split; [rewrite Hf, <- app_assoc; reflexivity|].
      split; [rewrite length_app, Hl; cbn [List.length]; lia|].
      intros a. rewrite fold_left_app. cbn [fold_left]. rewrite Hfold.
      pose proof (Z.rem_mul_r v 256 (256 ^ Z.of_nat k)
                    ltac:(lia) ltac:(lia)) as E1.
      pose proof (Z.rem_mul_r v 16 16 ltac:(lia) ltac:(lia)) as E2.
      change (16 * 16) with 256 in E2.
      rewrite Z.div_div by lia. change (16 * 16) with 256.
      rewrite Nat2Z.inj_succ, Z.pow_succ_r by lia. rewrite E1, E2. lia.
Qed.

(** What bson refuses: a string that is not 24 characters long, or one
    that [bytes.fromhex] does not read. *)
Lemma ObjectId_of_str_None id_str :
  ObjectId_of_str id_str = None <->
  String.length id_str <> 24%nat \/ fromhex id_str = None.
Proof.
  unfold ObjectId_of_str.
  destruct (Nat.eqb_spec (String.length id_str) 24) as [E|E].
  - destruct (fromhex id_str) as [bs|]; split.
    + discriminate.
    + intros [H|H]; [destruct (H E)|discriminate H].
    + intros _. right. reflexivity.
    + reflexivity.
  - split; [intros _; left; exact E|reflexivity].
Qed.

(** Reading back the written form of an identifier gives the identifier. *)
Lemma ObjectId_of_str_str o :
  0 <= o < 2 ^ 96 -> ObjectId_of_str (ObjectId_str o) = Some o.
Proof.
  intros Ho. unfold ObjectId_of_str, ObjectId_str.
  rewrite hex_digits_length. cbn [String.length Nat.add Nat.eqb].
  destruct (fromhex_hex_digits 12 o "" [] ltac:(lia) eq_refl)
    as [hs [Hf [Hl Hfold]]].
  change (2 * 12)%nat with 24%nat in Hf. rewrite Hf, app_nil_r.
  unfold ObjectId_of_bytes, be_value. rewrite Hl, Hfold. cbn [Nat.eqb].
  f_equal. change (256 ^ Z.of_nat 12) with (2 ^ 96).
  rewrite Z.mod_small by lia. lia.
Qed.

(** The string a successful [create_case] returns reads back as the
    identifier of the record it has just stored. *)
Lemma create_case_returns_its_id payload now db new_id db' :
  0 <= next_oid db < 2 ^ 96 ->
  create_case payload now db = (inr new_id, db') ->
  exists doc,
    In doc (case db') /\
    ObjectId_of_str new_id = Some (_id doc) /\
    fields doc = payload.
Proof.
  intros Hr H. apply create_case_success in H. destruct H as [-> ->].
  exists (mkDocument (next_oid db) payload now now). split; [|split].
  - simpl. apply in_or_app. right. left. reflexivity.
  - apply ObjectId_of_str_str, Hr.
  - reflexivity.
Qed.

(** The bounds of a day cannot be computed in two cases only: the string
    is not a date, or it is the last day of year 9999. *)
Lemma day_bounds_None_iff s :
  day_bounds s = None <->
  strptime_Ymd s = None \/
  strptime_Ymd s = Some (mkDatetime MAXYEAR 12 31 0 0 0 0).
Proof.
  unfold day_bounds. destruct (strptime_Ymd s) as [t|] eqn:E.
  - destruct (strptime_Ymd_midnight s t E) as [Hm Hv]. rewrite Hm.
    unfold datetime_ymd in Hm.
    destruct (valid_date (year t) (month t) (day t)) eqn:Ed; [|discriminate].
    injection Hm as Ht. rewrite <- Ht. clear Ht Hv.
    pose proof Ed as Ed'. unfold valid_date, MINYEAR, MAXYEAR in Ed'.
    rewrite !andb_true_iff, !Z.leb_le in Ed'.
    destruct Ed' as [[[[[Hy1 Hy2] Hm1] Hm2] Hd1] Hd2].
    pose proof (month_table (year t) (month t) ltac:(lia)) as Hmt.
    unfold plus_one_day, MAXYEAR.
    destruct (day t <? days_in_month (year t) (month t)) eqn:C1.
    { split; [discriminate|]. intros [H|H]; [discriminate|].
      injection H as H1 H2 H3. apply Z.ltb_lt in C1.
      rewrite H1, H2, H3 in C1. vm_compute in C1. discriminate. }
    destruct (month t <? 12) eqn:C2.
    { split; [discriminate|]. intros [H|H]; [discriminate|].
      injection H as H1 H2 H3. apply Z.ltb_lt in C2. lia. }
    destruct (year t <? 9999) eqn:C3.
    { split; [discriminate|]. intros [H|H]; [discriminate|].
      injection H as H1 H2 H3. apply Z.ltb_lt in C3. lia. }
    split; [|reflexivity]. intros _. right.
    apply Z.ltb_ge in C1, C2, C3.
    assert (Hy : year t = 9999) by lia. assert (Hmo : month t = 12) by lia.
    rewrite Hy, Hmo in *.
    assert (Hdim : days_in_month 9999 12 = 31) by reflexivity.
    rewrite Hdim in *.
    assert (Hdd : day t = 31) by lia.
    rewrite Hdd. reflexivity.
  - split; [left; reflexivity|reflexivity].
Qed.

(** ** Listing appointments *)

Lemma list_appointments_eq day_arg role now db :
  list_appointments day_arg role now db =
  match day_arg with
  | Some s =>
      if truthy s then
        match day_bounds s with
        | Some (start, end_) =>
            (inr (map stringify_id
                    (sort_by by_start_time
                       (List.filter (starts_within start end_)
                                    (appointment db)))), db)
        | None => (inl (mkHTTPException 400 "Invalid day format"), db)
        end
      else (inr (map stringify_id
                   (sort_by by_start_time
                      (List.filter (fun _ => true) (appointment db)))), db)
  | None => (inr (map stringify_id
                    (sort_by by_start_time
                       (List.filter (fun _ => true) (appointment db)))), db)
  end.
Proof.
  unfold list_appointments, bind.
  destruct day_arg as [s|]; [|reflexivity].
  destruct (truthy s); [|reflexivity].
  destruct (day_bounds s) as [[start end_]|]; reflexivity.
Qed.

Lemma filter_all {X} (l : list X) : List.filter (fun _ => true) l = l.
Proof. induction l as [|x r IH]; simpl; [reflexivity|]. rewrite IH. reflexivity. Qed.

(** C8, as stated, fails: the empty string is not a date, yet a listing
    asked for the day [""] does not fail; it returns every appointment,
    whatever its day. *)
Lemma empty_day_lists_everything_example :
  strptime_Ymd "" = None /\
  exists doc,
    appointment Sample.one_cancelled = [doc] /\
    list_appointments (Some "") "notary" Sample.clock Sample.one_cancelled
    = (inr [stringify_id doc], Sample.one_cancelled) /\
    ~ InvalidArgumentError
        (list_appointments (Some "") "notary" Sample.clock
           Sample.one_cancelled).
Proof.
  split; [reflexivity|]. eexists. split; [reflexivity|].
  split; [reflexivity|]. intros [e [He _]]. discriminate He.
Qed.

(** What [strptime] reads: the year may be written in the decimal digits
    of any script, here the Arabic-Indic ones, and so may the digit after
    a leading 1 or 2 of the day; the month may not.  The day so written is
    listed like the day in ASCII digits. *)
Lemma day_in_other_digits_example :
  strptime_Ymd "٢٠٢٤-05-1٧" = Some (mkDatetime 2024 5 17 0 0 0 0) /\
  list_appointments (Some "٢٠٢٤-05-1٧") "notary" Sample.clock
    Sample.three_days
  = list_appointments (Some "2024-05-17") "notary" Sample.clock
      Sample.three_days /\
  strptime_Ymd "٢٠٢٤-٠٥-١٧" = None /\
  InvalidArgumentError
    (list_appointments (Some "٢٠٢٤-٠٥-١٧") "notary" Sample.clock
       Sample.three_days).
Proof.
  split; [reflexivity|]. split; [reflexivity|]. split; [reflexivity|].
  vm_compute. eexists. split; reflexivity.
Qed.

(** C8 (amended): for a non-empty day string that [strptime] reads as a
    calendar date whose next day exists, listAppointments(day) returns
    exactly the appointments whose start_time lies in
    [day 00:00, day+1 00:00), the upper bound being 24 hours after the
    lower one, in ascending start-time order; it fails with
    InvalidArgumentError on a non-empty day string that [strptime] does
    not read as a date, and whenever the bounds of the day cannot be
    computed.  [strptime] reads a year of four decimal digits, a month and
    a day of one or two digits, with a dash between them; the digits of
    the year, and the digit after a leading 1 or 2 of the day, may be of
    any script.  An empty day string is treated like an absent day: every
    appointment is returned, in ascending start-time order.  The store is
    never modified. *)
Theorem list_appointments_by_day :
  forall (day_arg : string) (role : string) (now : datetime) (db : Store),
    day_arg <> "" ->
    snd (list_appointments (Some day_arg) role now db) = db /\
    (strptime_Ymd day_arg = None ->
       InvalidArgumentError (list_appointments (Some day_arg) role now db)) /\
    (day_bounds day_arg = None ->
       InvalidArgumentError (list_appointments (Some day_arg) role now db)) /\
    (forall start end_,
       day_bounds day_arg = Some (start, end_) ->
       strptime_Ymd day_arg = Some start /\
       timestamp_us end_ = timestamp_us start + 86400000000 /\
       exists items,
         fst (list_appointments (Some day_arg) role now db)
         = inr (map stringify_id items) /\
         Permutation items
           (List.filter (starts_within start end_) (appointment db)) /\
         (forall d, In d items <->
                    In d (appointment db) /\
                    dt_le start (Appointment.start_time (fields d)) /\
                    dt_lt (Appointment.start_time (fields d)) end_) /\
         StronglySorted starts_no_later items) /\
    (exists items,
       list_appointments (Some "") role now db
       = (inr (map stringify_id items), db) /\
       list_appointments None role now db
       = (inr (map stringify_id items), db) /\
       Permutation items (appointment db) /\
       StronglySorted starts_no_later items).
Proof.
  intros day_arg role now db Hne.
  assert (Ht : truthy day_arg = true) by (apply truthy_true; exact Hne).
  split; [|split; [|split; [|split]]].
  - rewrite list_appointments_eq, Ht.
    destruct (day_bounds day_arg) as [[start end_]|]; reflexivity.
  - intros Hp. rewrite list_appointments_eq, Ht, (day_bounds_None _ Hp).
    apply fails_with_inl.
  - intros Hb. rewrite list_appointments_eq, Ht, Hb. apply fails_with_inl.
  - intros start end_ Hb.
    destruct (day_bounds_Some _ _ _ Hb) as [Hs [_ Hday]].
    split; [exact Hs|]. split; [exact Hday|].
    exists (sort_by by_start_time
              (List.filter (starts_within start end_) (appointment db))).
    split; [rewrite list_appointments_eq, Ht, Hb; reflexivity|].
    split; [apply sort_by_perm|]. split.
    + intros d. rewrite <- starts_within_spec, <- filter_In. split.
      * apply Permutation_in, sort_by_perm.
      * apply Permutation_in, Permutation_sym, sort_by_perm.
    + apply sort_by_start_time_sorted.
  - exists (sort_by by_start_time (appointment db)).
    rewrite !list_appointments_eq. simpl. rewrite filter_all.
    split; [reflexivity|]. split; [reflexivity|].
    split; [apply sort_by_perm|apply sort_by_start_time_sorted].
Qed.

(** 2024-05-17 holds the 09:00 and the 14:00 appointment of
    [Sample.three_days], returned in that order although the later one was
    booked first. *)
Lemma list_appointments_by_day_witness :
  exists items,
    fst (list_appointments (Some "2024-05-17") "notary" Sample.clock
           Sample.three_days) = inr (map stringify_id items) /\
    map (fun d => Appointment.start_time (fields d)) items
    = [Sample.at_ 9 0; Sample.at_ 14 0] /\
    StronglySorted starts_no_later items.
Proof.
  destruct (list_appointments_by_day "2024-05-17" "notary" Sample.clock
              Sample.three_days) as [_ [_ [_ [H _]]]]; [discriminate|].
  destruct (H (mkDatetime 2024 5 17 0 0 0 0) (mkDatetime 2024 5 18 0 0 0 0))
    as [_ [_ [items [H1 [_ [_ H4]]]]]]; [reflexivity|].
  exists items. split; [exact H1|]. split; [|exact H4].
  assert (E : map stringify_id items
              = map stringify_id
                  (sort_by by_start_time
                     (List.filter
                        (starts_within (mkDatetime 2024 5 17 0 0 0 0)
                           (mkDatetime 2024 5 18 0 0 0 0))
                        (appointment Sample.three_days)))).
  { assert (I : forall A (x y : A), @inr HTTPException A x = inr y -> x = y)
      by (intros A x y Hxy; inversion Hxy; reflexivity).
    apply I. rewrite <- H1. reflexivity. }
  assert (S : forall l, map (fun d : Document string Appointment.t =>
                               Appointment.start_time (fields d))
                            (map stringify_id l)
                        = map (fun d : Stored Appointment.t =>
                                 Appointment.start_time (fields d)) l).
  { intros l. rewrite map_map. reflexivity. }
  rewrite <- S, E, S. reflexivity.
Defined.

(** ** The dashboard *)

Lemma dashboard_eq role now db :
  dashboard role now db =
  match day_bounds (strftime_Ymd now) with
  | None => (inl (mkHTTPException 500 "Internal Server Error"), db)
  | Some (start, end_) =>
      (inr (mkDashboard
              (mkKpis
                 (Z.of_nat (List.length
                    (List.filter (starts_within start end_) (appointment db))))
                 (Z.of_nat (List.length (List.filter is_open (case db))))
                 (Z.of_nat (List.length (List.filter is_completed (case db)))))
              (map stringify_id
                 (firstn 10 (sort_by by_created_at_desc (auditlog db))))), db)
  end.
Proof.
  unfold dashboard, bind, utcnow.
  destruct (day_bounds (strftime_Ymd now)) as [[start end_]|]; [|reflexivity].
  unfold count_documents, find_all, bind, get_db, ret. simpl.
  rewrite filter_all. reflexivity.
Qed.

Lemma is_open_spec d :
  is_open d = true <->
  In (Case.status (fields d)) ["New"; "Draft"; "Waiting Signature"].
Proof. unfold is_open. apply in_literal_In. Qed.

Lemma is_completed_spec d :
  is_completed d = true <-> Case.status (fields d) = "Completed".
Proof. unfold is_completed. apply String.eqb_eq. Qed.

Lemma open_not_completed d : is_open d = true -> is_completed d = false.
Proof.
  intros Ho. destruct (is_completed d) eqn:Ec; [|reflexivity].
  apply is_completed_spec in Ec. unfold is_open in Ho. rewrite Ec in Ho.
  discriminate Ho.
Qed.

Lemma open_plus_completed l :
  (List.length (List.filter is_open l)
   + List.length (List.filter is_completed l) <= List.length l)%nat.
Proof.
  induction l as [|d r IH]; simpl; [lia|].
  destruct (is_open d) eqn:Eo.
  - rewrite (open_not_completed d Eo). simpl. lia.
  - destruct (is_completed d); simpl; lia.
Qed.

Lemma plus_one_day_exists t :
  year t < MAXYEAR -> exists t', plus_one_day t = Some t'.
Proof.
  destruct t as [y m d h mi s us]. simpl. intros Hy.
  destruct (d <? days_in_month y m); [eexists; reflexivity|].
  destruct (m <? 12); [eexists; reflexivity|].
  apply Z.ltb_lt in Hy. rewrite Hy. eexists. reflexivity.
Qed.

(** C9: the dashboard answers for every store when the clock shows a valid
    instant before year 9999, and leaves the store as it is.  Whenever it
    answers, open_cases is the number of cases whose status is New, Draft
    or Waiting Signature, completed_cases the number of cases whose status
    is Completed, and their sum is at most the number of Case records;
    recent_activity holds at most 10 audit records of the store, ordered
    by creation time descending, and no audit record left out is more
    recent than one that is shown. *)
Theorem dashboard_summary :
  forall (role : string) (now : datetime) (db : Store),
    (valid_datetime now = true -> year now < MAXYEAR ->
       succeeds (dashboard role now db)) /\
    (forall out db',
       dashboard role now db = (inr out, db') ->
       db' = db /\
       open_cases (kpis out)
         = Z.of_nat (List.length (List.filter is_open (case db))) /\
       completed_cases (kpis out)
         = Z.of_nat (List.length (List.filter is_completed (case db))) /\
       open_cases (kpis out) + completed_cases (kpis out)
         <= Z.of_nat (List.length (case db)) /\
       (List.length (recent_activity out) <= 10)%nat /\
       StronglySorted created_no_earlier (recent_activity out) /\
       exists shown rest,
         recent_activity out = map stringify_id shown /\
         Permutation (shown ++ rest) (auditlog db) /\
         (forall x y, In x shown -> In y rest -> created_no_earlier x y) /\
         (rest <> [] -> List.length shown = 10%nat)).
Proof.
  intros role now db. split.
  - intros Hv Hy. rewrite dashboard_eq, (day_bounds_today now Hv).
    destruct (plus_one_day_exists
                (mkDatetime (year now) (month now) (day now) 0 0 0 0) Hy)
      as [e ->].
    apply succeeds_inr.
  - intros out db'. rewrite dashboard_eq.
    destruct (day_bounds (strftime_Ymd now)) as [[start end_]|];
      [|discriminate].
    remember (firstn 10 (sort_by by_created_at_desc (auditlog db)))
      as shown eqn:Eshown.
    intros H. injection H as Hout Hdb. subst out db'.
    cbn [kpis open_cases completed_cases recent_activity].
    pose proof (sort_by_created_at_sorted (auditlog db)) as Hs.
    set (sorted := sort_by by_created_at_desc (auditlog db)) in *.
    split; [reflexivity|]. split; [reflexivity|]. split; [reflexivity|].
    split; [pose proof (open_plus_completed (case db)); lia|].
    split; [subst shown; rewrite length_map, length_firstn; lia|].
    split.
    + apply StronglySorted_map.
      apply StronglySorted_impl with (R := created_no_earlier).
      * intros a b Hab. exact Hab.
      * subst shown. apply StronglySorted_firstn, Hs.
    + exists shown, (skipn 10 sorted).
      split; [reflexivity|]. subst shown. split.
      * rewrite firstn_skipn. apply sort_by_perm.
      * split; [apply StronglySorted_firstn_skipn, Hs|].
        intros Hr. rewrite length_firstn.
        destruct (Nat.le_gt_cases (List.length sorted) 10) as [Hle|Hgt];
          [|lia].
        rewrite skipn_all2 in Hr by exact Hle. destruct (Hr eq_refl).
Qed.

(** An office with one open, one completed and one archived case. *)
Lemma dashboard_summary_witness :
  exists out,
    dashboard "notary" Sample.clock Sample.office = (inr out, Sample.office) /\
    open_cases (kpis out) = 1 /\
    completed_cases (kpis out) = 1 /\
    open_cases (kpis out) + completed_cases (kpis out) <= 3 /\
    (List.length (recent_activity out) <= 10)%nat.
Proof.
  destruct (dashboard_summary "notary" Sample.clock Sample.office) as [H1 H2].
  destruct (H1 eq_refl eq_refl) as [out Hout].
  destruct (dashboard "notary" Sample.clock Sample.office) as [r db'] eqn:E.
  simpl in Hout. subst r.
  destruct (H2 out db' eq_refl) as [-> [Ho [Hc [Hsum [Hlen _]]]]].
  exists out. split; [reflexivity|]. split; [exact Ho|]. split; [exact Hc|].
  split; [exact Hsum|exact Hlen].
Defined.


(* ------------------------------------------------------------------ *)
(** * Further properties *)

(** ** What a request does to the archive *)

Lemma create_client_eq payload now db :
  create_client payload now db =
  (inr (ObjectId_str (next_oid db)), with_client payload now db).
Proof. reflexivity. Qed.

Lemma store_eta db :
  mkStore (client db) (case db) (appointment db) (auditlog db) (next_oid db)
  = db.
Proof. destruct db. reflexivity. Qed.

Lemma archive_eta ar : mkArchive (base ar) (document ar) = ar.
Proof. destruct ar. reflexivity. Qed.

Lemma list_cases_eq status limit role now db :
  list_cases status limit role now db =
  (inr (map stringify_id
          (limit_ limit (List.filter (status_filter status) (case db)))), db).
Proof. reflexivity. Qed.

(** The store a status update leaves, told from the count of matches. *)
Lemma update_case_status_snd case_id status now db :
  snd (update_case_status case_id status now db) = db \/
  exists o,
    In status CaseStatus /\
    ObjectId_of_str case_id = Some o /\
    fst (update_first (has_id o) (restatus status now) (case db)) <> 0 /\
    update_case_status case_id status now db =
      (inr true,
       mkStore (client db)
         (snd (update_first (has_id o) (restatus status now) (case db)))
         (appointment db)
         (auditlog db ++
            [mkDocument (next_oid db) (status_audit case_id status) now now])
         (next_oid db + 1)).
Proof.
  rewrite update_case_status_eq.
  destruct (in_literal status CaseStatus) eqn:El; simpl; [|left; reflexivity].
  destruct (ObjectId_of_str case_id) as [o|] eqn:Eo; [|left; reflexivity].
  change (fun d : Stored Case.t =>
            mkDocument (_id d) (Case.set_status status (fields d))
              (created_at d) now) with (restatus status now).
  destruct (update_first (has_id o) (restatus status now) (case db))
    as [n l] eqn:Eu.
  destruct (n =? 0) eqn:En.
  - left. apply Z.eqb_eq in En. subst n.
    pose proof (update_first_zero (has_id o) (restatus status now) (case db))
      as Hz.
    rewrite Eu in Hz. specialize (Hz eq_refl). inversion Hz; subst l.
    simpl. apply store_eta.
  - right. exists o. apply Z.eqb_neq in En. apply in_literal_In in El.
    rewrite Eu. simpl. split; [exact El|]. split; [reflexivity|].
    split; [exact En|reflexivity].
Qed.

Lemma render_template_eq template_key case_id now ar :
  render_template template_key case_id now ar =
  match templates_get template_key DEFAULT_TEMPLATES with
  | None => (inl (mkHTTPException 404 "Template not found"), ar)
  | Some tpl =>
      match ObjectId_of_str case_id with
      | None =>
          (inl (mkHTTPException 400 "Invalid id or bson not available"), ar)
      | Some o =>
          match List.find (has_id o) (case (base ar)) with
          | None => (inl (mkHTTPException 404 "Case not found"), ar)
          | Some case_doc =>
              let stored client_doc :=
                let content :=
                  subst (tpl_content tpl)
                        (template_vars client_doc case_doc now) in
                (inr (mkRendered (ObjectId_str (next_oid (base ar))) content),
                 mkArchive
                   (mkStore (client (base ar)) (case (base ar))
                      (appointment (base ar)) (auditlog (base ar))
                      (next_oid (base ar) + 1))
                   (document ar ++
                      [mkDocument (next_oid (base ar))
                         (DocumentRecord.mk case_id (tpl_name tpl)
                            (Some template_key) (Some content) None None
                            (Some [])) now now])) in
              if truthy (Case.client_id (fields case_doc)) then
                match ObjectId_of_str (Case.client_id (fields case_doc)) with
                | None =>
                    (inl (mkHTTPException 400
                            "Invalid id or bson not available"), ar)
                | Some o' => stored (List.find (has_id o') (client (base ar)))
                end
              else stored None
          end
      end
  end.
Proof.
  unfold render_template.
  destruct (templates_get template_key DEFAULT_TEMPLATES) as [tpl|];
    [|reflexivity].
  unfold bindA, on_base, oid.
  destruct (ObjectId_of_str case_id) as [o|]; simpl;
    [|rewrite archive_eta; reflexivity].
  destruct (List.find (has_id o) (case (base ar))) as [case_doc|]; simpl;
    [|rewrite archive_eta; reflexivity].
  destruct (truthy (Case.client_id (fields case_doc))); simpl.
  - destruct (ObjectId_of_str (Case.client_id (fields case_doc))) as [o'|];
      simpl; [reflexivity|rewrite archive_eta; reflexivity].
  - reflexivity.
Qed.

Lemma outcome_snd {A} (r : result A * Archive) : snd (outcome r) = snd r.
Proof. destruct r as [[e|a] ar]; reflexivity. Qed.

Lemma outcome_fst_inl {A} (r : result A * Archive) e :
  fst r = inl e -> fst (outcome r) = inl e.
Proof. destruct r as [[e'|a] ar]; simpl; congruence. Qed.

Lemma on_base_snd {A} (m : M A) now ar :
  snd (on_base m now ar) = mkArchive (snd (m now (base ar))) (document ar).
Proof. unfold on_base. destruct (m now (base ar)). reflexivity. Qed.

Lemma on_base_fst {A} (m : M A) now ar :
  fst (on_base m now ar) = fst (m now (base ar)).
Proof. unfold on_base. destruct (m now (base ar)). reflexivity. Qed.

Lemma step_base ar s : s = base ar -> step ar (mkArchive s (document ar)).
Proof. intros ->. rewrite archive_eta. constructor. Qed.

(** Every request leaves the archive as it was or makes one of the
    changes of [step]. *)
Lemma serve_step r now ar : step ar (snd (serve r now ar)).
Proof.
  destruct r as [x p|x b|x s l|x i s|b|x d|x p|x k i|x]; unfold serve;
    rewrite outcome_snd.
  - rewrite on_base_snd. unfold post_clients, bind.
    rewrite require_role_inv.
    destruct (in_literal (get_role x) staff); [|apply step_base; reflexivity].
    rewrite create_client_eq. simpl. constructor.
  - rewrite on_base_snd. unfold post_cases, bind. rewrite require_role_inv.
    destruct (in_literal (get_role x) staff); [|apply step_base; reflexivity].
    destruct (Case.validate b) as [payload|] eqn:Ev;
      [|apply step_base; reflexivity].
    apply Case_validate_status in Ev. destruct Ev as [_ Hs].
    rewrite create_case_eq.
    destruct (truthy (Case.client_id payload)) eqn:Et.
    + destruct (ObjectId_of_str (Case.client_id payload)) as [o|] eqn:Eo;
        [|apply step_base; reflexivity].
      destruct (List.find (has_id o) (client (base ar))) as [c|] eqn:Ef;
        [|apply step_base; reflexivity].
      simpl. apply step_case; [exact Hs|]. intros _. exists c.
      apply find_some in Ef. destruct Ef as [Hin Hid].
      apply has_id_true in Hid. split; [exact Hin|congruence].
    + simpl. apply step_case; [exact Hs|]. intros Hne.
      apply truthy_true in Hne. congruence.
  - rewrite on_base_snd. unfold get_cases, bind. rewrite require_role_inv.
    destruct (in_literal (get_role x) staff); apply step_base; reflexivity.
  - rewrite on_base_snd. unfold patch_case_status, bind.
    rewrite require_role_inv.
    destruct (in_literal (get_role x) staff); [|apply step_base; reflexivity].
    destruct (update_case_status_snd i s now (base ar))
      as [E|[o [Hs [_ [Hn E]]]]].
    + apply step_base. exact E.
    + rewrite E. simpl. apply (step_status ar o i s now Hs Hn).
  - rewrite on_base_snd. unfold post_appointments_public.
    destruct (Appointment.validate b) as [payload|] eqn:Ev;
      [|apply step_base; reflexivity].
    apply Appointment_validate_status in Ev. destruct Ev as [_ Hs].
    rewrite public_create_appointment_eq.
    destruct (dt_leb _ _) eqn:El; [apply step_base; reflexivity|].
    destruct (List.find (conflicts_with payload) (appointment (base ar)))
      eqn:Ef; [apply step_base; reflexivity|].
    simpl. apply step_appointment; [exact Hs|apply dt_leb_false, El|].
    intros d0 Hd. apply conflicts_with_false. apply (find_none _ _ Ef d0 Hd).
  - rewrite on_base_snd. unfold get_appointments, bind.
    rewrite require_role_inv.
    destruct (in_literal (get_role x) staff); [|apply step_base; reflexivity].
    rewrite list_appointments_eq.
    destruct d as [s|]; [|apply step_base; reflexivity].
    destruct (truthy s); [|apply step_base; reflexivity].
    destruct (day_bounds s) as [[st en]|]; apply step_base; reflexivity.
  - unfold post_documents, bindA, on_base. rewrite require_role_inv.
    destruct (in_literal (get_role x) staff); simpl;
      [|rewrite ?archive_eta; constructor].
    rewrite ?archive_eta. apply step_document.
  - unfold post_templates_render, bindA, on_base. rewrite require_role_inv.
    destruct (in_literal (get_role x) staff); simpl;
      [|rewrite ?archive_eta; constructor].
    rewrite ?archive_eta, render_template_eq.
    destruct (templates_get k DEFAULT_TEMPLATES) as [tpl|]; [|constructor].
    destruct (ObjectId_of_str i) as [o|]; [|constructor].
    destruct (List.find (has_id o) (case (base ar))) as [cd|]; [|constructor].
    cbv zeta.
    destruct (truthy (Case.client_id (fields cd))).
    + destruct (ObjectId_of_str (Case.client_id (fields cd))) as [o'|];
        [|constructor].
      simpl. apply step_render.
    + simpl. apply step_render.
  - rewrite on_base_snd. unfold get_dashboard, bind. rewrite require_role_inv.
    destruct (in_literal (get_role x) staff); [|apply step_base; reflexivity].
    rewrite dashboard_eq.
    destruct (day_bounds (strftime_Ymd now)) as [[st en]|];
      apply step_base; reflexivity.
Qed.

(** A property kept by every change of [step] holds after any requests. *)
Lemma run_invariant (P : Archive -> Prop) :
  (forall ar ar', P ar -> step ar ar' -> P ar') ->
  forall rs ar, P ar -> P (run rs ar).
Proof.
  intros Hstep rs. induction rs as [|[r now] rest IH]; intros ar Hp; simpl.
  - exact Hp.
  - apply IH. apply (Hstep ar _ Hp). apply serve_step.
Qed.

(** ** The role check *)

Lemma client_not_staff : in_literal "client" staff = false.
Proof. reflexivity. Qed.

(** X1: every staff route answers 403 and leaves the archive untouched
    when the role of the caller is neither notary nor assistant; a request
    without [X-Role] header, or with an empty one, is such a caller, being
    given the role client. *)
Theorem staff_routes_refuse_other_roles :
  forall (r : request) (x_role : option string) (now : datetime)
         (ar : Archive),
    staff_header r = Some x_role ->
    x_role = None \/ x_role = Some "" \/ ~ In (get_role x_role) staff ->
    serve r now ar = (inl (mkHTTPException 403 "Forbidden for role"), ar).
Proof.
  intros r x now ar Hh Hx.
  assert (Hr : in_literal (get_role x) staff = false).
  { destruct Hx as [->|[->|Hn]]; [reflexivity|reflexivity|].
    destruct (in_literal (get_role x) staff) eqn:E; [|reflexivity].
    apply in_literal_In in E. destruct (Hn E). }
  destruct r as [y p|y b|y s l|y i s|b|y d|y p|y k i|y]; simpl in Hh;
    inversion Hh; subst y; unfold serve, on_base.
  - unfold post_clients, bind. rewrite require_role_inv, Hr. simpl.
    rewrite archive_eta. reflexivity.
  - unfold post_cases, bind. rewrite require_role_inv, Hr. simpl.
    rewrite archive_eta. reflexivity.
  - unfold get_cases, bind. rewrite require_role_inv, Hr. simpl.
    rewrite archive_eta. reflexivity.
  - unfold patch_case_status, bind. rewrite require_role_inv, Hr. simpl.
    rewrite archive_eta. reflexivity.
  - unfold get_appointments, bind. rewrite require_role_inv, Hr. simpl.
    rewrite archive_eta. reflexivity.
  - unfold post_documents, bindA, on_base. rewrite require_role_inv, Hr.
    simpl. rewrite archive_eta. reflexivity.
  - unfold post_templates_render, bindA, on_base.
    rewrite require_role_inv, Hr. simpl. rewrite archive_eta. reflexivity.
  - unfold get_dashboard, bind. rewrite require_role_inv, Hr. simpl.
    rewrite archive_eta. reflexivity.
Qed.

(** A client may not change the status of a case, and a caller who sends
    no header may not read the dashboard. *)
Lemma staff_routes_refuse_other_roles_witness :
  serve (PATCH_cases_status (Some "client") Sample2.deed_id "Archived")
        Sample2.later Sample2.client_and_case
  = (inl (mkHTTPException 403 "Forbidden for role"), Sample2.client_and_case)
  /\ serve (GET_dashboard None) Sample2.later Sample2.client_and_case
  = (inl (mkHTTPException 403 "Forbidden for role"), Sample2.client_and_case).
Proof.
  split.
  - apply (staff_routes_refuse_other_roles _ (Some "client"));
      [reflexivity|].
    right. right. simpl. intros [H|[H|[]]]; discriminate H.
  - apply (staff_routes_refuse_other_roles _ None); [reflexivity|].
    left. reflexivity.
Defined.

(** ** Status updates that succeed *)

Lemma update_first_split {X} (p : X -> bool) f l d :
  List.find p l = Some d ->
  exists pre post,
    l = pre ++ d :: post /\
    (forall x, In x pre -> p x = false) /\
    update_first p f l = (1, pre ++ f d :: post).
Proof.
  induction l as [|y r IH]; simpl; [discriminate|].
  destruct (p y) eqn:E.
  - intros H. inversion H; subst y. exists [], r. simpl.
    split; [reflexivity|]. split; [intros x []|reflexivity].
  - intros H. destruct (IH H) as [pre [post [-> [Hpre Hu]]]].
    exists (y :: pre), post. simpl. split; [reflexivity|]. split.
    + intros x [<-|Hx]; [exact E|apply Hpre, Hx].
    + rewrite Hu. reflexivity.
Qed.

Lemma find_first {X} (p : X -> bool) pre y post :
  (forall x, In x pre -> p x = false) -> p y = true ->
  List.find p (pre ++ y :: post) = Some y.
Proof.
  induction pre as [|z r IH]; simpl; intros Hpre Hy.
  - rewrite Hy. reflexivity.
  - rewrite (Hpre z (or_introl eq_refl)). apply IH; [|exact Hy].
    intros x Hx. apply Hpre. right. exact Hx.
Qed.

Lemma update_first_at {X} (p : X -> bool) f pre y post :
  (forall x, In x pre -> p x = false) -> p y = true ->
  update_first p f (pre ++ y :: post) = (1, pre ++ f y :: post).
Proof.
  induction pre as [|z r IH]; simpl; intros Hpre Hy.
  - rewrite Hy. reflexivity.
  - rewrite (Hpre z (or_introl eq_refl)).
    rewrite IH; [reflexivity| |exact Hy].
    intros x Hx. apply Hpre. right. exact Hx.
Qed.

(** A status update at the first case bearing the identifier. *)
Lemma update_case_status_at case_id status now db o pre post d :
  In status CaseStatus ->
  ObjectId_of_str case_id = Some o ->
  case db = pre ++ d :: post ->
  _id d = o ->
  (forall x, In x pre -> _id x <> o) ->
  update_case_status case_id status now db =
    (inr true,
     mkStore (client db) (pre ++ restatus status now d :: post)
       (appointment db)
       (auditlog db ++
          [mkDocument (next_oid db) (status_audit case_id status) now now])
       (next_oid db + 1)).
Proof.
  intros Hs Ho Hl Hd Hpre.
  rewrite update_case_status_eq.
  apply in_literal_In in Hs. rewrite Hs, Ho, Hl. simpl.
  change (fun d0 : Stored Case.t =>
            mkDocument (_id d0) (Case.set_status status (fields d0))
              (created_at d0) now) with (restatus status now).
  rewrite update_first_at.
  - reflexivity.
  - intros x Hx. destruct (has_id o x) eqn:E; [|reflexivity].
    apply has_id_true in E. destruct (Hpre x Hx E).
  - apply has_id_true. exact Hd.
Qed.

(** X2: when the new status is one of the five and the identifier names a
    stored case, the update succeeds whatever the current status of the
    case (no transition is refused, not even out of Archived).  Only the
    first case bearing the identifier changes: it takes the new status and
    the current instant as its update time, and keeps its identifier, its
    other fields and its creation time.  One audit record is appended,
    with action update_status, the identifier as the caller wrote it and
    the new status as detail. *)
Theorem update_case_status_effect :
  forall (case_id status : string) (now : datetime) (db : Store)
         (o : ObjectId) (pre post : list (Stored Case.t))
         (d : Stored Case.t),
    In status CaseStatus ->
    ObjectId_of_str case_id = Some o ->
    case db = pre ++ d :: post ->
    _id d = o ->
    (forall x, In x pre -> _id x <> o) ->
    update_case_status case_id status now db =
      (inr true,
       mkStore (client db)
         (pre ++ mkDocument (_id d)
                   (Case.mk (Case.client_id (fields d))
                      (Case.title (fields d)) (Case.type_ (fields d))
                      status (Case.description (fields d))
                      (Case.assigned_to (fields d))
                      (Case.due_date (fields d)))
                   (created_at d) now :: post)
         (appointment db)
         (auditlog db ++
            [mkDocument (next_oid db)
               (AuditLog.mk "assistant" None "update_status" "case"
                  (Some case_id) (Some [("status", status)])) now now])
         (next_oid db + 1)).
Proof.
  intros case_id status now db o pre post d Hs Ho Hl Hd Hpre.
  apply (update_case_status_at case_id status now db o pre post d);
    assumption.
Qed.

(** An archived deed is reopened as a draft. *)
Lemma update_case_status_effect_witness :
  exists db',
    update_case_status "000000000000000000000006" "Draft" Sample2.later
      Sample.office = (inr true, db') /\
    map (fun d => Case.status (fields d)) (case Sample.office)
    = ["New"; "Completed"; "Archived"] /\
    map (fun d => Case.status (fields d)) (case db')
    = ["New"; "Completed"; "Draft"].
Proof.
  eexists. split.
  - apply (update_case_status_effect "000000000000000000000006" "Draft"
             Sample2.later Sample.office 6
             (firstn 2 (case Sample.office)) []
             (mkDocument 6 (Sample.deed Sample.ada_id "Archived")
                Sample.clock Sample.clock)).
    + simpl. tauto.
    + reflexivity.
    + reflexivity.
    + reflexivity.
    + intros x [<-|[<-|[]]]; discriminate.
  - split; reflexivity.
Defined.

(** ** Sequences of status updates *)

Lemma last_default {X} (b : X) l d d' : last (b :: l) d = last (b :: l) d'.
Proof.
  revert b. induction l as [|c r IH]; intros b; [reflexivity|].
  change (last (b :: c :: r) d) with (last (c :: r) d).
  change (last (b :: c :: r) d') with (last (c :: r) d'). apply IH.
Qed.

Lemma last_cons {X} (a : X) l d : last (a :: l) d = last l a.
Proof.
  destruct l as [|b r]; [reflexivity|].
  change (last (a :: b :: r) d) with (last (b :: r) d). apply last_default.
Qed.

Lemma update_case_status_found case_id status now db o d :
  in_literal status CaseStatus = true ->
  ObjectId_of_str case_id = Some o ->
  List.find (has_id o) (case db) = Some d ->
  let db' := snd (update_case_status case_id status now db) in
  List.find (has_id o) (case db') = Some (restatus status now d) /\
  List.length (auditlog db') = S (List.length (auditlog db)) /\
  client db' = client db /\ appointment db' = appointment db.
Proof.
  intros Hs Ho Hf.
  destruct (update_first_split (has_id o) (restatus status now) _ d Hf)
    as [pre [post [Hl [Hpre Hu]]]].
  cbv zeta. rewrite update_case_status_eq, Hs, Ho. simpl.
  change (fun d0 : Stored Case.t =>
            mkDocument (_id d0) (Case.set_status status (fields d0))
              (created_at d0) now) with (restatus status now).
  rewrite Hu. simpl. split; [|split; [|split; reflexivity]].
  - apply find_first; [exact Hpre|].
    apply find_some in Hf. destruct Hf as [_ Hd]. exact Hd.
  - rewrite length_app. simpl. lia.
Qed.

Lemma update_case_status_refused case_id status now db :
  in_literal status CaseStatus = false ->
  snd (update_case_status case_id status now db) = db.
Proof. intros Hs. rewrite update_case_status_eq, Hs. reflexivity. Qed.

Lemma accepted_cons status now rest :
  accepted ((status, now) :: rest) =
  if in_literal status CaseStatus then status :: accepted rest
  else accepted rest.
Proof. reflexivity. Qed.

(** X3: after any sequence of status updates of a stored case, the stored
    status is the status of the last call that named one of the five
    statuses (the initial one if there was none), the calls naming another
    status having changed nothing; the audit log has grown by exactly one
    record per accepted call; the creation time of the case, the clients
    and the appointments are as before. *)
Theorem update_all_last_wins :
  forall (case_id : string) (us : list (string * datetime)) (db : Store)
         (o : ObjectId) (d : Stored Case.t),
    ObjectId_of_str case_id = Some o ->
    List.find (has_id o) (case db) = Some d ->
    exists d',
      List.find (has_id o) (case (update_all case_id us db)) = Some d' /\
      Case.status (fields d') = last (accepted us) (Case.status (fields d)) /\
      created_at d' = created_at d /\
      List.length (auditlog (update_all case_id us db))
      = (List.length (auditlog db) + List.length (accepted us))%nat /\
      client (update_all case_id us db) = client db /\
      appointment (update_all case_id us db) = appointment db.
Proof.
  intros case_id us. induction us as [|[status now] rest IH];
    intros db o d Ho Hf.
  - exists d. simpl. repeat split; try reflexivity; [exact Hf|lia].
  - cbn [update_all]. rewrite accepted_cons.
    destruct (in_literal status CaseStatus) eqn:Hs.
    + destruct (update_case_status_found case_id status now db o d Hs Ho Hf)
        as [Hf' [Ha [Hc Hp]]].
      destruct (IH _ o _ Ho Hf') as [d' [H1 [H2 [H3 [H4 [H5 H6]]]]]].
      exists d'. split; [exact H1|]. split.
      * rewrite H2, last_cons. reflexivity.
      * split; [rewrite H3; reflexivity|]. split.
        -- rewrite H4, Ha. cbn [List.length]. lia.
        -- split; congruence.
    + rewrite (update_case_status_refused case_id status now db Hs).
      apply (IH db o d Ho Hf).
Qed.

(** Waiting Signature, then the unknown Bogus, then Completed: the deed
    ends Completed and two records are added to the audit log. *)
Lemma update_all_last_wins_witness :
  exists d',
    List.find (has_id 2)
      (case (update_all Sample2.deed_id
               [("Waiting Signature", Sample.at_ 11 0);
                ("Bogus", Sample.at_ 11 5);
                ("Completed", Sample.at_ 11 10)]
               (base Sample2.client_and_case))) = Some d' /\
    Case.status (fields d') = "Completed" /\
    List.length
      (auditlog (update_all Sample2.deed_id
                   [("Waiting Signature", Sample.at_ 11 0);
                    ("Bogus", Sample.at_ 11 5);
                    ("Completed", Sample.at_ 11 10)]
                   (base Sample2.client_and_case))) = 4%nat.
Proof.
  destruct (update_all_last_wins Sample2.deed_id
              [("Waiting Signature", Sample.at_ 11 0);
               ("Bogus", Sample.at_ 11 5);
               ("Completed", Sample.at_ 11 10)]
              (base Sample2.client_and_case) 2
              (mkDocument 2 (Sample.deed Sample.ada_id "New")
                 Sample.clock Sample.clock))
    as [d' [H1 [H2 [_ [H4 _]]]]]; [reflexivity|reflexivity|].
  exists d'. split; [exact H1|]. split; [exact H2|exact H4].
Defined.

(** ** Booking: the three outcomes *)

(** X4: a booking request whose end is not after its start is refused
    with 400 before the calendar is looked at, so also when it overlaps
    stored appointments, and nothing is written.  A request with a proper
    interval that meets no stored appointment succeeds: the payload is
    stored as the last appointment, under the identifier that is
    returned, and one audit record is appended, with actor_role client,
    action book and that identifier; clients and cases are untouched. *)
Theorem booking_outcomes :
  forall (payload : Appointment.t) (now : datetime) (db : Store),
    (dt_le (Appointment.end_time payload) (Appointment.start_time payload) ->
     public_create_appointment payload now db
     = (inl (mkHTTPException 400 "Invalid time range"), db)) /\
    (dt_lt (Appointment.start_time payload) (Appointment.end_time payload) ->
     (forall d, In d (appointment db) -> ~ overlaps (fields d) payload) ->
     exists db',
       public_create_appointment payload now db
       = (inr (ObjectId_str (next_oid db)), db') /\
       appointment db'
       = appointment db ++ [mkDocument (next_oid db) payload now now] /\
       auditlog db'
       = auditlog db ++
         [mkDocument (next_oid db + 1)
            (AuditLog.mk "client" None "book" "appointment"
               (Some (ObjectId_str (next_oid db))) None) now now] /\
       client db' = client db /\ case db' = case db).
Proof.
  intros payload now db. split.
  - intros Hle. rewrite public_create_appointment_eq.
    apply dt_leb_le in Hle. rewrite Hle. reflexivity.
  - intros Hlt Hfree. exists (with_appointment payload now db).
    rewrite (book_free payload now db Hlt Hfree).
    repeat split; reflexivity.
Qed.

(** 10:00-10:00 is refused although 09:00-10:00 is free, and 09:45-09:15
    is refused as an invalid range, not as a conflict with the stored
    09:00-10:00. *)
Lemma booking_outcomes_witness :
  public_create_appointment
    (Sample.slot (Sample.at_ 10 0) (Sample.at_ 10 0) "Scheduled")
    Sample.clock empty_store
  = (inl (mkHTTPException 400 "Invalid time range"), empty_store) /\
  public_create_appointment
    (Sample.slot (Sample.at_ 9 45) (Sample.at_ 9 15) "Scheduled")
    Sample.clock Sample.one_cancelled
  = (inl (mkHTTPException 400 "Invalid time range"), Sample.one_cancelled) /\
  exists db',
    public_create_appointment
      (Sample.slot (Sample.at_ 10 0) (Sample.at_ 11 0) "Scheduled")
      Sample.clock Sample.one_cancelled
    = (inr "000000000000000000000002", db') /\
    List.length (appointment db') = 2%nat.
Proof.
  split; [|split].
  - apply (booking_outcomes
             (Sample.slot (Sample.at_ 10 0) (Sample.at_ 10 0) "Scheduled")).
    unfold dt_le. simpl. lia.
  - apply (booking_outcomes
             (Sample.slot (Sample.at_ 9 45) (Sample.at_ 9 15) "Scheduled")).
    unfold dt_le. vm_compute. discriminate.
  - destruct (booking_outcomes
                (Sample.slot (Sample.at_ 10 0) (Sample.at_ 11 0) "Scheduled")
                Sample.clock Sample.one_cancelled) as [_ H].
    destruct H as [db' [H1 [H2 _]]].
    + reflexivity.
    + intros d [<-|[]]. unfold overlaps, dt_lt. vm_compute.
      intros [_ H]. discriminate H.
    + exists db'. split; [exact H1|]. rewrite H2. reflexivity.
Defined.

(** ** No double booking *)

Lemma pairwise_free_snoc l x :
  pairwise_free l ->
  (forall d, In d l -> ~ overlaps (fields d) (fields x)) ->
  pairwise_free (l ++ [x]).
Proof.
  induction l as [|y r IH]; simpl; intros Hp Hx.
  - split; [intros e []|exact I].
  - destruct Hp as [Hy Hr]. split.
    + intros e He. apply in_app_or in He. destruct He as [He|[<-|[]]].
      * apply Hy, He.
      * apply Hx. left. reflexivity.
    + apply IH; [exact Hr|]. intros d Hd. apply Hx. right. exact Hd.
Qed.

Lemma pairwise_free_lt l :
  pairwise_free l ->
  forall i j d e, (i < j)%nat ->
    nth_error l i = Some d -> nth_error l j = Some e ->
    ~ overlaps (fields d) (fields e).
Proof.
  induction l as [|y r IH]; intros Hp i j d e Hij Hi Hj.
  - destruct i; discriminate Hi.
  - destruct Hp as [Hy Hr]. destruct j as [|j]; [lia|].
    simpl in Hj. destruct i as [|i].
    + simpl in Hi. inversion Hi; subst y.
      apply Hy. apply (nth_error_In _ _ Hj).
    + simpl in Hi. apply (IH Hr i j d e); [lia|exact Hi|exact Hj].
Qed.

Lemma calendar_ok_step ar ar' :
  calendar_ok (base ar) -> step ar ar' -> calendar_ok (base ar').
Proof.
  intros Hc Hs. destruct Hs; try exact Hc.
  destruct Hc as [Hv Hp]. split; simpl.
  - intros d Hd. apply in_app_or in Hd. destruct Hd as [Hd|[<-|[]]].
    + apply Hv, Hd.
    + simpl. assumption.
  - apply pairwise_free_snoc; [exact Hp|]. simpl. assumption.
Qed.

(** X5: whatever requests are served, in whatever order, a calendar in
    which every appointment ends after it starts and no two appointments
    overlap stays such a calendar: no route stores an empty or inverted
    interval, and no two stored appointments ever overlap, whatever their
    status. *)
Theorem no_double_booking :
  forall (rs : list (request * datetime)) (ar : Archive),
    calendar_ok (base ar) ->
    (forall d, In d (appointment (base (run rs ar))) ->
       dt_lt (Appointment.start_time (fields d))
             (Appointment.end_time (fields d))) /\
    (forall i j d e, i <> j ->
       nth_error (appointment (base (run rs ar))) i = Some d ->
       nth_error (appointment (base (run rs ar))) j = Some e ->
       ~ overlaps (fields d) (fields e)).
Proof.
  intros rs ar Hc.
  assert (H : calendar_ok (base (run rs ar))).
  { apply (run_invariant (fun a => calendar_ok (base a))); [|exact Hc].
    apply calendar_ok_step. }
  destruct H as [Hv Hp]. split; [exact Hv|].
  intros i j d e Hij Hi Hj.
  destruct (Nat.lt_ge_cases i j) as [Hlt|Hge].
  - apply (pairwise_free_lt _ Hp i j d e Hlt Hi Hj).
  - rewrite overlaps_sym.
    apply (pairwise_free_lt _ Hp j i e d ltac:(lia) Hj Hi).
Qed.

(** Of the two bookings asked in [Sample2.morning], 09:00-10:00 and
    09:30-10:30, one only is in the calendar. *)
Lemma no_double_booking_witness :
  map (fun d => (Appointment.start_time (fields d),
                 Appointment.end_time (fields d)))
      (appointment (base (run Sample2.morning empty_archive)))
  = [(Sample.at_ 9 0, Sample.at_ 10 0)] /\
  dt_lt (Sample.at_ 9 0) (Sample.at_ 10 0).
Proof.
  split; [reflexivity|].
  destruct (no_double_booking Sample2.morning empty_archive) as [H _].
  - split; [intros d []|exact I].
  - apply (H (mkDocument 4
                (Sample.slot (Sample.at_ 9 0) (Sample.at_ 10 0) "Scheduled")
                (Sample.at_ 8 10) (Sample.at_ 8 10))).
    left. reflexivity.
Defined.

(** ** Statuses, and the cases the dashboard counts *)

Lemma update_first_In {X} (p : X -> bool) f l x :
  In x (snd (update_first p f l)) ->
  In x l \/ exists y, In y l /\ x = f y.
Proof.
  induction l as [|z r IH]; simpl; [intros []|].
  destruct (p z).
  - simpl. intros [<-|Hx].
    + right. exists z. split; [left; reflexivity|reflexivity].
    + left. right. exact Hx.
  - destruct (update_first p f r) as [n r'] eqn:E. simpl in *.
    intros [<-|Hx]; [left; left; reflexivity|].
    destruct (IH Hx) as [H|[y [Hy ->]]].
    + left. right. exact H.
    + right. exists y. split; [right; exact Hy|reflexivity].
Qed.

Lemma statuses_ok_step ar ar' :
  statuses_ok (base ar) -> step ar ar' -> statuses_ok (base ar').
Proof.
  intros Hc Hs. destruct Hs; try exact Hc; destruct Hc as [Hcase Happ].
  - split; simpl; [|exact Happ].
    intros d Hd. apply in_app_or in Hd. destruct Hd as [Hd|[<-|[]]].
    + apply Hcase, Hd.
    + simpl. assumption.
  - split; simpl; [|exact Happ].
    intros d Hd. apply update_first_In in Hd.
    destruct Hd as [Hd|[y [_ ->]]]; [apply Hcase, Hd|]. simpl. assumption.
  - split; simpl; [exact Hcase|].
    intros d Hd. apply in_app_or in Hd. destruct Hd as [Hd|[<-|[]]].
    + apply Happ, Hd.
    + simpl. assumption.
Qed.

Lemma case_partition (l : list (Stored Case.t)) :
  (forall d, In d l -> In (Case.status (fields d)) CaseStatus) ->
  (List.length (List.filter is_open l)
   + List.length (List.filter is_completed l)
   + List.length (List.filter is_archived l) = List.length l)%nat.
Proof.
  induction l as [|d r IH]; intros H; simpl; [reflexivity|].
  assert (Hr : forall e, In e r -> In (Case.status (fields e)) CaseStatus)
    by (intros e He; apply H; right; exact He).
  specialize (IH Hr). pose proof (H d (or_introl eq_refl)) as Hd.
  assert (Hb : is_open d = true /\ is_completed d = false
                 /\ is_archived d = false
               \/ is_open d = false /\ is_completed d = true
                  /\ is_archived d = false
               \/ is_open d = false /\ is_completed d = false
                  /\ is_archived d = true).
  { unfold is_open, is_completed, is_archived. simpl in Hd.
    destruct Hd as [E|[E|[E|[E|[E|[]]]]]]; rewrite <- E; simpl; tauto. }
  cbn [List.filter].
  destruct Hb as [[-> [-> ->]]|[[-> [-> ->]]|[-> [-> ->]]]];
    cbn [List.length]; lia.
Qed.

Lemma case_partition_Z (l : list (Stored Case.t)) :
  (forall d, In d l -> In (Case.status (fields d)) CaseStatus) ->
  Z.of_nat (List.length (List.filter is_open l))
  + Z.of_nat (List.length (List.filter is_completed l))
  + Z.of_nat (List.length (List.filter is_archived l))
  = Z.of_nat (List.length l).
Proof. intros H. pose proof (case_partition l H). lia. Qed.

(** X6: the status of a stored case is always one of New, Draft, Waiting
    Signature, Completed and Archived, and that of a stored appointment
    one of Scheduled, Completed and Cancelled, whatever requests are
    served: the enum of the schema and the list checked by the status
    route agree.  Hence the dashboard leaves out the archived cases and
    no other: open_cases plus completed_cases plus the number of Archived
    cases is the number of cases. *)
Theorem statuses_stay_in_enum :
  forall (rs : list (request * datetime)) (ar : Archive),
    statuses_ok (base ar) ->
    (forall d, In d (case (base (run rs ar))) ->
       In (Case.status (fields d))
          ["New"; "Draft"; "Waiting Signature"; "Completed"; "Archived"]) /\
    (forall d, In d (appointment (base (run rs ar))) ->
       In (Appointment.status (fields d))
          ["Scheduled"; "Completed"; "Cancelled"]) /\
    (forall role now out db',
       dashboard role now (base (run rs ar)) = (inr out, db') ->
       open_cases (kpis out) + completed_cases (kpis out)
       + Z.of_nat (List.length
                     (List.filter is_archived (case (base (run rs ar)))))
       = Z.of_nat (List.length (case (base (run rs ar))))).
Proof.
  intros rs ar Hs.
  assert (H : statuses_ok (base (run rs ar))).
  { apply (run_invariant (fun a => statuses_ok (base a))); [|exact Hs].
    apply statuses_ok_step. }
  destruct H as [Hc Ha]. split; [exact Hc|]. split; [exact Ha|].
  intros role now out db' Hd.
  rewrite dashboard_eq in Hd.
  destruct (day_bounds (strftime_Ymd now)) as [[st en]|]; [|discriminate].
  injection Hd as Hout _. subst out.
  cbn [kpis open_cases completed_cases].
  apply case_partition_Z. exact Hc.
Qed.

(** After [Sample2.morning] the only case is archived: the dashboard
    counts no open and no completed case. *)
Lemma statuses_stay_in_enum_witness :
  map (fun d => Case.status (fields d))
      (case (base (run Sample2.morning empty_archive))) = ["Archived"] /\
  In "Archived"
     ["New"; "Draft"; "Waiting Signature"; "Completed"; "Archived"].
Proof.
  split; [reflexivity|].
  destruct (statuses_stay_in_enum Sample2.morning empty_archive) as [H _].
  - split; intros d [].
  - apply (H (mkDocument 2 (Sample.deed Sample.ada_id "Archived")
                (Sample.at_ 8 5) (Sample.at_ 8 20))).
    left. reflexivity.
Defined.

(** ** Cases and their clients *)

Lemma clients_exist_step ar ar' :
  clients_exist (base ar) -> step ar ar' -> clients_exist (base ar').
Proof.
  intros Hc Hs. destruct Hs; try exact Hc.
  - intros d Hd Hne. simpl in Hd. destruct (Hc d Hd Hne) as [c [Hin Ho]].
    exists c. split; [|exact Ho]. simpl. apply in_or_app. left. exact Hin.
  - intros d Hd Hne. simpl in Hd. apply in_app_or in Hd.
    destruct Hd as [Hd|[<-|[]]].
    + apply (Hc d Hd Hne).
    + simpl in *. auto.
  - intros d Hd Hne. simpl in Hd. apply update_first_In in Hd.
    destruct Hd as [Hd|[y [Hy ->]]]; [apply (Hc d Hd Hne)|].
    simpl in *. apply (Hc y Hy Hne).
Qed.

(** X7: whatever requests are served, every stored case whose client_id
    is not empty names a stored client: the client was looked up when the
    case was created, no route removes a client, and a status update
    leaves the client_id of the case as it is. *)
Theorem cases_name_stored_clients :
  forall (rs : list (request * datetime)) (ar : Archive),
    clients_exist (base ar) ->
    forall d, In d (case (base (run rs ar))) ->
      Case.client_id (fields d) <> "" ->
      exists c, In c (client (base (run rs ar))) /\
                ObjectId_of_str (Case.client_id (fields d)) = Some (_id c).
Proof.
  intros rs ar Hc.
  apply (run_invariant (fun a => clients_exist (base a))); [|exact Hc].
  apply clients_exist_step.
Qed.

Lemma cases_name_stored_clients_witness :
  exists c, In c (client (base (run Sample2.morning empty_archive))) /\
            ObjectId_of_str Sample.ada_id = Some (_id c).
Proof.
  refine (cases_name_stored_clients Sample2.morning empty_archive _
            (mkDocument 2 (Sample.deed Sample.ada_id "Archived")
               (Sample.at_ 8 5) (Sample.at_ 8 20)) _ _).
  - intros d [].
  - left. reflexivity.
  - discriminate.
Defined.

(** ** Identifiers *)

Ltac ids_goal :=
  let d := fresh "d" in
  let Hd := fresh "Hd" in
  intros d Hd;
  try (apply in_app_or in Hd; destruct Hd as [Hd|[<-|[]]]);
  simpl;
  try lia;
  match goal with
  | H : forall x, In x ?l -> _, Hd' : In ?e ?l |- _ =>
      specialize (H e Hd'); lia
  end.

Lemma ids_ok_step ar ar' : ids_ok ar -> step ar ar' -> ids_ok ar'.
Proof.
  intros I0 Hs. pose proof I0 as [H0 [Hcl [Hca [Hap [Hau Hdo]]]]].
  destruct Hs; [exact I0|..]; unfold ids_ok; simpl;
    (split; [lia|]);
    (split; [ids_goal|]);
    (split; [|split; [ids_goal|split; ids_goal]]);
    try ids_goal.
  intros d Hd. apply update_first_In in Hd.
  destruct Hd as [Hd|[y [Hy ->]]]; simpl.
  - specialize (Hca d Hd). lia.
  - specialize (Hca y Hy). lia.
Qed.

(** The identifiers of the records reached from the empty archive are
    those handed out so far. *)
Lemma run_ids_ok rs : ids_ok (run rs empty_archive).
Proof.
  apply (run_invariant ids_ok); [apply ids_ok_step|].
  unfold ids_ok. simpl. repeat split; try lia; intros d [].
Qed.

(** *** Identifiers of fewer than 12 bytes *)

Lemma hex_val_range c v : hex_val c = Some v -> 0 <= v < 16.
Proof.
  unfold hex_val. cbv zeta.
  destruct ((48 <=? Z.of_nat (nat_of_ascii c)) &&
            (Z.of_nat (nat_of_ascii c) <=? 57)) eqn:E1.
  { rewrite andb_true_iff, !Z.leb_le in E1. intros H. injection H as <-. lia. }
  destruct ((97 <=? Z.of_nat (nat_of_ascii c)) &&
            (Z.of_nat (nat_of_ascii c) <=? 102)) eqn:E2.
  { rewrite andb_true_iff, !Z.leb_le in E2. intros H. injection H as <-. lia. }
  destruct ((65 <=? Z.of_nat (nat_of_ascii c)) &&
            (Z.of_nat (nat_of_ascii c) <=? 70)) eqn:E3; [|discriminate].
  rewrite andb_true_iff, !Z.leb_le in E3. intros H. injection H as <-. lia.
Qed.

Lemma fromhex_bytes_upto n : forall s bs,
  (String.length s <= n)%nat ->
  fromhex s = Some bs -> Forall (fun b => 0 <= b < 256) bs.
Proof.
  induction n as [|n IH]; intros s bs Hl.
  - destruct s as [|c r]; [|simpl in Hl; lia].
    simpl. intros H. injection H as <-. constructor.
  - destruct s as [|c r]; [simpl; intros H; injection H as <-; constructor|].
    cbn [String.length] in Hl. cbn [fromhex]. destruct (is_space c).
    + apply IH. lia.
    + destruct r as [|c' r']; [discriminate|].
      cbn [String.length] in Hl.
      destruct (hex_val c) as [hi|] eqn:Ehi; [|discriminate].
      destruct (hex_val c') as [lo|] eqn:Elo; [|discriminate].
      destruct (fromhex r') as [bs'|] eqn:Er; [|discriminate].
      intros H. injection H as <-. constructor.
      * apply hex_val_range in Ehi, Elo. lia.
      * apply (IH r'); [lia|exact Er].
Qed.

Lemma be_value_nonneg bs :
  Forall (fun b => 0 <= b < 256) bs -> 0 <= be_value bs.
Proof.
  unfold be_value. intros H.
  assert (G : forall a, 0 <= a ->
                0 <= fold_left (fun acc b => acc * 256 + b) bs a).
  { induction H as [|b r Hb _ IH]; intros a Ha; cbn [fold_left];
      [exact Ha|]. apply IH. lia. }
  apply G. lia.
Qed.

(** A string of 24 characters with white space in it is read as an
    identifier, of fewer than 12 bytes; none of the identifiers handed out
    is that one, so that it names no client and no case. *)
Lemma white_space_id_names_nothing ar id_str bs :
  ids_ok ar ->
  String.length id_str = 24%nat ->
  fromhex id_str = Some bs ->
  List.length bs <> 12%nat ->
  ObjectId_of_str id_str <> None /\
  no_client_named id_str (base ar) /\
  no_case_named id_str (base ar).
Proof.
  intros [_ [Hcl [Hca _]]] Hl Hf Hn.
  assert (Ho : ObjectId_of_str id_str = Some (ObjectId_of_bytes bs)).
  { unfold ObjectId_of_str. rewrite Hl, Hf. reflexivity. }
  assert (Hneg : ObjectId_of_bytes bs < 0).
  { unfold ObjectId_of_bytes.
    destruct (Nat.eqb_spec (List.length bs) 12) as [E|_]; [destruct (Hn E)|].
    pose proof (be_value_nonneg bs
                  (fromhex_bytes_upto _ id_str bs (le_n _) Hf)) as Hb.
    assert (0 < 256 ^ Z.of_nat (List.length bs))
      by (apply Z.pow_pos_nonneg; lia).
    lia. }
  split; [rewrite Ho; discriminate|].
  split; intros d Hd E; rewrite Ho in E; injection E as E.
  - specialize (Hcl d Hd). lia.
  - specialize (Hca d Hd). lia.
Qed.

Lemma find_last_fresh {A} (l : list (Stored A)) (x : Stored A) :
  (forall d, In d l -> _id d <> _id x) ->
  List.find (has_id (_id x)) (l ++ [x]) = Some x.
Proof.
  intros H. apply find_first.
  - intros d Hd. destruct (has_id (_id x) d) eqn:E; [|reflexivity].
    apply has_id_true in E. destruct (H d Hd E).
  - apply has_id_true. reflexivity.
Qed.

(** X8: the identifier [create_client] returns is accepted by
    [create_case]: a case naming the client just created is always
    stored. *)
Theorem created_client_can_be_named :
  forall (who : Client.t) (payload : Case.t) (now1 now2 : datetime)
         (db : Store),
    0 <= next_oid db < 2 ^ 96 ->
    Case.client_id payload = ObjectId_str (next_oid db) ->
    fst (create_client who now1 db) = inr (Case.client_id payload) /\
    exists new_id db2,
      create_case payload now2 (snd (create_client who now1 db))
      = (inr new_id, db2) /\
      case db2
      = case db ++ [mkDocument (next_oid db + 1 + 1) payload now2 now2].
Proof.
  intros who payload now1 now2 db Hr Hc.
  rewrite create_client_eq. simpl. split; [rewrite Hc; reflexivity|].
  rewrite create_case_eq, Hc.
  assert (Ht : truthy (ObjectId_str (next_oid db)) = true) by reflexivity.
  rewrite Ht, (ObjectId_of_str_str _ Hr).
  assert (Hf : exists c, List.find (has_id (next_oid db))
                 (client (with_client who now1 db)) = Some c).
  { destruct (List.find (has_id (next_oid db))
                (client (with_client who now1 db))) as [c|] eqn:E;
      [exists c; reflexivity|].
    exfalso.
    pose proof (find_none _ _ E (mkDocument (next_oid db) who now1 now1))
      as Hn.
    assert (Hin : In (mkDocument (next_oid db) who now1 now1)
                     (client (with_client who now1 db))).
    { simpl. apply in_or_app. right. left. reflexivity. }
    specialize (Hn Hin). unfold has_id in Hn. simpl in Hn.
    rewrite Z.eqb_refl in Hn. discriminate. }
  destruct Hf as [c ->].
  eexists. eexists. split; reflexivity.
Qed.

Lemma created_client_can_be_named_witness :
  exists new_id db2,
    create_case (Sample.deed Sample.ada_id "New") Sample2.later
      (snd (create_client Sample.ada Sample.clock empty_store))
    = (inr new_id, db2) /\
    case db2
    = [mkDocument 2 (Sample.deed Sample.ada_id "New")
         Sample2.later Sample2.later].
Proof.
  destruct (created_client_can_be_named Sample.ada
              (Sample.deed Sample.ada_id "New") Sample.clock Sample2.later
              empty_store) as [_ H].
  - simpl. lia.
  - reflexivity.
  - exact H.
Defined.

(** X9: the identifier [create_case] returns names the case it has
    stored: in a store whose cases bear identifiers handed out earlier, a
    status update under that identifier succeeds and it is the new case
    that then bears the new status (the scenario: create a case, which
    starts with the status of its payload, and move it to Waiting
    Signature). *)
Theorem created_case_can_be_updated :
  forall (payload : Case.t) (status new_id : string) (now1 now2 : datetime)
         (db db1 : Store),
    0 <= next_oid db < 2 ^ 96 ->
    (forall d, In d (case db) -> _id d < next_oid db) ->
    In status CaseStatus ->
    create_case payload now1 db = (inr new_id, db1) ->
    exists db2,
      update_case_status new_id status now2 db1 = (inr true, db2) /\
      case db2
      = case db ++
        [mkDocument (next_oid db) (Case.set_status status payload)
           now1 now2] /\
      ObjectId_of_str new_id = Some (next_oid db).
Proof.
  intros payload status new_id now1 now2 db db1 Hr Hfresh Hs Hc.
  apply create_case_success in Hc. destruct Hc as [-> ->].
  pose proof (ObjectId_of_str_str _ Hr) as Ho.
  assert (E := update_case_status_at (ObjectId_str (next_oid db)) status now2
                 (with_case payload now1 db) (next_oid db) (case db) []
                 (mkDocument (next_oid db) payload now1 now1) Hs Ho
                 eq_refl eq_refl).
  eexists. split; [apply E|split; [reflexivity|exact Ho]].
  intros x Hx. specialize (Hfresh x Hx). lia.
Qed.

(** A deed is created for the stored client and moved to Waiting
    Signature under the identifier the creation returned. *)
Lemma created_case_can_be_updated_witness :
  exists db2,
    update_case_status "000000000000000000000002" "Waiting Signature"
      Sample2.later
      (snd (create_case (Sample.deed Sample.ada_id "New") Sample.clock
              Sample.one_client)) = (inr true, db2) /\
    map (fun d => Case.status (fields d)) (case db2) = ["Waiting Signature"].
Proof.
  destruct (created_case_can_be_updated (Sample.deed Sample.ada_id "New")
              "Waiting Signature" "000000000000000000000002"
              Sample.clock Sample2.later Sample.one_client
              (snd (create_case (Sample.deed Sample.ada_id "New")
                      Sample.clock Sample.one_client)))
    as [db2 [H1 [H2 _]]].
  - simpl. lia.
  - intros d [].
  - simpl. tauto.
  - reflexivity.
  - exists db2. split; [exact H1|]. rewrite H2. reflexivity.
Defined.

(** ** The dashboard and the listing of the day *)

Lemma sort_by_length {X} (leb : X -> X -> bool) l :
  List.length (sort_by leb l) = List.length l.
Proof. apply Permutation_length, sort_by_perm. Qed.

Lemma midnight_le now :
  valid_datetime now = true ->
  dt_le (mkDatetime (year now) (month now) (day now) 0 0 0 0) now /\
  timestamp_us now
  < timestamp_us (mkDatetime (year now) (month now) (day now) 0 0 0 0)
    + 86400000000.
Proof.
  unfold valid_datetime, valid_time. rewrite !andb_true_iff.
  rewrite !Z.leb_le, !Z.ltb_lt.
  intros [_ [[[[[[[H1 H2] H3] H4] H5] H6] H7] H8]].
  unfold dt_le, timestamp_us. simpl. split; lia.
Qed.

(** X10: when the clock shows a valid instant before year 9999, the
    dashboard's appointments_today is the number of appointments that the
    listing returns for the day written by [strftime] for that instant;
    the day counted is the one that holds the instant: it runs from the
    preceding midnight for 24 hours. *)
Theorem dashboard_counts_the_listing_of_today :
  forall (role : string) (now : datetime) (db : Store),
    valid_datetime now = true ->
    year now < MAXYEAR ->
    exists out items start end_,
      dashboard role now db = (inr out, db) /\
      list_appointments (Some (strftime_Ymd now)) role now db
      = (inr items, db) /\
      appointments_today (kpis out) = Z.of_nat (List.length items) /\
      day_bounds (strftime_Ymd now) = Some (start, end_) /\
      dt_le start now /\ dt_lt now end_ /\
      timestamp_us end_ = timestamp_us start + 86400000000.
Proof.
  intros role now db Hv Hy.
  pose proof (day_bounds_today now Hv) as Hb.
  destruct (plus_one_day_exists
              (mkDatetime (year now) (month now) (day now) 0 0 0 0) Hy)
    as [e He].
  rewrite He in Hb.
  assert (Hm : valid_datetime
                 (mkDatetime (year now) (month now) (day now) 0 0 0 0) = true).
  { unfold valid_datetime in *. apply andb_prop in Hv. destruct Hv as [Hd _].
    simpl. rewrite Hd. reflexivity. }
  pose proof (plus_one_day_timestamp _ _ Hm He) as Hday.
  destruct (midnight_le now Hv) as [Hle Hlt].
  eexists. eexists. exists (mkDatetime (year now) (month now) (day now) 0 0 0 0), e.
  split; [rewrite dashboard_eq, Hb; reflexivity|].
  split.
  { rewrite list_appointments_eq.
    assert (Ht : truthy (strftime_Ymd now) = true) by reflexivity.
    rewrite Ht, Hb. reflexivity. }
  split; [cbn [kpis appointments_today];
          rewrite length_map, sort_by_length; reflexivity|].
  split; [exact Hb|]. split; [exact Hle|]. split; [|exact Hday].
  unfold dt_lt. lia.
Qed.

(** On 2024-05-17 the calendar of [Sample.three_days] has two
    appointments. *)
Lemma dashboard_counts_the_listing_of_today_witness :
  exists out items,
    dashboard "notary" Sample.clock Sample.three_days
    = (inr out, Sample.three_days) /\
    list_appointments (Some "2024-05-17") "notary" Sample.clock
      Sample.three_days = (inr items, Sample.three_days) /\
    appointments_today (kpis out) = 2 /\ List.length items = 2%nat.
Proof.
  destruct (dashboard_counts_the_listing_of_today "notary" Sample.clock
              Sample.three_days eq_refl eq_refl)
    as [out [items [st [en [H1 [H2 [H3 _]]]]]]].
  exists out, items. split; [exact H1|]. split; [exact H2|].
  assert (L : List.length items = 2%nat).
  { assert (E : fst (list_appointments (Some "2024-05-17") "notary"
                       Sample.clock Sample.three_days) = inr items)
      by (change "2024-05-17" with (strftime_Ymd Sample.clock);
          rewrite H2; reflexivity).
    vm_compute in E. inversion E. reflexivity. }
  split; [rewrite H3, L; reflexivity|exact L].
Defined.

(** ** Listing cases *)

Lemma status_filter_spec s d :
  s <> "" ->
  status_filter (Some s) d = true <-> Case.status (fields d) = s.
Proof.
  intros Hs. unfold status_filter. apply truthy_true in Hs. rewrite Hs.
  apply String.eqb_eq.
Qed.

(** X11: asked for a non-empty status with a positive limit, the listing
    of cases returns stored cases only, all of them in the status asked
    for, in the order of the store and never more than the limit; when it
    returns fewer than the limit, it returns every stored case in that
    status.  The store is left as it is. *)
Theorem list_cases_by_status :
  forall (status : string) (limit : Z) (role : string) (now : datetime)
         (db : Store),
    status <> "" ->
    0 < limit ->
    exists items,
      list_cases (Some status) limit role now db
      = (inr (map stringify_id items), db) /\
      (exists rest, List.filter (status_filter (Some status)) (case db)
                    = items ++ rest) /\
      (forall d, In d items ->
                 In d (case db) /\ Case.status (fields d) = status) /\
      Z.of_nat (List.length items) <= limit /\
      (Z.of_nat (List.length items) < limit ->
       forall d, In d (case db) -> Case.status (fields d) = status ->
                 In d items).
Proof.
  intros status limit role now db Hs Hl.
  set (l := List.filter (status_filter (Some status)) (case db)).
  exists (firstn (Z.to_nat limit) l).
  assert (Hlim : limit_ limit l = firstn (Z.to_nat limit) l).
  { unfold limit_. destruct (limit =? 0) eqn:E;
      [apply Z.eqb_eq in E; lia|]. rewrite Z.abs_eq by lia. reflexivity. }
  split; [rewrite list_cases_eq; fold l; rewrite Hlim; reflexivity|].
  split; [exists (skipn (Z.to_nat limit) l); symmetry; apply firstn_skipn|].
  split.
  - intros d Hd.
    assert (Hin : In d l).
    { rewrite <- (firstn_skipn (Z.to_nat limit) l). apply in_or_app.
      left. exact Hd. }
    unfold l in Hin. apply filter_In in Hin. destruct Hin as [Hin Hf].
    split; [exact Hin|]. apply (status_filter_spec status d Hs), Hf.
  - split.
    + rewrite length_firstn. lia.
    + intros Hlt d Hd Hst. rewrite length_firstn in Hlt.
      rewrite firstn_all2 by lia.
      unfold l. apply filter_In. split; [exact Hd|].
      apply (status_filter_spec status d Hs), Hst.
Qed.

Lemma list_cases_by_status_witness :
  exists items,
    list_cases (Some "Completed") 100 "notary" Sample.clock Sample.office
    = (inr (map stringify_id items), Sample.office) /\
    Z.of_nat (List.length items) <= 100.
Proof.
  destruct (list_cases_by_status "Completed" 100 "notary" Sample.clock
              Sample.office) as [items [H1 [_ [_ [H3 _]]]]].
  - discriminate.
  - reflexivity.
  - exists items. split; [exact H1|exact H3].
Defined.

(** X12: the listing of cases does not check the status it is asked for:
    for a status outside the enum, which the status route refuses with
    400, it answers with an empty list as soon as every stored case has a
    status of the enum; an empty status, like an absent one, is no filter
    at all. *)
Theorem list_cases_unchecked_status :
  forall (status : string) (limit : Z) (role : string) (now : datetime)
         (db : Store),
    (forall d, In d (case db) -> In (Case.status (fields d)) CaseStatus) ->
    ~ In status CaseStatus ->
    (status <> "" ->
     list_cases (Some status) limit role now db = (inr [], db) /\
     InvalidArgumentError
       (update_case_status "000000000000000000000000" status now db)) /\
    list_cases (Some "") limit role now db
    = list_cases None limit role now db /\
    list_cases None limit role now db
    = (inr (map stringify_id (limit_ limit (case db))), db).
Proof.
  intros status limit role now db Hok Hn. split; [|split].
  - intros Hs. split.
    + rewrite list_cases_eq.
      assert (E : List.filter (status_filter (Some status)) (case db) = []).
      { destruct (List.filter (status_filter (Some status)) (case db))
          as [|d r] eqn:Ef; [reflexivity|]. exfalso.
        assert (Hd : In d (List.filter (status_filter (Some status))
                             (case db))) by (rewrite Ef; left; reflexivity).
        apply filter_In in Hd. destruct Hd as [Hin Hf].
        apply (status_filter_spec status d Hs) in Hf.
        apply Hn. rewrite <- Hf. apply Hok, Hin. }
      rewrite E. unfold limit_. destruct (limit =? 0); [reflexivity|].
      rewrite firstn_nil. reflexivity.
    + rewrite update_case_status_eq.
      destruct (in_literal status CaseStatus) eqn:E.
      * apply in_literal_In in E. destruct (Hn E).
      * apply fails_with_inl.
  - reflexivity.
  - rewrite list_cases_eq. simpl. rewrite filter_all. reflexivity.
Qed.

Lemma list_cases_unchecked_status_witness :
  list_cases (Some "Bogus") 100 "notary" Sample.clock Sample.office
  = (inr [], Sample.office) /\
  InvalidArgumentError
    (update_case_status "000000000000000000000000" "Bogus" Sample.clock
       Sample.office).
Proof.
  destruct (list_cases_unchecked_status "Bogus" 100 "notary" Sample.clock
              Sample.office) as [H _].
  - intros d [<-|[<-|[<-|[]]]]; simpl; tauto.
  - simpl. intros [H|[H|[H|[H|[H|[]]]]]]; discriminate H.
  - apply H. discriminate.
Defined.

(** ** Documents and rendered templates *)

Lemma create_document_record_eq payload now ar :
  create_document_record payload now ar =
  (inr (ObjectId_str (next_oid (base ar))),
   mkArchive
     (mkStore (client (base ar)) (case (base ar)) (appointment (base ar))
        (auditlog (base ar) ++
           [mkDocument (next_oid (base ar) + 1)
              (AuditLog.make "assistant" "create" "document"
                 (ObjectId_str (next_oid (base ar)))) now now])
        (next_oid (base ar) + 1 + 1))
     (document ar ++ [mkDocument (next_oid (base ar)) payload now now])).
Proof. reflexivity. Qed.

Lemma templates_get_known k :
  templates_get k DEFAULT_TEMPLATES <> None <->
  k = "power_of_attorney" \/ k = "affidavit".
Proof.
  unfold DEFAULT_TEMPLATES. cbn [templates_get].
  destruct (String.eqb_spec "power_of_attorney" k) as [E|N].
  - split; [intros _; left; symmetry; exact E|discriminate].
  - destruct (String.eqb_spec "affidavit" k) as [E'|N'].
    + split; [intros _; right; symmetry; exact E'|discriminate].
    + split; [intros H; destruct (H eq_refl)|].
      intros [H|H]; symmetry in H; contradiction.
Qed.

Lemma no_case_find case_id o db :
  ObjectId_of_str case_id = Some o -> no_case_named case_id db ->
  List.find (has_id o) (case db) = None.
Proof.
  intros Ho Hno. apply find_none_iff. intros d Hd.
  destruct (has_id o d) eqn:E; [|reflexivity].
  apply has_id_true in E. exfalso. apply (Hno d Hd). congruence.
Qed.

(** X13: a document record is stored without any look at the case it
    names: for a case_id that no stored case bears, creating the record
    succeeds, which stores it with an audit record (actor_role assistant,
    action create, entity document), whereas rendering a template for
    the same case_id fails and stores nothing. *)
Theorem document_case_is_not_checked :
  forall (payload : DocumentRecord.t) (template_key : string)
         (now : datetime) (ar : Archive),
    no_case_named (DocumentRecord.case_id payload) (base ar) ->
    (exists new_id ar',
       create_document_record payload now ar = (inr new_id, ar') /\
       document ar'
       = document ar ++ [mkDocument (next_oid (base ar)) payload now now] /\
       auditlog (base ar')
       = auditlog (base ar) ++
         [mkDocument (next_oid (base ar) + 1)
            (AuditLog.mk "assistant" None "create" "document" (Some new_id)
               None) now now]) /\
    exists e,
      render_template template_key (DocumentRecord.case_id payload) now ar
      = (inl e, ar).
Proof.
  intros payload k now ar Hno. split.
  - eexists. eexists. rewrite create_document_record_eq.
    split; [reflexivity|]. split; reflexivity.
  - rewrite render_template_eq.
    destruct (templates_get k DEFAULT_TEMPLATES) as [tpl|].
    + destruct (ObjectId_of_str (DocumentRecord.case_id payload)) as [o|]
        eqn:Eo.
      * rewrite (no_case_find _ _ _ Eo Hno). eexists. reflexivity.
      * eexists. reflexivity.
    + eexists. reflexivity.
Qed.

Lemma document_case_is_not_checked_witness :
  (exists new_id ar',
     create_document_record Sample2.scan Sample2.later
       Sample2.client_and_case = (inr new_id, ar') /\
     List.length (document ar') = 1%nat) /\
  exists e,
    render_template "affidavit" "no-such-case" Sample2.later
      Sample2.client_and_case = (inl e, Sample2.client_and_case).
Proof.
  destruct (document_case_is_not_checked Sample2.scan "affidavit"
              Sample2.later Sample2.client_and_case) as [H1 H2].
  - intros d _. vm_compute. discriminate.
  - split; [|exact H2].
    destruct H1 as [new_id [ar' [E [Hd _]]]].
    exists new_id, ar'. split; [exact E|]. rewrite Hd. reflexivity.
Defined.

(** X14: rendering checks the template first, then the identifier, then
    the case: a key other than power_of_attorney and affidavit is
    answered 404 whatever the identifier of the case, even one that bson
    does not read; with a known key, an identifier that bson does not read
    is answered 400 and one that it reads and no case bears 404.  bson
    reads the strings of 24 characters that [bytes.fromhex] reads: pairs
    of hexadecimal digits, with white space allowed around the pairs.  No
    failure of the rendering writes anything. *)
Theorem render_template_failures :
  forall (template_key case_id : string) (now : datetime) (ar : Archive),
    (template_key <> "power_of_attorney" -> template_key <> "affidavit" ->
     render_template template_key case_id now ar
     = (inl (mkHTTPException 404 "Template not found"), ar)) /\
    (template_key = "power_of_attorney" \/ template_key = "affidavit" ->
     (ObjectId_of_str case_id = None ->
      render_template template_key case_id now ar
      = (inl (mkHTTPException 400 "Invalid id or bson not available"), ar)) /\
     (ObjectId_of_str case_id <> None ->
      no_case_named case_id (base ar) ->
      render_template template_key case_id now ar
      = (inl (mkHTTPException 404 "Case not found"), ar))) /\
    (forall e, fst (render_template template_key case_id now ar) = inl e ->
               snd (render_template template_key case_id now ar) = ar).
Proof.
  intros k i now ar. split; [|split].
  - intros H1 H2. rewrite render_template_eq.
    destruct (templates_get k DEFAULT_TEMPLATES) as [tpl|] eqn:E;
      [|reflexivity].
    assert (Hk : templates_get k DEFAULT_TEMPLATES <> None)
      by (rewrite E; discriminate).
    apply templates_get_known in Hk. destruct Hk; contradiction.
  - intros Hk. apply templates_get_known in Hk.
    rewrite render_template_eq.
    destruct (templates_get k DEFAULT_TEMPLATES) as [tpl|];
      [|destruct (Hk eq_refl)].
    split.
    + intros Ho. rewrite Ho. reflexivity.
    + intros Ho Hno.
      destruct (ObjectId_of_str i) as [o|] eqn:Eo; [|destruct (Ho eq_refl)].
      rewrite (no_case_find _ _ _ Eo Hno). reflexivity.
  - rewrite render_template_eq.
    destruct (templates_get k DEFAULT_TEMPLATES) as [tpl|];
      [|intros; reflexivity].
    destruct (ObjectId_of_str i) as [o|]; [|intros; reflexivity].
    destruct (List.find (has_id o) (case (base ar))) as [cd|];
      [|intros; reflexivity].
    cbv zeta.
    destruct (truthy (Case.client_id (fields cd))).
    + destruct (ObjectId_of_str (Case.client_id (fields cd))) as [o'|];
        [|intros; reflexivity].
      intros e H. discriminate H.
    + intros e H. discriminate H.
Qed.

Lemma render_template_failures_witness :
  render_template "deed" "not-an-id" Sample2.later Sample2.client_and_case
  = (inl (mkHTTPException 404 "Template not found"),
     Sample2.client_and_case) /\
  render_template "affidavit" "not-an-id" Sample2.later
    Sample2.client_and_case
  = (inl (mkHTTPException 400 "Invalid id or bson not available"),
     Sample2.client_and_case) /\
  render_template "affidavit" "0000000000000000000000ff" Sample2.later
    Sample2.client_and_case
  = (inl (mkHTTPException 404 "Case not found"), Sample2.client_and_case) /\
  render_template "affidavit" "0123456789abcdef012345  " Sample2.later
    Sample2.client_and_case
  = (inl (mkHTTPException 404 "Case not found"), Sample2.client_and_case).
Proof.
  destruct (render_template_failures "affidavit" "0123456789abcdef012345  "
              Sample2.later Sample2.client_and_case) as [_ [H4 _]].
  destruct (render_template_failures "deed" "not-an-id" Sample2.later
              Sample2.client_and_case) as [H1 _].
  destruct (render_template_failures "affidavit" "not-an-id" Sample2.later
              Sample2.client_and_case) as [_ [H2 _]].
  destruct (render_template_failures "affidavit" "0000000000000000000000ff"
              Sample2.later Sample2.client_and_case) as [_ [H3 _]].
  split; [apply H1; discriminate|]. split; [|split].
  - apply H2; [right; reflexivity|reflexivity].
  - apply H3; [right; reflexivity|vm_compute; discriminate|].
    intros d [<-|[]]. vm_compute. discriminate.
  - apply H4; [right; reflexivity|vm_compute; discriminate|].
    intros d [<-|[]]. vm_compute. discriminate.
Defined.

(** X15: when both the template and the case exist, and the case names no
    client or a well-formed one, the rendering succeeds.  It stores one
    document, with the case_id as the caller wrote it, the name of the
    template, its key and the text that is returned, under the
    identifier that is returned; it writes nothing else: clients, cases
    and appointments are as before, and so is the audit log, to which the
    rendering, unlike the creation of a document record, adds no
    record. *)
Theorem render_template_effect :
  forall (template_key case_id : string) (now : datetime) (ar : Archive)
         (tpl : Template) (o : ObjectId) (case_doc : Stored Case.t),
    templates_get template_key DEFAULT_TEMPLATES = Some tpl ->
    ObjectId_of_str case_id = Some o ->
    List.find (has_id o) (case (base ar)) = Some case_doc ->
    Case.client_id (fields case_doc) = "" \/
    ObjectId_of_str (Case.client_id (fields case_doc)) <> None ->
    exists out ar',
      render_template template_key case_id now ar = (inr out, ar') /\
      document ar'
      = document ar ++
        [mkDocument (next_oid (base ar))
           (DocumentRecord.mk case_id (tpl_name tpl) (Some template_key)
              (Some (rendered_content out)) None None (Some []))
           now now] /\
      document_id out = ObjectId_str (next_oid (base ar)) /\
      auditlog (base ar') = auditlog (base ar) /\
      client (base ar') = client (base ar) /\
      case (base ar') = case (base ar) /\
      appointment (base ar') = appointment (base ar).
Proof.
  intros k i now ar tpl o cd Ht Ho Hf Hc.
  rewrite render_template_eq, Ht, Ho, Hf. cbv zeta.
  destruct (truthy (Case.client_id (fields cd))) eqn:Et.
  - destruct Hc as [Hc|Hc].
    + apply truthy_true in Et. contradiction.
    + destruct (ObjectId_of_str (Case.client_id (fields cd))) as [o'|];
        [|destruct (Hc eq_refl)].
      eexists. eexists. split; [reflexivity|]. simpl.
      repeat split; reflexivity.
  - eexists. eexists. split; [reflexivity|]. simpl.
    repeat split; reflexivity.
Qed.

(** The affidavit of the deed of Ada Byron, rendered at 16:45 on
    2024-05-17. *)
Lemma render_template_effect_witness :
  exists out ar',
    render_template "affidavit" Sample2.deed_id Sample2.later
      Sample2.client_and_case = (inr out, ar') /\
    rendered_content out
    = ("AFFIDAVIT" ++ nl ++ nl ++
       "        Affiant: Ada Byron" ++ nl ++
       "        Statement: ... (sample content)" ++ nl ++
       "        Date: 2024-05-17")%string /\
    List.length (document ar') = 1%nat /\
    auditlog (base ar') = auditlog (base Sample2.client_and_case).
Proof.
  destruct (render_template_effect "affidavit" Sample2.deed_id Sample2.later
              Sample2.client_and_case
              (mkTemplate "Affidavit"
                 ("AFFIDAVIT" ++ nl ++ nl ++
                  "        Affiant: {{client_first_name}} {{client_last_name}}"
                  ++ nl ++
                  "        Statement: ... (sample content)" ++ nl ++
                  "        Date: {{date}}")%string)
              2
              (mkDocument 2 (Sample.deed Sample.ada_id "New")
                 Sample.clock Sample.clock))
    as [out [ar' [E [Hd [_ [Ha _]]]]]].
  - reflexivity.
  - reflexivity.
  - reflexivity.
  - right. vm_compute. discriminate.
  - exists out, ar'. split; [exact E|].
    split; [|split; [rewrite Hd; reflexivity|exact Ha]].
    assert (F : fst (render_template "affidavit" Sample2.deed_id
                       Sample2.later Sample2.client_and_case) = inr out)
      by (rewrite E; reflexivity).
    vm_compute in F. inversion F. reflexivity.
Defined.

(** ** The audit trail *)

Lemma ok_outcome {A} (r : result A * Archive) :
  ok (fst (outcome r)) = ok (fst r).
Proof. destruct r as [[e|a] ar]; reflexivity. Qed.

Ltac audit_leaf :=
  simpl;
  first [ solve [eexists; split; reflexivity]
        | solve [exists []; rewrite app_nil_r; split; reflexivity] ].

(** The audit records a request adds: one when an audited route answers,
    none otherwise. *)
Lemma serve_audit r now ar :
  exists extra,
    auditlog (base (snd (serve r now ar))) = auditlog (base ar) ++ extra /\
    List.length extra
    = (if audited r && ok (fst (serve r now ar)) then 1 else 0)%nat.
Proof.
  destruct r as [x p|x b|x s l|x i s|b|x d|x p|x k i|x]; unfold serve;
    rewrite outcome_snd, ok_outcome; cbn [audited andb];
    rewrite ?on_base_snd, ?on_base_fst; cbn [base].
  - unfold post_clients, bind. rewrite require_role_inv.
    destruct (in_literal (get_role x) staff); [|audit_leaf].
    rewrite create_client_eq. audit_leaf.
  - unfold post_cases, bind. rewrite require_role_inv.
    destruct (in_literal (get_role x) staff); [|audit_leaf].
    destruct (Case.validate b) as [payload|]; [|audit_leaf].
    rewrite create_case_eq.
    destruct (truthy (Case.client_id payload)); [|audit_leaf].
    destruct (ObjectId_of_str (Case.client_id payload)) as [o|];
      [|audit_leaf].
    destruct (List.find (has_id o) (client (base ar))); audit_leaf.
  - unfold get_cases, bind. rewrite require_role_inv.
    destruct (in_literal (get_role x) staff); audit_leaf.
  - unfold patch_case_status, bind. rewrite require_role_inv.
    destruct (in_literal (get_role x) staff); [|audit_leaf].
    rewrite update_case_status_eq.
    destruct (negb (in_literal s CaseStatus)); [audit_leaf|].
    destruct (ObjectId_of_str i) as [o|]; [|audit_leaf].
    destruct (update_first (has_id o) _ (case (base ar))) as [n l'].
    destruct (n =? 0); audit_leaf.
  - unfold post_appointments_public.
    destruct (Appointment.validate b) as [payload|]; [|audit_leaf].
    rewrite public_create_appointment_eq.
    destruct (dt_leb _ _); [audit_leaf|].
    destruct (List.find (conflicts_with payload) (appointment (base ar)));
      audit_leaf.
  - unfold get_appointments, bind. rewrite require_role_inv.
    destruct (in_literal (get_role x) staff); [|audit_leaf].
    rewrite list_appointments_eq.
    destruct d as [s|]; [|audit_leaf].
    destruct (truthy s); [|audit_leaf].
    destruct (day_bounds s) as [[st en]|]; audit_leaf.
  - unfold post_documents, bindA, on_base. rewrite require_role_inv.
    destruct (in_literal (get_role x) staff); audit_leaf.
  - unfold post_templates_render, bindA, on_base. rewrite require_role_inv.
    destruct (in_literal (get_role x) staff); [|audit_leaf].
    cbn [fst snd]. rewrite ?archive_eta, render_template_eq.
    destruct (templates_get k DEFAULT_TEMPLATES) as [tpl|]; [|audit_leaf].
    destruct (ObjectId_of_str i) as [o|]; [|audit_leaf].
    destruct (List.find (has_id o) (case (base ar))) as [cd|]; [|audit_leaf].
    cbv zeta.
    destruct (truthy (Case.client_id (fields cd))); [|audit_leaf].
    destruct (ObjectId_of_str (Case.client_id (fields cd))) as [o'|];
      audit_leaf.
  - unfold get_dashboard, bind. rewrite require_role_inv.
    destruct (in_literal (get_role x) staff); [|audit_leaf].
    rewrite dashboard_eq.
    destruct (day_bounds (strftime_Ymd now)) as [[st en]|]; audit_leaf.
Qed.

(** X16: the audit log is only ever appended to: whatever requests are
    served, the records it held are still there, unchanged and in the
    same order, followed by exactly one new record for each answered
    request to a route that writes a client, a case, a status, an
    appointment or a document record.  A refused request leaves no
    record, and neither does a reading route or the rendering of a
    template, although the rendering stores a document. *)
Theorem audit_log_is_append_only :
  forall (rs : list (request * datetime)) (ar : Archive),
    exists extra,
      auditlog (base (run rs ar)) = auditlog (base ar) ++ extra /\
      List.length extra = audited_answers rs ar /\
      (List.length extra <= List.length rs)%nat.
Proof.
  intros rs. induction rs as [|[r now] rest IH]; intros ar.
  - exists []. simpl. rewrite app_nil_r. repeat split. lia.
  - destruct (serve_audit r now ar) as [e1 [H1 L1]].
    destruct (IH (snd (serve r now ar))) as [e2 [H2 [L2 B2]]].
    exists (e1 ++ e2). cbn [run audited_answers List.length].
    rewrite H2, H1, <- app_assoc, length_app, L1, L2.
    split; [reflexivity|]. split; [reflexivity|].
    destruct (audited r && ok (fst (serve r now ar))); lia.
Qed.

(** ** What is written can be read back *)

(** X17: an appointment that has just been booked is in the listing of
    the day it starts on, written as [strftime] writes that day, under
    the identifier the booking returned and with the payload as it was
    sent. *)
Theorem booked_appointment_is_listed :
  forall (payload : Appointment.t) (now1 now2 : datetime) (role : string)
         (db db' : Store) (new_id : string),
    valid_datetime (Appointment.start_time payload) = true ->
    year (Appointment.start_time payload) < MAXYEAR ->
    public_create_appointment payload now1 db = (inr new_id, db') ->
    exists items,
      list_appointments
        (Some (strftime_Ymd (Appointment.start_time payload))) role now2 db'
      = (inr items, db') /\
      In (mkDocument new_id payload now1 now1) items.
Proof.
  intros payload now1 now2 role db db' new_id Hv Hy Hb.
  apply book_success in Hb. destruct Hb as [-> ->].
  set (t := Appointment.start_time payload) in *.
  pose proof (day_bounds_today t Hv) as Hd.
  destruct (plus_one_day_exists
              (mkDatetime (year t) (month t) (day t) 0 0 0 0) Hy) as [e He].
  rewrite He in Hd.
  assert (Hm : valid_datetime
                 (mkDatetime (year t) (month t) (day t) 0 0 0 0) = true).
  { unfold valid_datetime in *. apply andb_prop in Hv. destruct Hv as [Hv' _].
    simpl. rewrite Hv'. reflexivity. }
  pose proof (plus_one_day_timestamp _ _ Hm He) as Hday.
  destruct (midnight_le t Hv) as [Hle Hlt].
  eexists. split.
  - rewrite list_appointments_eq.
    assert (Ht : truthy (strftime_Ymd t) = true) by reflexivity.
    rewrite Ht, Hd. reflexivity.
  - change (mkDocument (ObjectId_str (next_oid db)) payload now1 now1)
      with (stringify_id (mkDocument (next_oid db) payload now1 now1)).
    apply in_map.
    apply (Permutation_in _ (Permutation_sym (sort_by_perm _ _))).
    apply filter_In. split.
    + simpl. apply in_or_app. right. left. reflexivity.
    + apply starts_within_spec. simpl. fold t. split; [exact Hle|].
      unfold dt_lt. lia.
Qed.

Lemma booked_appointment_is_listed_witness :
  exists items,
    list_appointments (Some "2024-05-17") "assistant" Sample2.later
      (snd (public_create_appointment
              (Sample.slot (Sample.at_ 9 0) (Sample.at_ 10 0) "Scheduled")
              Sample.clock empty_store))
    = (inr items,
       snd (public_create_appointment
              (Sample.slot (Sample.at_ 9 0) (Sample.at_ 10 0) "Scheduled")
              Sample.clock empty_store)) /\
    In (mkDocument "000000000000000000000000"
          (Sample.slot (Sample.at_ 9 0) (Sample.at_ 10 0) "Scheduled")
          Sample.clock Sample.clock) items.
Proof.
  apply (booked_appointment_is_listed
           (Sample.slot (Sample.at_ 9 0) (Sample.at_ 10 0) "Scheduled")
           Sample.clock Sample2.later "assistant" empty_store);
    reflexivity.
Defined.

(** X18: a case that has just been created is in the unlimited listing of
    the cases of its status, and in the unlimited listing of all cases,
    under the identifier the creation returned and with the payload as it
    was sent. *)
Theorem created_case_is_listed :
  forall (payload : Case.t) (now1 now2 : datetime) (role : string)
         (db db' : Store) (new_id : string),
    create_case payload now1 db = (inr new_id, db') ->
    (exists items,
       list_cases (Some (Case.status payload)) 0 role now2 db'
       = (inr items, db') /\
       In (mkDocument new_id payload now1 now1) items) /\
    (exists items,
       list_cases None 0 role now2 db' = (inr items, db') /\
       In (mkDocument new_id payload now1 now1) items).
Proof.
  intros payload now1 now2 role db db' new_id Hc.
  apply create_case_success in Hc. destruct Hc as [-> ->].
  assert (Hin : In (mkDocument (next_oid db) payload now1 now1)
                   (case (with_case payload now1 db))).
  { simpl. apply in_or_app. right. left. reflexivity. }
  split; eexists; (split; [rewrite list_cases_eq; reflexivity|]);
    change (mkDocument (ObjectId_str (next_oid db)) payload now1 now1)
      with (stringify_id (mkDocument (next_oid db) payload now1 now1));
    apply in_map; unfold limit_; cbn [Z.eqb]; apply filter_In;
    (split; [exact Hin|]).
  - unfold status_filter. destruct (truthy (Case.status payload));
      [apply String.eqb_refl|reflexivity].
  - reflexivity.
Qed.

Lemma created_case_is_listed_witness :
  exists items,
    list_cases (Some "New") 0 "notary" Sample2.later
      (snd (create_case (Sample.deed Sample.ada_id "New") Sample.clock
              Sample.one_client))
    = (inr items,
       snd (create_case (Sample.deed Sample.ada_id "New") Sample.clock
              Sample.one_client)) /\
    In (mkDocument "000000000000000000000002"
          (Sample.deed Sample.ada_id "New") Sample.clock Sample.clock) items.
Proof.
  destruct (created_case_is_listed (Sample.deed Sample.ada_id "New")
              Sample.clock Sample2.later "notary" Sample.one_client
              (snd (create_case (Sample.deed Sample.ada_id "New")
                      Sample.clock Sample.one_client))
              "000000000000000000000002") as [H _]; [reflexivity|].
  exact H.
Defined.
